(** * ReAct agent core: messages, hook chains, toolkit and the reply loop

    A shallow embedding of the TypeScript sources of the ReAct agent
    (Message.ts, ToolResponse.ts, Toolkit.ts, AgentBase.ts,
    ReActAgentBase.ts, ReActAgent.ts, OpenAIChatModel.ts) together with
    the properties the specification states about them.

    Conventions of the embedding:
    - asynchronous code is rendered in a state-and-exception monad over
      the mutable parts of the agent; a rejected promise is a raised
      exception;
    - the acting steps that [reply] starts together in one round are
      calls cut into the stretches that run without an [await]; the
      runtime decides in which order the stretches of different calls
      run, and the properties of a round hold for every such order;
    - JavaScript numbers are restricted to integers (and NaN where it
      matters), so an iteration bound is an integer; a plain object is
      the list of its own string-keyed properties in enumeration order,
      and [in] also sees what it inherits from [Object.prototype]; an
      assignment to [__proto__] adds no property, and the change of
      what the object inherits is not followed;
    - a hook function is given values and returns a value: the agent
      that the source passes to it as well is left out, so the
      properties speak of hooks that do not reach into the agent. *)

From Stdlib Require Import ZArith NArith String Ascii List Bool Lia.
From stdpp Require Import base option list strings gmap pretty.

Set Warnings "-register-all".

Local Open Scope string_scope.
Local Open Scope list_scope.
Local Open Scope Z_scope.

(** ** JavaScript values and errors *)

Inductive jsval : Type :=
| JsUndefined
| JsNull
| JsBool (b : bool)
| JsNum (z : Z)
| JsStr (s : string)
| JsArr (items : list jsval)
| JsObj (props : list (string * jsval))
| JsNative (name : string).

(** [Record<string, any>]: own properties in enumeration order. *)
Definition JsRecord : Type := list (string * jsval).

Fixpoint alist_get {V : Type} (k : string) (o : list (string * V)) : option V :=
  match o with
  | [] => None
  | (k', v) :: rest => if String.eqb k k' then Some v else alist_get k rest
  end.

(** [o] has [k] as a property of its own. *)
Definition alist_has {V : Type} (k : string) (o : list (string * V)) : bool :=
  match alist_get k o with
  | Some _ => true
  | None => false
  end.

(** The properties every plain object inherits from [Object.prototype]. *)
Definition Object_prototype_keys : list string :=
  ["constructor"; "hasOwnProperty"; "isPrototypeOf"; "propertyIsEnumerable";
   "toLocaleString"; "toString"; "valueOf"; "__proto__";
   "__defineGetter__"; "__defineSetter__"; "__lookupGetter__"; "__lookupSetter__"].

Definition inherited (k : string) : bool :=
  existsb (String.eqb k) Object_prototype_keys.

(** [k in o] for a plain object [o]: own and inherited properties. *)
Definition js_in (k : string) (o : JsRecord) : bool :=
  alist_has k o || inherited k.

(** [o[k]] for a plain object [o]; an inherited property is a built-in
    value. *)
Definition js_get (k : string) (o : JsRecord) : jsval :=
  match alist_get k o with
  | Some v => v
  | None => if inherited k then JsNative k else JsUndefined
  end.

(** [Object.keys(o)] *)
Definition alist_keys {V : Type} (o : list (string * V)) : list string :=
  map fst o.

(** A thrown [Error]; [String(e)] prints the name and the message. *)
Record JsError : Type := mkError { err_name : string; err_message : string }.

Definition new_Error (msg : string) : JsError := mkError "Error" msg.
Definition new_TypeError (msg : string) : JsError := mkError "TypeError" msg.

Definition String_of_error (e : JsError) : string :=
  err_name e +:+ ": " +:+ err_message e.

Definition newline : string := String (ascii_of_nat 10) EmptyString.

(** [parts.join(sep)] *)
Definition join (sep : string) (parts : list string) : string :=
  String.concat sep parts.

(** [String(v)]; an array prints its items separated by commas, with
    nothing for an item that is [null] or [undefined]. *)
Fixpoint String_of_jsval (v : jsval) : string :=
  match v with
  | JsUndefined => "undefined"
  | JsNull => "null"
  | JsBool b => if b then "true" else "false"
  | JsNum z => pretty z
  | JsStr s => s
  | JsArr items =>
      join ","
        (map (fun item =>
                match item with
                | JsUndefined | JsNull => ""
                | _ => String_of_jsval item
                end) items)
  | JsObj _ => "[object Object]"
  | JsNative name => "function " +:+ name +:+ "() { [native code] }"
  end.

(** The text [items.join(sep)] makes of one item. *)
Definition join_item (item : jsval) : string :=
  match item with
  | JsUndefined | JsNull => ""
  | _ => String_of_jsval item
  end.

(** [haystack.includes(needle)] *)
Fixpoint includes_from (fuel : nat) (needle haystack : string) : bool :=
  if String.prefix needle haystack then true
  else match fuel, haystack with
       | S fuel', String _ rest => includes_from fuel' needle rest
       | _, _ => false
       end.

Definition includes (needle haystack : string) : bool :=
  includes_from (String.length haystack) needle haystack.

(** The outcome of a call that may throw. *)
Inductive Result (A : Type) : Type :=
| Ok (a : A)
| Throw (e : JsError).
Arguments Ok {A} a.
Arguments Throw {A} e.

(** ** Message.ts *)

Inductive MessageRole : Type := role_system | role_user | role_assistant.

Record ToolUseBlock : Type := mkToolUse {
  tu_id : string;
  tu_name : string;
  tu_input : JsRecord
}.

Record ToolResultBlock : Type := mkToolResult {
  tr_id : string;
  tr_name : string;
  tr_output : jsval
}.

Inductive ContentBlock : Type :=
| Text (text : string)
| Thinking (thinking : string)
| ToolUse (b : ToolUseBlock)
| ToolResult (b : ToolResultBlock).

(** [block.type] *)
Definition block_type (b : ContentBlock) : string :=
  match b with
  | Text _ => "text"
  | Thinking _ => "thinking"
  | ToolUse _ => "tool_use"
  | ToolResult _ => "tool_result"
  end.

(** [MessageContent = string | ContentBlock[]]; [OtherContent] stands for
    a run-time value that is neither, which [getTextContent] and
    [getContentBlocks] test for. *)
Inductive MessageContent : Type :=
| PlainText (s : string)
| Structured (blocks : list ContentBlock)
| OtherContent (v : jsval).

Record Message : Type := mkMessage {
  msg_id : string;
  msg_name : string;
  content : MessageContent;
  role : MessageRole;
  metadata : jsval
}.

(** [new Message(name, content, role)] with the identifier drawn by the
    caller. *)
Definition new_Message (id name : string) (c : MessageContent) (r : MessageRole) : Message :=
  mkMessage id name c r (JsObj []).

Definition setContent (c : MessageContent) (m : Message) : Message :=
  mkMessage (msg_id m) (msg_name m) c (role m) (metadata m).

Definition setMetadata (md : jsval) (m : Message) : Message :=
  mkMessage (msg_id m) (msg_name m) (content m) (role m) md.

Definition text_of_block (b : ContentBlock) : option string :=
  match b with
  | Text t => Some t
  | _ => None
  end.

Definition getTextContent (m : Message) : string :=
  match content m with
  | PlainText s => s
  | Structured blocks => join newline (omap text_of_block blocks)
  | OtherContent _ => ""
  end.

Definition getContentBlocks (type : option string) (m : Message) : list ContentBlock :=
  match content m with
  | PlainText s =>
      match type with
      | None => [Text s]
      | Some t => if String.eqb t "text" then [Text s] else []
      end
  | OtherContent _ => []
  | Structured blocks =>
      match type with
      | None => blocks
      | Some t => List.filter (fun block => String.eqb (block_type block) t) blocks
      end
  end.

Definition hasContentBlocks (type : string) (m : Message) : bool :=
  (0 <? length (getContentBlocks (Some type) m))%nat.

(** The blocks [getContentBlocks<ToolUseBlock>('tool_use')] returns, typed. *)
Definition tool_use_of_block (b : ContentBlock) : option ToolUseBlock :=
  match b with
  | ToolUse tu => Some tu
  | _ => None
  end.

Definition getToolUseBlocks (m : Message) : list ToolUseBlock :=
  omap tool_use_of_block (getContentBlocks (Some "tool_use") m).

Definition createTextBlock (text : string) : ContentBlock := Text text.

Definition createToolUseBlock (name : string) (input : JsRecord) (id : string) : ContentBlock :=
  ToolUse (mkToolUse id name input).

Definition createToolResultBlock (id name : string) (output : jsval) : ContentBlock :=
  ToolResult (mkToolResult id name output).

Module MessageFactory.

Definition createSystemMessage (id : string) (c : string) : Message :=
  new_Message id "system" (PlainText c) role_system.

Definition createUserMessage (id : string) (c : string) (name : string) : Message :=
  new_Message id name (PlainText c) role_user.

Definition createToolResultMessage (id : string) (toolResults : list ContentBlock) : Message :=
  new_Message id "system" (Structured toolResults) role_system.

End MessageFactory.

(** ** ToolResponse.ts *)

(** [metadata] of a tool response: the keys the agent reads, and the rest. *)
Record ToolMetadata : Type := mkToolMetadata {
  success : option bool;
  response_msg : option Message;
  error : option string;
  extra : JsRecord
}.

Record ToolResponse : Type := mkToolResponse {
  tr_content : list ContentBlock;
  tr_metadata : ToolMetadata;
  is_last : bool
}.

(** [new ToolResponse(text, metadata, isLast)] for a string payload. *)
Definition new_ToolResponse (text : string) (md : ToolMetadata) (isLast : bool) : ToolResponse :=
  mkToolResponse [createTextBlock text] md isLast.

Definition createErrorResponse (err : string) : ToolResponse :=
  new_ToolResponse ("错误: " +:+ err) (mkToolMetadata (Some false) None (Some err) []) true.

(** [chunk.metadata.success] used as a condition. *)
Definition success_truthy (r : ToolResponse) : bool :=
  match success (tr_metadata r) with
  | Some true => true
  | _ => false
  end.

(** ** Keyed containers of the JavaScript runtime *)

(** [Map<string, V>]: [set] on an existing key keeps its position, a new
    key goes last; iteration follows that order. *)
Module JsMap.

Section Ops.
Context {K : Type} `{EqDecision K} {V : Type}.

Definition t' : Type := list (K * V).

Definition empty : t' := [].

Fixpoint get (k : K) (m : t') : option V :=
  match m with
  | [] => None
  | (k', v) :: rest => if decide (k = k') then Some v else get k rest
  end.

Definition has (k : K) (m : t') : bool :=
  match get k m with
  | Some _ => true
  | None => false
  end.

Fixpoint replace (k : K) (v : V) (m : t') : t' :=
  match m with
  | [] => []
  | (k', v') :: rest =>
      if decide (k = k') then (k', v) :: rest else (k', v') :: replace k v rest
  end.

Definition set (k : K) (v : V) (m : t') : t' :=
  if has k m then replace k v m else m ++ [(k, v)].

Definition delete (k : K) (m : t') : t' :=
  List.filter (fun kv => negb (bool_decide (k = fst kv))) m.

Definition keys (m : t') : list K := map fst m.

Definition entries (m : t') : list (K * V) := m.

End Ops.

Definition t (K V : Type) : Type := list (K * V).

End JsMap.

(** [Set<string>]: insertion ordered, no duplicates. *)
Module JsSet.

Definition t : Type := list string.

Definition has (x : string) (s : t) : bool := bool_decide (x ∈ s).

Definition add (x : string) (s : t) : t := if has x s then s else s ++ [x].

Definition delete (x : string) (s : t) : t :=
  List.filter (fun y => negb (String.eqb x y)) s.

Definition clear (s : t) : t := [].

End JsSet.

(** A plain object used as a dictionary ([{ [key: string]: V }]).
    Own keys are enumerated with the array indices first, in ascending
    numeric order, and then the other strings in the order they were
    created. *)
Module JsObject.

Definition t (V : Type) : Type := list (string * V).

Definition digit_of (c : ascii) : option N :=
  let n := N_of_ascii c in
  if ((48 <=? n) && (n <=? 57))%N then Some (n - 48)%N else None.

Fixpoint parse_digits (acc : N) (s : string) : option N :=
  match s with
  | EmptyString => Some acc
  | String c rest =>
      match digit_of c with
      | Some d => parse_digits (acc * 10 + d)%N rest
      | None => None
      end
  end.

(** A canonical numeric string below 2^32 - 1. *)
Definition array_index (k : string) : option N :=
  match k with
  | EmptyString => None
  | String c rest =>
      if Ascii.eqb c "0"%char
      then match rest with EmptyString => Some 0%N | _ => None end
      else match parse_digits 0 k with
           | Some n => if (n <=? 4294967294)%N then Some n else None
           | None => None
           end
  end.

Definition empty {V : Type} : t V := [].

Definition has {V : Type} (k : string) (o : t V) : bool := JsMap.has k o.

Fixpoint insert_index {V : Type} (n : N) (k : string) (v : V) (o : t V) : t V :=
  match o with
  | [] => [(k, v)]
  | (k', v') :: rest =>
      match array_index k' with
      | Some n' =>
          if (n <? n')%N then (k, v) :: o else (k', v') :: insert_index n k v rest
      | None => (k, v) :: o
      end
  end.

(** [o[k] = v]. The name [__proto__] is an accessor that every plain
    object inherits: assigning to it gives [o] no property of its own. *)
Definition set {V : Type} (k : string) (v : V) (o : t V) : t V :=
  if String.eqb k "__proto__" then o
  else if has k o then JsMap.replace k v o
  else match array_index k with
       | Some n => insert_index n k v o
       | None => o ++ [(k, v)]
       end.

(** [delete o[k]] *)
Definition delete {V : Type} (k : string) (o : t V) : t V := JsMap.delete k o.

(** [Object.keys(o)] *)
Definition keys {V : Type} (o : t V) : list string := map fst o.

(** [Object.entries(o)] *)
Definition entries {V : Type} (o : t V) : list (string * V) := o.

End JsObject.

(** ** Hook functions and hook chains (AgentBase.ts, ReActAgentBase.ts) *)

Inductive AgentHookTypes : Type :=
| pre_reply | post_reply
| pre_print | post_print
| pre_observe | post_observe
| pre_reasoning | post_reasoning
| pre_acting | post_acting.

#[global] Instance AgentHookTypes_eq_dec : EqDecision AgentHookTypes.
Proof. solve_decision. Defined.

(** The hook type as the string it is. *)
Definition hook_type_name (t : AgentHookTypes) : string :=
  match t with
  | pre_reply => "pre_reply" | post_reply => "post_reply"
  | pre_print => "pre_print" | post_print => "post_print"
  | pre_observe => "pre_observe" | post_observe => "post_observe"
  | pre_reasoning => "pre_reasoning" | post_reasoning => "post_reasoning"
  | pre_acting => "pre_acting" | post_acting => "post_acting"
  end.

(** What calling a hook can do: throw, return [null] or [undefined], or
    return a value. *)
Inductive HookResult (X : Type) : Type :=
| HookThrows (e : JsError)
| HookNull
| HookUndefined
| HookReturns (x : X).
Arguments HookThrows {X} e.
Arguments HookNull {X}.
Arguments HookUndefined {X}.
Arguments HookReturns {X} x.

(** One JavaScript function, called as [hook(agent, kwargs)] in a pre
    chain and as [hook(agent, kwargs, output)] in a post chain. *)
Record HookFunction (Args Out : Type) : Type := mkHook {
  call_pre : Args -> HookResult Args;
  call_post : Args -> Out -> HookResult Out
}.
Arguments mkHook {Args Out} call_pre call_post.
Arguments call_pre {Args Out} h args.
Arguments call_post {Args Out} h args output.

Inductive HookScope : Type := ClassScope | InstanceScope.

(** One executed hook: its scope, its name, and the value it was given. *)
Record HookRun (X : Type) : Type := mkHookRun {
  run_scope : HookScope;
  run_name : string;
  run_input : X
}.
Arguments mkHookRun {X} run_scope run_name run_input.
Arguments run_scope {X} h.
Arguments run_name {X} h.
Arguments run_input {X} h.

Section HookChains.
Context {Args Out : Type}.

(** [try { result = await hook(this, currentArgs); if (result) currentArgs = result } catch { log }] *)
Fixpoint run_pre_hooks (scope : HookScope)
    (hooks : list (string * HookFunction Args Out)) (currentArgs : Args)
    : Args * list (HookRun Args) :=
  match hooks with
  | [] => (currentArgs, [])
  | (hookName, hook) :: rest =>
      let next :=
        match call_pre hook currentArgs with
        | HookReturns result => result
        | _ => currentArgs
        end in
      let '(final, log) := run_pre_hooks scope rest next in
      (final, mkHookRun scope hookName currentArgs :: log)
  end.

(** The post loops of AgentBase and of the reasoning chain: a returned
    value replaces the output, [null], [undefined] and a throw keep it. *)
Fixpoint run_post_hooks (scope : HookScope)
    (hooks : list (string * HookFunction Args Out)) (args : Args) (currentOutput : Out)
    : Out * list (HookRun Out) :=
  match hooks with
  | [] => (currentOutput, [])
  | (hookName, hook) :: rest =>
      let next :=
        match call_post hook args currentOutput with
        | HookReturns result => result
        | _ => currentOutput
        end in
      let '(final, log) := run_post_hooks scope rest args next in
      (final, mkHookRun scope hookName currentOutput :: log)
  end.

(** *** AgentBase: hooks kept in plain objects *)

Definition HookStorage : Type := JsObject.t (HookFunction Args Out).

Record AgentBaseHooks : Type := mkAgentBaseHooks {
  (** [private static classHooks: Map<string, Map<AgentHookTypes, HookStorage>>] *)
  classHooks : JsMap.t string (JsMap.t AgentHookTypes HookStorage);
  (** [private instanceHooks: Map<AgentHookTypes, HookStorage>] *)
  instanceHooks : JsMap.t AgentHookTypes HookStorage
}.

Definition AgentBase_supportedHookTypes : list AgentHookTypes :=
  [pre_reply; post_reply; pre_print; post_print; pre_observe; post_observe].

Definition ReActAgentBase_supportedHookTypes : list AgentHookTypes :=
  [pre_reply; post_reply; pre_print; post_print; pre_observe; post_observe;
   pre_reasoning; post_reasoning; pre_acting; post_acting].

(** The constructor's loop over [AgentBase.supportedHookTypes]. *)
Definition AgentBase_new_instanceHooks : JsMap.t AgentHookTypes HookStorage :=
  fold_left (fun m hookType => JsMap.set hookType JsObject.empty m)
    AgentBase_supportedHookTypes JsMap.empty.

Definition registerInstanceHook (hookType : AgentHookTypes) (hookName : string)
    (hook : HookFunction Args Out) (h : AgentBaseHooks) : Result AgentBaseHooks :=
  if bool_decide (hookType ∈ AgentBase_supportedHookTypes) then
    match JsMap.get hookType (instanceHooks h) with
    | Some hooks =>
        Ok (mkAgentBaseHooks (classHooks h)
              (JsMap.set hookType (JsObject.set hookName hook hooks) (instanceHooks h)))
    | None =>
        Throw (new_TypeError
                 ("Cannot set properties of undefined (setting '" +:+ hookName +:+ "')"))
    end
  else Throw (new_Error ("不支持的Hook类型: " +:+ hook_type_name hookType)).

(** [supported] is the [supportedHookTypes] of the class the static
    method is called on. *)
Definition registerClassHook (supported : list AgentHookTypes) (className : string)
    (hookType : AgentHookTypes) (hookName : string)
    (hook : HookFunction Args Out) (h : AgentBaseHooks) : Result AgentBaseHooks :=
  if bool_decide (hookType ∈ supported) then
    let classHookMap := default JsMap.empty (JsMap.get className (classHooks h)) in
    let hooks := default JsObject.empty (JsMap.get hookType classHookMap) in
    Ok (mkAgentBaseHooks
          (JsMap.set className
             (JsMap.set hookType (JsObject.set hookName hook hooks) classHookMap)
             (classHooks h))
          (instanceHooks h))
  else Throw (new_Error ("不支持的Hook类型: " +:+ hook_type_name hookType)).

(** [hooks[hookName]] is truthy for a hook of the storage's own and for
    what a plain object inherits; [delete] removes own properties only. *)
Definition removeInstanceHook (hookType : AgentHookTypes) (hookName : string)
    (h : AgentBaseHooks) : Result AgentBaseHooks :=
  let notFound :=
    new_Error ("Hook '" +:+ hookName +:+ "' 在 '" +:+ hook_type_name hookType +:+ "' 中未找到") in
  match JsMap.get hookType (instanceHooks h) with
  | Some hooks =>
      if JsObject.has hookName hooks || inherited hookName then
        Ok (mkAgentBaseHooks (classHooks h)
              (JsMap.set hookType (JsObject.delete hookName hooks) (instanceHooks h)))
      else Throw notFound
  | None => Throw notFound
  end.

(** [clearInstanceHooks(hookType?)] *)
Definition clearInstanceHooks (hookType : option AgentHookTypes) (h : AgentBaseHooks)
    : AgentBaseHooks :=
  match hookType with
  | Some t =>
      match JsMap.get t (instanceHooks h) with
      | Some _ => mkAgentBaseHooks (classHooks h) (JsMap.set t JsObject.empty (instanceHooks h))
      | None => h
      end
  | None =>
      mkAgentBaseHooks (classHooks h)
        (map (fun entry => (fst entry, JsObject.empty)) (instanceHooks h))
  end.

Definition class_hooks_for (className : string) (hookType : AgentHookTypes)
    (h : AgentBaseHooks) : list (string * HookFunction Args Out) :=
  match JsMap.get className (classHooks h) with
  | Some classHookMap =>
      match JsMap.get hookType classHookMap with
      | Some hooks => JsObject.entries hooks
      | None => []
      end
  | None => []
  end.

Definition instance_hooks_for (hookType : AgentHookTypes)
    (h : AgentBaseHooks) : list (string * HookFunction Args Out) :=
  match JsMap.get hookType (instanceHooks h) with
  | Some hooks => JsObject.entries hooks
  | None => []
  end.

(** [className] is [this.constructor.name]. *)
Definition applyPreHooks (className : string) (h : AgentBaseHooks)
    (hookType : AgentHookTypes) (args : Args) : Args * list (HookRun Args) :=
  let currentArgs := args in
  let '(currentArgs, classLog) :=
    run_pre_hooks ClassScope (class_hooks_for className hookType h) currentArgs in
  let '(currentArgs, instanceLog) :=
    run_pre_hooks InstanceScope (instance_hooks_for hookType h) currentArgs in
  (currentArgs, classLog ++ instanceLog).

Definition applyPostHooks (className : string) (h : AgentBaseHooks)
    (hookType : AgentHookTypes) (args : Args) (output : Out) : Out * list (HookRun Out) :=
  let currentOutput := output in
  let '(currentOutput, classLog) :=
    run_post_hooks ClassScope (class_hooks_for className hookType h) args currentOutput in
  let '(currentOutput, instanceLog) :=
    run_post_hooks InstanceScope (instance_hooks_for hookType h) args currentOutput in
  (currentOutput, classLog ++ instanceLog).

(** *** ReActAgentBase: hooks kept in Maps, one per step, shared by the
    pre and the post chain of that step *)

Record StepHooks : Type := mkStepHooks {
  (** [private static class...Hooks: Map<string, Map<string, HookFunction>>] *)
  classStepHooks : JsMap.t string (JsMap.t string (HookFunction Args Out));
  (** [private instance...Hooks: Map<string, HookFunction>] *)
  instanceStepHooks : JsMap.t string (HookFunction Args Out)
}.

Definition no_step_hooks : StepHooks := mkStepHooks JsMap.empty JsMap.empty.

(** [registerInstanceReasoningHook], [registerInstanceActingHook] *)
Definition registerInstanceStepHook (hookName : string) (hook : HookFunction Args Out)
    (h : StepHooks) : StepHooks :=
  mkStepHooks (classStepHooks h) (JsMap.set hookName hook (instanceStepHooks h)).

(** [registerClassReasoningHook], [registerClassActingHook] *)
Definition registerClassStepHook (className hookName : string)
    (hook : HookFunction Args Out) (h : StepHooks) : StepHooks :=
  let classStep := default JsMap.empty (JsMap.get className (classStepHooks h)) in
  mkStepHooks (JsMap.set className (JsMap.set hookName hook classStep) (classStepHooks h))
    (instanceStepHooks h).

(** [removeInstanceReasoningHook], [removeInstanceActingHook]; [kind]
    is the word the error message begins with. *)
Definition removeInstanceStepHook (kind hookName : string) (h : StepHooks) : Result StepHooks :=
  if JsMap.has hookName (instanceStepHooks h) then
    Ok (mkStepHooks (classStepHooks h) (JsMap.delete hookName (instanceStepHooks h)))
  else Throw (new_Error (kind +:+ " '" +:+ hookName +:+ "' 未找到")).

(** [clearInstanceReasoningHooks], [clearInstanceActingHooks] *)
Definition clearInstanceStepHooks (h : StepHooks) : StepHooks :=
  mkStepHooks (classStepHooks h) JsMap.empty.

Definition class_step_hooks_for (className : string) (h : StepHooks)
    : list (string * HookFunction Args Out) :=
  match JsMap.get className (classStepHooks h) with
  | Some hooks => JsMap.entries hooks
  | None => []
  end.

(** [applyPreReasoningHooks], [applyPreActingHooks] *)
Definition applyPreStepHooks (className : string) (h : StepHooks) (args : Args)
    : Args * list (HookRun Args) :=
  let currentArgs := args in
  let '(currentArgs, classLog) :=
    run_pre_hooks ClassScope (class_step_hooks_for className h) currentArgs in
  let '(currentArgs, instanceLog) :=
    run_pre_hooks InstanceScope (JsMap.entries (instanceStepHooks h)) currentArgs in
  (currentArgs, classLog ++ instanceLog).

(** [applyPostReasoningHooks] *)
Definition applyPostReasoningHooks (className : string) (h : StepHooks) (args : Args)
    (output : Out) : Out * list (HookRun Out) :=
  let currentOutput := output in
  let '(currentOutput, classLog) :=
    run_post_hooks ClassScope (class_step_hooks_for className h) args currentOutput in
  let '(currentOutput, instanceLog) :=
    run_post_hooks InstanceScope (JsMap.entries (instanceStepHooks h)) args currentOutput in
  (currentOutput, classLog ++ instanceLog).

End HookChains.

Arguments HookStorage : clear implicits.
Arguments AgentBaseHooks : clear implicits.
Arguments StepHooks : clear implicits.

Section ActingPostChain.
Context {Args M : Type}.

(** The post loop of the acting chain, whose output is [IMessage | null]:
    [if (result !== undefined) currentOutput = result], so a returned
    [null] replaces the output. *)
Fixpoint run_post_acting_hooks (scope : HookScope)
    (hooks : list (string * HookFunction Args (option M))) (args : Args)
    (currentOutput : option M) : option M * list (HookRun (option M)) :=
  match hooks with
  | [] => (currentOutput, [])
  | (hookName, hook) :: rest =>
      let next :=
        match call_post hook args currentOutput with
        | HookReturns result => result
        | HookNull => None
        | _ => currentOutput
        end in
      let '(final, log) := run_post_acting_hooks scope rest args next in
      (final, mkHookRun scope hookName currentOutput :: log)
  end.

Definition applyPostActingHooks (className : string) (h : StepHooks Args (option M))
    (args : Args) (output : option M) : option M * list (HookRun (option M)) :=
  let currentOutput := output in
  let '(currentOutput, classLog) :=
    run_post_acting_hooks ClassScope (class_step_hooks_for className h) args currentOutput in
  let '(currentOutput, instanceLog) :=
    run_post_acting_hooks InstanceScope (JsMap.entries (instanceStepHooks h)) args currentOutput in
  (currentOutput, classLog ++ instanceLog).

End ActingPostChain.

(** ** Toolkit.ts *)

(** A structured-output contract (a Zod schema): [parse] returns the
    parsed data or throws. *)
Record StructuredModel : Type := mkStructuredModel {
  parse : jsval -> Result jsval
}.

Record ToolParameterSchema : Type := mkToolParameterSchema {
  schema_type : string;
  (** [properties?: Record<string, ToolParameterSchema>], the property
      schemas kept as values *)
  properties : option (JsObject.t jsval);
  required : option (list string)
}.

Record ToolSchema : Type := mkToolSchema {
  ts_name : string;
  ts_description : string;
  ts_parameters : ToolParameterSchema
}.

(** What calling a tool implementation with positional arguments does:
    it throws, returns one response, or returns a generator that yields
    [chunks] and then completes or throws. *)
Inductive ToolOutcome : Type :=
| ToolThrows (e : JsError)
| ToolReturns (r : ToolResponse)
| ToolGenerator (chunks : list ToolResponse) (fail : option JsError).

(** The tool implementations a toolkit can hold: the two methods the
    agent binds to itself, and functions from outside. [func_params] are
    the parameter names read off [func.toString()]. *)
Inductive ToolFunction : Type :=
| generateResponse_bound
| createResetToolsWrapper_bound
| ExternalTool (func_name : string) (func_params : list string)
    (func_description : option string) (body : list jsval -> ToolOutcome).

(** [func.bind(thisArg)]: the bound function calls [func]; its name
    begins with [bound], it prints as native code, so that no parameter
    name can be read off it, and it has none of the properties that were
    set on [func]. The agent's own methods are held bound already. *)
Definition Function_bind (f : ToolFunction) : ToolFunction :=
  match f with
  | ExternalTool n _ _ body => ExternalTool ("bound " +:+ n) [] None body
  | bound => bound
  end.

(** The generator objects [callToolFunction] hands back; the bodies of the
    agent's own generators run when the generator is drained. *)
Inductive AsyncGenerator : Type :=
| GenChunks (chunks : list ToolResponse) (fail : option JsError)
| GenGenerateResponse (args : list jsval)
| GenResetTools (args : list jsval).

Record ToolFunctionMetadata : Type := mkToolFunctionMetadata {
  tool_name : string;
  func : ToolFunction;
  description : string;
  parameters : ToolParameterSchema;
  extendedModel : option StructuredModel
}.

Record Toolkit : Type := mkToolkit {
  (** [private tools: Map<string, ToolFunctionMetadata>] *)
  tools : gmap string ToolFunctionMetadata;
  (** [private equippedTools: Set<string>] *)
  equippedTools : JsSet.t
}.

Module ToolkitOps.

(** [new Toolkit()] *)
Definition new_Toolkit : Toolkit := mkToolkit ∅ [].

(** [func.name] *)
Definition name_of_func (f : ToolFunction) : string :=
  match f with
  | generateResponse_bound => "bound generateResponse"
  | createResetToolsWrapper_bound => "bound createResetToolsWrapper"
  | ExternalTool n _ _ _ => n
  end.

(** The names the signature regex yields; a bound function prints as
    native code with an empty parameter list. *)
Definition params_of_func (f : ToolFunction) : list string :=
  match f with
  | ExternalTool _ ps _ _ => ps
  | _ => []
  end.

Definition description_of_func (f : ToolFunction) : option string :=
  match f with
  | ExternalTool _ _ d _ => d
  | _ => None
  end.

Definition nonempty (s : string) : bool := negb (String.eqb s "").

Definition extractFunctionMetadata (f : ToolFunction) (name : string) : ToolFunctionMetadata :=
  let description :=
    match description_of_func f with
    | Some d => if nonempty d then d else "工具函数: " +:+ name
    | None => "工具函数: " +:+ name
    end in
  let props :=
    fold_left
      (fun (acc : JsObject.t jsval) param =>
         if nonempty param && negb (String.eqb param "...args")
         then JsObject.set param
                (JsObj [("type", JsStr "string"); ("description", JsStr ("参数 " +:+ param))]) acc
         else acc)
      (params_of_func f) JsObject.empty in
  mkToolFunctionMetadata name f description
    (mkToolParameterSchema "object" (Some props) (Some [])) None.

Definition registerToolFunction (f : ToolFunction) (name : option string) (tk : Toolkit) : Toolkit :=
  let functionName :=
    match name with
    | Some n => if nonempty n then n
                else if nonempty (name_of_func f) then name_of_func f else "unknown_tool"
    | None => if nonempty (name_of_func f) then name_of_func f else "unknown_tool"
    end in
  let metadata := extractFunctionMetadata f functionName in
  mkToolkit (<[functionName := metadata]> (tools tk)) (JsSet.add functionName (equippedTools tk)).

Definition registerToolWithMetadata (f : ToolFunction) (name description : string)
    (params : ToolParameterSchema) (tk : Toolkit) : Toolkit :=
  let metadata := mkToolFunctionMetadata name f description params None in
  mkToolkit (<[name := metadata]> (tools tk)) (JsSet.add name (equippedTools tk)).

Definition getJsonSchemas (tk : Toolkit) : list ToolSchema :=
  omap (fun toolName =>
          match tools tk !! toolName with
          | Some tool => Some (mkToolSchema (tool_name tool) (description tool) (parameters tool))
          | None => None
          end)
       (equippedTools tk).

Definition createErrorGenerator (errorMessage : string) : AsyncGenerator :=
  GenChunks [createErrorResponse errorMessage] None.

Definition wrapInAsyncGenerator (response : ToolResponse) : AsyncGenerator :=
  GenChunks [response] None.

Fixpoint validate_required (input : JsRecord) (reqs : list string) : Result JsRecord :=
  match reqs with
  | [] => Ok input
  | r :: rest =>
      if negb (js_in r input)
      then Throw (new_Error ("缺少必需参数: " +:+ r))
      else validate_required input rest
  end.

Definition validateInput (input : JsRecord) (schema : ToolParameterSchema) : Result JsRecord :=
  match required schema with
  | Some reqs => validate_required input reqs
  | None => Ok input
  end.

(** What [await func(...args)] gives: a generator, or some other value. *)
Inductive ToolCallResult : Type :=
| ResGenerator (g : AsyncGenerator)
| ResValue (r : ToolResponse).

Definition apply_func (f : ToolFunction) (args : list jsval) : Result ToolCallResult :=
  match f with
  | generateResponse_bound => Ok (ResGenerator (GenGenerateResponse args))
  | createResetToolsWrapper_bound => Ok (ResGenerator (GenResetTools args))
  | ExternalTool _ _ _ body =>
      match body args with
      | ToolThrows e => Throw e
      | ToolReturns r => Ok (ResValue r)
      | ToolGenerator chunks fail => Ok (ResGenerator (GenChunks chunks fail))
      end
  end.

(** The loop of [callToolFunctionWithArgs] that builds the positional
    arguments from the order of the schema's properties. *)
Fixpoint build_args (paramNames : list string) (input : JsRecord)
    (params : ToolParameterSchema) : Result (list jsval) :=
  match paramNames with
  | [] => Ok []
  | paramName :: rest =>
      if js_in paramName input then
        match build_args rest input params with
        | Ok args => Ok (js_get paramName input :: args)
        | Throw e => Throw e
        end
      else if bool_decide (paramName ∈ default [] (required params))
      then Throw (new_Error ("缺少必需参数: " +:+ paramName))
      else match build_args rest input params with
           | Ok args => Ok (JsUndefined :: args)
           | Throw e => Throw e
           end
  end.

Definition callToolFunctionWithArgs (f : ToolFunction) (input : JsRecord)
    (params : ToolParameterSchema) : Result ToolCallResult :=
  let paramNames := JsObject.keys (default JsObject.empty (properties params)) in
  match build_args paramNames input params with
  | Ok args => apply_func f args
  | Throw e => Throw e
  end.

Definition callToolFunction (toolCall : ToolUseBlock) (tk : Toolkit) : AsyncGenerator :=
  let name := tu_name toolCall in
  let input := tu_input toolCall in
  if negb (JsSet.has name (equippedTools tk)) then
    createErrorGenerator ("工具 '" +:+ name +:+ "' 未装备或不存在")
  else
    match tools tk !! name with
    | None => createErrorGenerator ("工具 '" +:+ name +:+ "' 未找到")
    | Some tool =>
        let attempt :=
          match validateInput input (parameters tool) with
          | Ok validatedInput =>
              callToolFunctionWithArgs (func tool) validatedInput (parameters tool)
          | Throw e => Throw e
          end in
        match attempt with
        | Ok (ResGenerator g) => g
        | Ok (ResValue r) => wrapInAsyncGenerator r
        | Throw e => createErrorGenerator ("工具函数执行失败: " +:+ String_of_error e)
        end
    end.

(** The toolkit after the call is returned whether or not it throws. *)
Definition resetEquippedTools (toolNames : list string) (tk : Toolkit) : Result unit * Toolkit :=
  let invalidTools :=
    List.filter (fun name => negb (bool_decide (is_Some (tools tk !! name)))) toolNames in
  if (0 <? length invalidTools)%nat then
    (Throw (new_Error ("以下工具不存在: " +:+ join ", " invalidTools)), tk)
  else
    (Ok tt,
     mkToolkit (tools tk)
       (fold_left (fun s name => JsSet.add name s) toolNames (JsSet.clear (equippedTools tk)))).

Definition set_extendedModel (model : StructuredModel) (tool : ToolFunctionMetadata)
    : ToolFunctionMetadata :=
  mkToolFunctionMetadata (tool_name tool) (func tool) (description tool) (parameters tool)
    (Some model).

Definition setExtendedModel (toolName : string) (model : StructuredModel) (tk : Toolkit) : Toolkit :=
  mkToolkit (alter (set_extendedModel model) toolName (tools tk)) (equippedTools tk).

Definition getEquippedTools (tk : Toolkit) : list string := equippedTools tk.

Definition hasToolFunction (name : string) (tk : Toolkit) : bool :=
  bool_decide (is_Some (tools tk !! name)).

Definition removeToolFunction (name : string) (tk : Toolkit) : bool * Toolkit :=
  if hasToolFunction name tk then
    (true, mkToolkit (delete name (tools tk)) (JsSet.delete name (equippedTools tk)))
  else (false, tk).

Definition clear (tk : Toolkit) : Toolkit :=
  mkToolkit ∅ (JsSet.clear (equippedTools tk)).

End ToolkitOps.

(** ** The model gateway and the other collaborators of the agent *)

Record StreamChunk : Type := mkStreamChunk {
  chunk_content : list ContentBlock;
  chunk_is_last : bool
}.

(** What [await model.call(...)] gives: the call throws, or it returns a
    complete response, or a stream that yields [chunks] and then ends or
    throws. *)
Inductive ModelOutcome : Type :=
| ModelThrows (e : JsError)
| ModelResponse (response_content : list ContentBlock)
| ModelStream (chunks : list StreamChunk) (fail : option JsError).

(** [IFormatter.format] returns [string | IMessage[]]. *)
Inductive Formatted : Type :=
| FormattedString (s : string)
| FormattedMessages (msgs : list Message).

Record ILongTermMemory : Type := mkLongTermMemory {
  retrieve : list Message -> string;
  recordToMemory : ToolFunction;
  retrieveFromMemory : ToolFunction
}.

Inductive LongTermMemoryMode : Type := agent_control | static_control | both.

(** A number as a configuration can carry it. *)
Inductive JsNumber : Type := NumInt (z : Z) | NumNaN.

Record AgentConfig : Type := mkAgentConfig {
  cfg_name : string;
  sys_prompt : string;
  cfg_model : nat -> Formatted -> option (list ToolSchema) -> ModelOutcome;
  cfg_formatter : list Message -> Formatted;
  cfg_toolkit : option Toolkit;
  cfg_memory : option (list Message);
  long_term_memory : option ILongTermMemory;
  long_term_memory_mode : option LongTermMemoryMode;
  enable_meta_tool : option bool;
  parallel_tool_calls : option bool;
  max_iters : option JsNumber
}.

(** The parts of a ReActAgent that a [reply] call does not change. The
    model is an oracle: its answer may depend on how many calls came
    before, on the messages and on the tool schemas. *)
Record Agent : Type := mkAgent {
  name : string;
  className : string;
  finishFunctionName : string;
  sysPrompt : string;
  maxIters : Z;
  model : nat -> Formatted -> option (list ToolSchema) -> ModelOutcome;
  formatter : list Message -> Formatted;
  longTermMemory : option ILongTermMemory;
  longTermMemoryMode : LongTermMemoryMode;
  enableMetaTool : bool;
  parallelToolCalls : bool;
  staticControl : bool;
  agentControl : bool;
  reasoningHooks : StepHooks (list jsval) Message;
  actingHooks : StepHooks ToolUseBlock (option Message)
}.

(** What can be observed of a run, in order. *)
Inductive Event : Type :=
| EvIteration (round : Z)
| EvModelCall (index : nat) (messages : Formatted) (schemas : option (list ToolSchema))
| EvToolCall (toolCall : ToolUseBlock)
| EvPrint (msg : Message) (last : bool)
| EvRetrieve (msgs : list Message)
| EvRecord (msgs : list Message).

(** The parts of a ReActAgent that a [reply] call reads and writes, and
    the record of what happened. *)
Record State : Type := mkState {
  toolkit : Toolkit;
  memory : list Message;
  requiredStructuredModel : option StructuredModel;
  model_calls : nat;
  next_uuid : nat;
  trace : list Event
}.

(** ** The monad of agent code: state, and exceptions that keep the state *)

Definition M (A : Type) : Type := State -> Result A * State.

Definition ret {A : Type} (a : A) : M A := fun s => (Ok a, s).

Definition raise {A : Type} (e : JsError) : M A := fun s => (Throw e, s).

Definition bind {A B : Type} (m : M A) (k : A -> M B) : M B :=
  fun s =>
    match m s with
    | (Ok a, s') => k a s'
    | (Throw e, s') => (Throw e, s')
    end.

Declare Scope agent_scope.
Delimit Scope agent_scope with agent.
Notation "x <- m ;; k" := (bind m (fun x => k))
  (at level 100, m at next level, right associativity) : agent_scope.
Notation "m ;;; k" := (bind m (fun _ => k))
  (at level 100, right associativity) : agent_scope.

Local Open Scope agent_scope.

Definition gets {A : Type} (f : State -> A) : M A := fun s => (Ok (f s), s).

Definition modify (f : State -> State) : M unit := fun s => (Ok tt, f s).

Definition set_toolkit (tk : Toolkit) (s : State) : State :=
  mkState tk (memory s) (requiredStructuredModel s) (model_calls s) (next_uuid s) (trace s).

Definition set_memory (mem : list Message) (s : State) : State :=
  mkState (toolkit s) mem (requiredStructuredModel s) (model_calls s) (next_uuid s) (trace s).

Definition set_requiredStructuredModel (sm : option StructuredModel) (s : State) : State :=
  mkState (toolkit s) (memory s) sm (model_calls s) (next_uuid s) (trace s).

Definition set_model_calls (n : nat) (s : State) : State :=
  mkState (toolkit s) (memory s) (requiredStructuredModel s) n (next_uuid s) (trace s).

Definition set_next_uuid (n : nat) (s : State) : State :=
  mkState (toolkit s) (memory s) (requiredStructuredModel s) (model_calls s) n (trace s).

Definition set_trace (t : list Event) (s : State) : State :=
  mkState (toolkit s) (memory s) (requiredStructuredModel s) (model_calls s) (next_uuid s) t.

(** [emit] appends to the record of what happened. *)
Definition emit (e : Event) : M unit :=
  modify (fun s => set_trace (trace s ++ [e]) s).

(** [await this.memory.add(msgs)] of InMemoryMemory *)
Definition memory_add (msgs : list Message) : M unit :=
  modify (fun s => set_memory (memory s ++ msgs) s).

(** [await this.memory.getMemory()] *)
Definition getMemory : M (list Message) := gets memory.

(** [await this.print(msg, last)]: the presentation sink only receives. *)
Definition print (msg : Message) (last : bool) : M unit := emit (EvPrint msg last).

(** Run the computations of a list in order and collect their results. *)
Fixpoint sequence {A : Type} (ms : list (M A)) : M (list A) :=
  match ms with
  | [] => ret []
  | m :: rest =>
      a <- m ;;
      others <- sequence rest ;;
      ret (a :: others)
  end.

(** ** Calls of async functions that run side by side

    A call of an async function hands back a promise; the runtime runs
    the call one stretch of code between two [await]s at a time, and
    between two stretches of one call it may run stretches of the other
    calls that are under way. A call that is [Suspended] goes on as
    [continue_as s] and changes the state to [effect s] when it is
    resumed in state [s]. *)
Inductive Task (A : Type) : Type :=
| Settled (outcome : Result A)
| Suspended (continue_as : State -> Task A) (effect : State -> State).
Arguments Settled {A} outcome.
Arguments Suspended {A} continue_as effect.

(** A stretch of code that runs without an [await] in it. *)
Definition stretch {A : Type} (m : M A) : Task A :=
  Suspended (fun s => Settled (fst (m s))) (fun s => snd (m s)).

(** [x = await t; k x]: a rejection of [t] is thrown on. *)
Fixpoint and_then {A B : Type} (t : Task A) (k : A -> Task B) : Task B :=
  match t with
  | Settled (Ok a) => k a
  | Settled (Throw e) => Settled (Throw e)
  | Suspended continue_as effect => Suspended (fun s => and_then (continue_as s) k) effect
  end.

Notation "x <~ t ;; k" := (and_then t (fun x => k))
  (at level 100, t at next level, right associativity) : agent_scope.
Notation "t ~;; k" := (and_then t (fun _ => k))
  (at level 100, right associativity) : agent_scope.

(** The call run to its end with nothing in between. *)
Fixpoint run_to_end {A : Type} (t : Task A) (s : State) : Result A * State :=
  match t with
  | Settled outcome => (outcome, s)
  | Suspended continue_as effect => run_to_end (continue_as s) (effect s)
  end.

(** The rejection that came first. *)
Definition first_rejection (rejected newly : option JsError) : option JsError :=
  match rejected with
  | Some e => Some e
  | None => newly
  end.

Definition rejection_of {A : Type} (t : Task A) : option JsError :=
  match t with
  | Settled (Throw e) => Some e
  | _ => None
  end.

(** The runtime resumes the call at [index] for one stretch; nothing
    happens if there is no such call or it is settled. The second
    component tells whether the call was rejected in that stretch. *)
Definition resume {A : Type} (index : nat) (tasks : list (Task A)) (s : State)
    : list (Task A) * option JsError * State :=
  match tasks !! index with
  | Some (Suspended continue_as effect) =>
      (<[index := continue_as s]> tasks, rejection_of (continue_as s), effect s)
  | _ => (tasks, None, s)
  end.

(** The runtime resumes the calls in the order [order]. *)
Fixpoint run_stretches {A : Type} (order : list nat) (tasks : list (Task A))
    (rejected : option JsError) (s : State) : list (Task A) * option JsError * State :=
  match order with
  | [] => (tasks, rejected, s)
  | index :: rest =>
      let '(tasks, newly, s) := resume index tasks s in
      run_stretches rest tasks (first_rejection rejected newly) s
  end.

(** The calls still under way are run to their ends, one after the
    other. *)
Fixpoint settle_all {A : Type} (tasks : list (Task A)) (rejected : option JsError) (s : State)
    : list (Result A) * option JsError * State :=
  match tasks with
  | [] => ([], rejected, s)
  | t :: rest =>
      let '(outcome, s) := run_to_end t s in
      let newly :=
        match t, outcome with
        | Suspended _ _, Throw e => Some e
        | _, _ => None
        end in
      let '(outcomes, rejected, s) := settle_all rest (first_rejection rejected newly) s in
      (outcome :: outcomes, rejected, s)
  end.

(** The rejection of the first call that is rejected from the start. *)
Fixpoint rejected_already {A : Type} (tasks : list (Task A)) : option JsError :=
  match tasks with
  | [] => None
  | Settled (Throw e) :: _ => Some e
  | _ :: rest => rejected_already rest
  end.

(** Calls that were started together, run until all are settled: how
    each was settled, by position, the rejection that came first, and
    the state they leave. The runtime resumes them in the order [order];
    when it has gone through [order] it runs every call that is still
    under way to its end. *)
Definition run_tasks {A : Type} (order : list nat) (tasks : list (Task A)) (s : State)
    : list (Result A) * option JsError * State :=
  let '(tasks, rejected, s) := run_stretches order tasks (rejected_already tasks) s in
  settle_all tasks rejected s.

(** The values of the calls by position, or the rejection of the first
    position that was rejected. *)
Fixpoint gather {A : Type} (outcomes : list (Result A)) : Result (list A) :=
  match outcomes with
  | [] => Ok []
  | Ok a :: rest =>
      match gather rest with
      | Ok others => Ok (a :: others)
      | Throw e => Throw e
      end
  | Throw e :: _ => Throw e
  end.

(** What the JavaScript runtime supplies: fresh identifiers,
    [JSON.stringify] on content blocks, and the order in which it
    resumes the calls that are under way together; [task_order s] is the
    order for the calls started in state [s], by their positions. *)
Class Runtime : Type := mkRuntime {
  uuidv4 : nat -> string;
  JSON_stringify : ContentBlock -> string;
  task_order : State -> list nat
}.

(** Falsy values of JavaScript. *)
Definition truthy (v : jsval) : bool :=
  match v with
  | JsUndefined | JsNull => false
  | JsBool b => b
  | JsNum z => negb (z =? 0)
  | JsStr s => negb (String.eqb s "")
  | JsArr _ | JsObj _ | JsNative _ => true
  end.

(** [s.split('-')[0]] *)
Fixpoint before_dash (s : string) : string :=
  match s with
  | EmptyString => EmptyString
  | String c rest => if Ascii.eqb c "-"%char then EmptyString else String c (before_dash rest)
  end.

(** ** ReActAgent.ts *)

Section ReActAgent.
Context `{Runtime}.

(** [generateUuid()] *)
Definition generateUuid : M string :=
  fun s => (Ok (uuidv4 (next_uuid s)), set_next_uuid (S (next_uuid s)) s).

(** [generateShortUuid()] *)
Definition generateShortUuid : M string :=
  id <- generateUuid ;; ret (before_dash id).

(** [await this.model.call(formattedMessages, schemas)] *)
Definition model_call (a : Agent) (formattedMessages : Formatted)
    (schemas : option (list ToolSchema)) : M ModelOutcome :=
  index <- gets model_calls ;;
  modify (set_model_calls (S index)) ;;;
  emit (EvModelCall index formattedMessages schemas) ;;;
  match model a index formattedMessages schemas with
  | ModelThrows e => raise e
  | outcome => ret outcome
  end.

(** The [for await] loop of [reasoning] over the chunks of a stream. *)
Fixpoint reasoning_stream (chunks : list StreamChunk)
    (accumulatedContent : list ContentBlock) (msg : Message) : M Message :=
  match chunks with
  | [] => ret msg
  | chunk :: rest =>
      let accumulatedContent := accumulatedContent ++ chunk_content chunk in
      let msg := setContent (Structured accumulatedContent) msg in
      print msg false ;;;
      reasoning_stream rest accumulatedContent msg
  end.

(** The message [reasoning] builds from what the model returned, before
    it looks for tool calls. *)
Definition reasoning_response (a : Agent) (response : ModelOutcome) : M Message :=
  match response with
  | ModelThrows e => raise e
  | ModelStream chunks fail =>
      id <- generateUuid ;;
      let msg := new_Message id (name a) (Structured []) role_assistant in
      msg <- reasoning_stream chunks [] msg ;;
      match fail with
      | Some e => raise e
      | None => print msg true ;;; ret msg
      end
  | ModelResponse response_content =>
      id <- generateUuid ;;
      let msg := new_Message id (name a) (Structured response_content) role_assistant in
      print msg true ;;;
      ret msg
  end.

Definition reasoning (a : Agent) : M Message :=
  sysId <- generateUuid ;;
  mem <- getMemory ;;
  let messages := MessageFactory.createSystemMessage sysId (sysPrompt a) :: mem in
  let formattedMessages := formatter a messages in
  schemas <- gets (fun s => ToolkitOps.getJsonSchemas (toolkit s)) ;;
  response <- model_call a formattedMessages (Some schemas) ;;
  msg <- reasoning_response a response ;;
  msg <- (if negb (hasContentBlocks "tool_use" msg) then
            let textContent := getTextContent msg in
            id <- generateShortUuid ;;
            ret (setContent
                   (Structured
                      [createToolUseBlock (finishFunctionName a)
                         [("response", JsStr textContent)] id])
                   msg)
          else ret msg) ;;
  memory_add [msg] ;;;
  ret msg.

(** [(block as any).text || JSON.stringify(block)] *)
Definition block_text (block : ContentBlock) : string :=
  match block with
  | Text t => if negb (String.eqb t "") then t else JSON_stringify block
  | _ => JSON_stringify block
  end.

(** The text [acting] makes of one chunk. *)
Definition chunk_text (chunk : ToolResponse) : string :=
  join newline (map block_text (tr_content chunk)).

(** [(toolResultMsg.content[0] as ToolResultBlock).output = output] *)
Definition set_output (output : jsval) (toolResultMsg : Message) : Message :=
  match content toolResultMsg with
  | Structured (ToolResult b :: rest) =>
      setContent (Structured (ToolResult (mkToolResult (tr_id b) (tr_name b) output) :: rest))
        toolResultMsg
  | _ => toolResultMsg
  end.

(** The [for await] loop of [acting] over the chunks of a tool. *)
Fixpoint acting_chunks (a : Agent) (toolCall : ToolUseBlock) (chunks : list ToolResponse)
    (toolResultMsg : Message) (responseMsg : option Message)
    : M (Message * option Message) :=
  match chunks with
  | [] => ret (toolResultMsg, responseMsg)
  | chunk :: rest =>
      let textContent := chunk_text chunk in
      let toolResultMsg := set_output (JsStr textContent) toolResultMsg in
      (if negb (String.eqb (tu_name toolCall) (finishFunctionName a))
          || negb (success_truthy chunk)
       then print toolResultMsg (is_last chunk)
       else ret tt) ;;;
      let responseMsg :=
        if String.eqb (tu_name toolCall) (finishFunctionName a) && success_truthy chunk
        then response_msg (tr_metadata chunk)
        else responseMsg in
      acting_chunks a toolCall rest toolResultMsg responseMsg
  end.

(** A value with the properties of a content block, and no others. *)
Definition block_of_jsval (v : jsval) : option ContentBlock :=
  match v with
  | JsObj props =>
      match alist_get "type" props with
      | Some (JsStr type) =>
          if String.eqb type "text" && (length props =? 2)%nat then
            match alist_get "text" props with
            | Some (JsStr text) => Some (Text text)
            | _ => None
            end
          else if String.eqb type "thinking" && (length props =? 2)%nat then
            match alist_get "thinking" props with
            | Some (JsStr thinking) => Some (Thinking thinking)
            | _ => None
            end
          else if String.eqb type "tool_use" && (length props =? 4)%nat then
            match alist_get "id" props, alist_get "name" props, alist_get "input" props with
            | Some (JsStr id), Some (JsStr name), Some (JsObj input) =>
                Some (ToolUse (mkToolUse id name input))
            | _, _, _ => None
            end
          else if String.eqb type "tool_result" && (length props =? 4)%nat then
            match alist_get "id" props, alist_get "name" props, alist_get "output" props with
            | Some (JsStr id), Some (JsStr name), Some output =>
                Some (ToolResult (mkToolResult id name output))
            | _, _, _ => None
            end
          else None
      | _ => None
      end
  | _ => None
  end.

(** [new Message(this.name, response, 'assistant')] for whatever value the
    argument [response] holds: a string, an array of content blocks, or
    a value that is neither. *)
Definition content_of_jsval (v : jsval) : MessageContent :=
  match v with
  | JsStr s => PlainText s
  | JsArr items =>
      match mapM block_of_jsval items with
      | Some blocks => Structured blocks
      | None => OtherContent v
      end
  | other => OtherContent other
  end.

(** The body of the generator [generateResponse(response, ...kwargs)]. *)
Definition generateResponse (a : Agent) (args : list jsval)
    : M (list ToolResponse * option JsError) :=
  let response := nth 0 args JsUndefined in
  let kwargs := tl args in
  id <- generateUuid ;;
  let responseMsg := new_Message id (name a) (content_of_jsval response) role_assistant in
  required <- gets requiredStructuredModel ;;
  match required with
  | Some structuredModel =>
      let kwargs0 := nth 0 kwargs JsUndefined in
      match parse structuredModel (if truthy kwargs0 then kwargs0 else JsObj []) with
      | Ok structuredData =>
          let responseMsg := setMetadata structuredData responseMsg in
          ret ([new_ToolResponse "成功生成回复。"
                  (mkToolMetadata (Some true) (Some responseMsg) None []) true], None)
      | Throw e =>
          ret ([new_ToolResponse ("参数验证错误: " +:+ String_of_error e)
                  (mkToolMetadata (Some false) None None []) true], None)
      end
  | None =>
      ret ([new_ToolResponse "成功生成回复。"
              (mkToolMetadata (Some true) (Some responseMsg) None []) true], None)
  end.

Definition string_of_jsval (v : jsval) : option string :=
  match v with
  | JsStr s => Some s
  | _ => None
  end.

(** The items of an array. *)
Definition items_of (v : jsval) : list jsval :=
  match v with
  | JsArr items => items
  | _ => []
  end.

(** [name => !this.tools.has(name)] on an item of any kind: only a
    string can be a key of the registry. *)
Definition unregistered (tk : Toolkit) (item : jsval) : bool :=
  match item with
  | JsStr name => negb (bool_decide (is_Some (tools tk !! name)))
  | _ => true
  end.

(** [this.toolkit.resetEquippedTools(toolNames)] for whatever value the
    argument holds: the names of an array of strings are taken as the
    toolkit takes them; an array with another item has an invalid item;
    a value that is no array has no [filter]. *)
Definition resetEquippedTools_with (toolNames : jsval) (tk : Toolkit) : Result unit * Toolkit :=
  match toolNames with
  | JsArr items =>
      match mapM string_of_jsval items with
      | Some names => ToolkitOps.resetEquippedTools names tk
      | None =>
          let invalidTools := List.filter (unregistered tk) items in
          (Throw (new_Error ("以下工具不存在: " +:+ join ", " (map join_item invalidTools))), tk)
      end
  | JsUndefined =>
      (Throw (new_TypeError "Cannot read properties of undefined (reading 'filter')"), tk)
  | JsNull =>
      (Throw (new_TypeError "Cannot read properties of null (reading 'filter')"), tk)
  | _ => (Throw (new_TypeError "toolNames.filter is not a function"), tk)
  end.

(** The body of the generator [createResetToolsWrapper(toolNames)]. *)
Definition createResetToolsWrapper (args : list jsval)
    : M (list ToolResponse * option JsError) :=
  let toolNames := nth 0 args JsUndefined in
  tk <- gets toolkit ;;
  let attempt := resetEquippedTools_with toolNames tk in
  modify (set_toolkit (snd attempt)) ;;;
  match fst attempt with
  | Ok _ =>
      ret ([new_ToolResponse
              ("成功重置工具列表，当前装备工具: " +:+ join ", " (map join_item (items_of toolNames)))
              (mkToolMetadata (Some true) None None [("toolNames", toolNames)]) true], None)
  | Throw e =>
      ret ([new_ToolResponse ("重置工具列表失败: " +:+ String_of_error e)
              (mkToolMetadata (Some false) None (Some (String_of_error e)) []) true], None)
  end.

(** Draining a generator: the chunks it yields and how it ends. *)
Definition drain (a : Agent) (g : AsyncGenerator) : M (list ToolResponse * option JsError) :=
  match g with
  | GenChunks chunks fail => ret (chunks, fail)
  | GenGenerateResponse args => generateResponse a args
  | GenResetTools args => createResetToolsWrapper args
  end.

(** [await this.toolkit.callToolFunction(toolCall)] *)
Definition callToolFunction (toolCall : ToolUseBlock) : M AsyncGenerator :=
  emit (EvToolCall toolCall) ;;;
  gets (fun s => ToolkitOps.callToolFunction toolCall (toolkit s)).

(** [acting] run on its own, from its first stretch to its end. *)
Definition acting (a : Agent) (toolCall : ToolUseBlock) : M (option Message) :=
  id <- generateUuid ;;
  let toolResultMsg :=
    MessageFactory.createToolResultMessage id
      [createToolResultBlock (tu_id toolCall) (tu_name toolCall) (JsArr [])] in
  toolResponseGenerator <- callToolFunction toolCall ;;
  drained <- drain a toolResponseGenerator ;;
  looped <- acting_chunks a toolCall (fst drained) toolResultMsg None ;;
  let responseMsg := snd looped in
  toolResultMsg <-
    match snd drained with
    | Some e =>
        let toolResultMsg :=
          set_output (JsStr ("工具调用失败: " +:+ String_of_error e)) (fst looped) in
        print toolResultMsg true ;;;
        ret toolResultMsg
    | None => ret (fst looped)
    end ;;
  memory_add [toolResultMsg] ;;;
  ret responseMsg.

(** [reasoning] takes no parameters: the arguments the pre hooks settle
    on are passed and ignored. *)
Definition reasoningWithHooks (a : Agent) : M Message :=
  let reasoningArgs : list jsval := [] in
  let modifiedArgs := fst (applyPreStepHooks (className a) (reasoningHooks a) reasoningArgs) in
  result <- reasoning a ;;
  let finalResult :=
    fst (applyPostReasoningHooks (className a) (reasoningHooks a) reasoningArgs result) in
  ret finalResult.

(** [actingWithHooks] run on its own, from its first stretch to its end. *)
Definition actingWithHooks (a : Agent) (toolCall : ToolUseBlock) : M (option Message) :=
  let actingArgs := toolCall in
  let modifiedArgs := fst (applyPreStepHooks (className a) (actingHooks a) actingArgs) in
  result <- acting a modifiedArgs ;;
  let finalResult :=
    fst (applyPostActingHooks (className a) (actingHooks a) actingArgs result) in
  ret finalResult.

Definition summarize_hint : string :=
  "您未能在最大迭代次数内生成回复。现在请直接回复，总结当前情况。".

(** The [for await] loop of [summarizing]. *)
Fixpoint summarizing_stream (chunks : list StreamChunk) (responseMsg : Message) : M Message :=
  match chunks with
  | [] => ret responseMsg
  | chunk :: rest =>
      let responseMsg := setContent (Structured (chunk_content chunk)) responseMsg in
      print responseMsg false ;;;
      summarizing_stream rest responseMsg
  end.

Definition summarizing (a : Agent) : M Message :=
  hintId <- generateUuid ;;
  let hintMsg := MessageFactory.createUserMessage hintId summarize_hint "user" in
  sysId <- generateUuid ;;
  mem <- getMemory ;;
  let messages := MessageFactory.createSystemMessage sysId (sysPrompt a) :: mem ++ [hintMsg] in
  let formattedMessages := formatter a messages in
  response <- model_call a formattedMessages None ;;
  match response with
  | ModelThrows e => raise e
  | ModelStream chunks fail =>
      id <- generateUuid ;;
      let responseMsg := new_Message id (name a) (Structured []) role_assistant in
      responseMsg <- summarizing_stream chunks responseMsg ;;
      match fail with
      | Some e => raise e
      | None => print responseMsg true ;;; ret responseMsg
      end
  | ModelResponse response_content =>
      id <- generateUuid ;;
      let responseMsg := new_Message id (name a) (Structured response_content) role_assistant in
      print responseMsg true ;;;
      ret responseMsg
  end.

(** *** The acting step as [reply] starts it

    [reply] starts the acting steps of a round together and awaits them
    afterwards, so the runtime runs them side by side. [acting_task] is
    [acting] cut into stretches, none of which goes beyond an [await] of
    the source: drawing the identifier of the tool result message, the
    call of the toolkit, the body of the generator, each message shown,
    and the entry in the log. *)
Fixpoint acting_chunks_task (a : Agent) (toolCall : ToolUseBlock) (chunks : list ToolResponse)
    (toolResultMsg : Message) (responseMsg : option Message)
    : Task (Message * option Message) :=
  match chunks with
  | [] => Settled (Ok (toolResultMsg, responseMsg))
  | chunk :: rest =>
      let textContent := chunk_text chunk in
      let toolResultMsg := set_output (JsStr textContent) toolResultMsg in
      (if negb (String.eqb (tu_name toolCall) (finishFunctionName a))
          || negb (success_truthy chunk)
       then stretch (print toolResultMsg (is_last chunk))
       else Settled (Ok tt)) ~;;
      let responseMsg :=
        if String.eqb (tu_name toolCall) (finishFunctionName a) && success_truthy chunk
        then response_msg (tr_metadata chunk)
        else responseMsg in
      acting_chunks_task a toolCall rest toolResultMsg responseMsg
  end.

Definition acting_task (a : Agent) (toolCall : ToolUseBlock) : Task (option Message) :=
  id <~ stretch generateUuid ;;
  let toolResultMsg :=
    MessageFactory.createToolResultMessage id
      [createToolResultBlock (tu_id toolCall) (tu_name toolCall) (JsArr [])] in
  toolResponseGenerator <~ stretch (callToolFunction toolCall) ;;
  drained <~ stretch (drain a toolResponseGenerator) ;;
  looped <~ acting_chunks_task a toolCall (fst drained) toolResultMsg None ;;
  let responseMsg := snd looped in
  toolResultMsg <~
    match snd drained with
    | Some e =>
        let toolResultMsg :=
          set_output (JsStr ("工具调用失败: " +:+ String_of_error e)) (fst looped) in
        stretch (print toolResultMsg true) ~;;
        Settled (Ok toolResultMsg)
    | None => Settled (Ok (fst looped))
    end ;;
  stretch (memory_add [toolResultMsg]) ~;;
  Settled (Ok responseMsg).

Definition actingWithHooks_task (a : Agent) (toolCall : ToolUseBlock) : Task (option Message) :=
  let actingArgs := toolCall in
  let modifiedArgs := fst (applyPreStepHooks (className a) (actingHooks a) actingArgs) in
  result <~ acting_task a modifiedArgs ;;
  let finalResult :=
    fst (applyPostActingHooks (className a) (actingHooks a) actingArgs result) in
  Settled (Ok finalResult).

(** [await Promise.all(promises)] on calls that were started together:
    their values by position, or else the rejection that came first.
    The calls that are under way when one is rejected run on, so the
    state is the one that all of them leave. *)
Definition Promise_all {A : Type} (promises : list (Task A)) : M (list A) :=
  fun s =>
    let '(outcomes, rejected, s') := run_tasks (task_order s) promises s in
    match rejected with
    | Some e => (Throw e, s')
    | None => (gather outcomes, s')
    end.

(** [for (const promise of promises) responses.push(await promise)] on
    calls that were started together: their values by position, or else
    the rejection at the first position that was rejected. *)
Definition await_each {A : Type} (promises : list (Task A)) : M (list A) :=
  fun s =>
    let '(outcomes, _, s') := run_tasks (task_order s) promises s in
    (gather outcomes, s').

(** The scan for the first acting response that is not [null]. *)
Fixpoint first_reply (actingResponses : list (option Message)) : option Message :=
  match actingResponses with
  | [] => None
  | Some actingMsg :: _ => Some actingMsg
  | None :: rest => first_reply rest
  end.

(** The [for] loop of [reply]; [fuel] bounds the rounds still to run. *)
Fixpoint react_loop (a : Agent) (fuel : nat) (iteration : Z) : M (option Message) :=
  match fuel with
  | O => ret None
  | S fuel' =>
      if iteration <? maxIters a then
        emit (EvIteration (iteration + 1)) ;;;
        reasoningMsg <- reasoningWithHooks a ;;
        let toolCalls := getToolUseBlocks reasoningMsg in
        if (length toolCalls =? 0)%nat then ret None
        else
          let actingPromises := map (actingWithHooks_task a) toolCalls in
          actingResponses <-
            (if parallelToolCalls a then Promise_all actingPromises
             else await_each actingPromises) ;;
          match first_reply actingResponses with
          | Some replyMsg => ret (Some replyMsg)
          | None => react_loop a fuel' (iteration + 1)
          end
      else ret None
  end.

(** The steps of [reply] around its loop. [msg] is the input as a list:
    [null] is the empty list. *)

(** Long-term memory retrieval in static control mode. *)
Definition reply_retrieve (a : Agent) (msg : list Message) : M unit :=
  if staticControl a then
    match longTermMemory a with
    | Some ltm =>
        emit (EvRetrieve msg) ;;;
        let retrievedInfo := retrieve ltm msg in
        if negb (String.eqb retrievedInfo "") then
          id <- generateUuid ;;
          memory_add
            [MessageFactory.createUserMessage id
               ("<long_term_memory>以下内容来自长期内存，可能有用：" +:+ newline
                  +:+ retrievedInfo +:+ "</long_term_memory>")
               "long_term_memory"]
        else ret tt
    | None => raise (new_TypeError "Cannot read properties of undefined (reading 'retrieve')")
    end
  else ret tt.

(** Setting the structured-output contract of the call. *)
Definition reply_require (a : Agent) (structuredModel : option StructuredModel) : M unit :=
  modify (set_requiredStructuredModel structuredModel) ;;;
  match structuredModel with
  | Some sm =>
      modify (fun s =>
                set_toolkit (ToolkitOps.setExtendedModel (finishFunctionName a) sm (toolkit s)) s)
  | None => ret tt
  end.

(** Long-term memory recording in static control mode. *)
Definition reply_record (a : Agent) (msg : list Message) (replyMsg : Message) : M unit :=
  if staticControl a then
    mem <- getMemory ;;
    emit (EvRecord (msg ++ mem ++ [replyMsg]))
  else ret tt.

Definition reply (a : Agent) (msg : list Message) (structuredModel : option StructuredModel)
    : M Message :=
  memory_add msg ;;;
  reply_retrieve a msg ;;;
  reply_require a structuredModel ;;;
  found <- react_loop a (Z.to_nat (maxIters a)) 0 ;;
  replyMsg <-
    match found with
    | Some replyMsg => ret replyMsg
    | None => summarizing a
    end ;;
  reply_record a msg replyMsg ;;;
  memory_add [replyMsg] ;;;
  ret replyMsg.

(** [config.max_iters || 10] for a bound that is an integer, NaN or
    absent. *)
Definition max_iters_or_default (v : option JsNumber) : Z :=
  match v with
  | Some (NumInt z) => if z =? 0 then 10 else z
  | Some NumNaN => 10
  | None => 10
  end.

Definition generate_response_schema : ToolParameterSchema :=
  mkToolParameterSchema "object"
    (Some [("response",
            JsObj [("type", JsStr "string"); ("description", JsStr "您对用户的回复")])])
    (Some ["response"]).

Definition reset_equipped_tools_schema : ToolParameterSchema :=
  mkToolParameterSchema "object"
    (Some [("toolNames",
            JsObj [("type", JsStr "array");
                   ("items", JsObj [("type", JsStr "string")]);
                   ("description", JsStr "要装备的工具名称列表")])])
    (Some ["toolNames"]).

Definition setupToolkit (finishName : string) (agentControl enableMetaTool : bool)
    (ltm : option ILongTermMemory) (tk : Toolkit) : Toolkit :=
  let tk :=
    ToolkitOps.registerToolWithMetadata generateResponse_bound finishName
      "生成回复。注意：只有response参数对其他人可见，您应该在response参数中包含所有必要信息。"
      generate_response_schema tk in
  let tk :=
    match ltm with
    | Some l =>
        if agentControl then
          ToolkitOps.registerToolFunction (Function_bind (retrieveFromMemory l))
            (Some "retrieve_from_memory")
            (ToolkitOps.registerToolFunction (Function_bind (recordToMemory l))
               (Some "record_to_memory") tk)
        else tk
    | None => tk
    end in
  if enableMetaTool then
    ToolkitOps.registerToolWithMetadata createResetToolsWrapper_bound "reset_equipped_tools"
      "重置装备的工具列表" reset_equipped_tools_schema tk
  else tk.

Definition mode_in (mode : LongTermMemoryMode) (modes : list LongTermMemoryMode) : bool :=
  existsb (fun m => match m, mode with
                    | agent_control, agent_control
                    | static_control, static_control
                    | both, both => true
                    | _, _ => false
                    end) modes.

(** [new ReActAgent(config)]: the agent and its initial mutable parts. *)
Definition new_ReActAgent (config : AgentConfig) : Agent * State :=
  let finishName := "generate_response" in
  let ltm := long_term_memory config in
  let mode := default both (long_term_memory_mode config) in
  let hasLtm := match ltm with Some _ => true | None => false end in
  let static := hasLtm && mode_in mode [static_control; both] in
  let agentic := hasLtm && mode_in mode [agent_control; both] in
  let metaTool := default false (enable_meta_tool config) in
  (mkAgent (cfg_name config) "ReActAgent" finishName (sys_prompt config)
     (max_iters_or_default (max_iters config))
     (cfg_model config) (cfg_formatter config)
     ltm mode metaTool (default false (parallel_tool_calls config))
     static agentic no_step_hooks no_step_hooks,
   mkState
     (setupToolkit finishName agentic metaTool ltm
        (default ToolkitOps.new_Toolkit (cfg_toolkit config)))
     (default [] (cfg_memory config))
     None 0%nat 0%nat []).

End ReActAgent.

(** ** OpenAIChatModel.ts: turning backend answers into responses

    Restricted to answers that carry text only: a choice whose message or
    delta has no [tool_calls]. *)

Module OpenAIChatModel.

(** [choice.message] of a completion. *)
Record ChatCompletionMessage : Type := mkChatCompletionMessage {
  message_content : option string
}.

(** [chunk.choices[0]] of a streamed completion. *)
Record ChunkChoice : Type := mkChunkChoice {
  delta_content : option string;
  finish_reason : option string
}.

Definition string_truthy (o : option string) : bool :=
  match o with
  | Some s => negb (String.eqb s "")
  | None => false
  end.

(** [choice] is [response.choices[0]]. *)
Definition handleNormalResponse (choice : option ChatCompletionMessage)
    : Result (list ContentBlock) :=
  match choice with
  | None => Throw (new_Error "OpenAI API返回空响应")
  | Some message =>
      Ok (if string_truthy (message_content message)
          then [createTextBlock (default "" (message_content message))]
          else [])
  end.

(** The generator body over the backend's chunks; [textContent] is the
    text gathered so far. *)
Fixpoint handleStreamResponse_from (textContent : string)
    (stream : list (option ChunkChoice)) : list StreamChunk :=
  match stream with
  | [] => []
  | None :: rest => handleStreamResponse_from textContent rest
  | Some choice :: rest =>
      let textContent :=
        if string_truthy (delta_content choice)
        then textContent +:+ default "" (delta_content choice)
        else textContent in
      let chunk_blocks :=
        if string_truthy (delta_content choice) then [createTextBlock textContent] else [] in
      let isLast := string_truthy (finish_reason choice) in
      mkStreamChunk chunk_blocks isLast ::
        (if isLast then [] else handleStreamResponse_from textContent rest)
  end.

Definition handleStreamResponse (stream : list (option ChunkChoice)) : list StreamChunk :=
  handleStreamResponse_from "" stream.

End OpenAIChatModel.
(** * What the properties are stated with *)

(** ** The toolkit invariant *)

(** Every equipped name is a key of the registry. *)
Definition equipped_registered (tk : Toolkit) : Prop :=
  forall n : string, n ∈ equippedTools tk -> is_Some (tools tk !! n).

(** The calls a client can make on a toolkit. *)
Inductive ToolkitCall : Type :=
| CallRegisterToolFunction (f : ToolFunction) (name : option string)
| CallRegisterToolWithMetadata (f : ToolFunction) (name description : string)
    (params : ToolParameterSchema)
| CallResetEquippedTools (toolNames : list string)
| CallSetExtendedModel (toolName : string) (model : StructuredModel)
| CallRemoveToolFunction (name : string)
| CallClear.

(** The toolkit after a call, whether the call returned or threw. *)
Definition after_call (c : ToolkitCall) (tk : Toolkit) : Toolkit :=
  match c with
  | CallRegisterToolFunction f name => ToolkitOps.registerToolFunction f name tk
  | CallRegisterToolWithMetadata f name d p => ToolkitOps.registerToolWithMetadata f name d p tk
  | CallResetEquippedTools toolNames => snd (ToolkitOps.resetEquippedTools toolNames tk)
  | CallSetExtendedModel toolName model => ToolkitOps.setExtendedModel toolName model tk
  | CallRemoveToolFunction name => snd (ToolkitOps.removeToolFunction name tk)
  | CallClear => ToolkitOps.clear tk
  end.

(** ** Hook registration and what the log of a chain shows *)

(** Registering hooks one after the other on a step's instance Map. *)
Definition register_instance_step_hooks {Args Out : Type}
    (regs : list (string * HookFunction Args Out)) (h : StepHooks Args Out) : StepHooks Args Out :=
  fold_left (fun acc reg => registerInstanceStepHook (fst reg) (snd reg) acc) regs h.

(** Registering hooks one after the other in a plain object. *)
Definition store_all {V : Type} (regs : list (string * V)) (o : JsObject.t V) : JsObject.t V :=
  fold_left (fun acc reg => JsObject.set (fst reg) (snd reg) acc) regs o.

(** The value a hook of a pre chain hands to its successor. *)
Definition handed_on {Args Out : Type} (hook : HookFunction Args Out) (given : Args) : Args :=
  match call_pre hook given with
  | HookReturns result => result
  | _ => given
  end.

(** The log of a chain shows each hook receiving what its predecessor
    handed on, starting from [start]. *)
Fixpoint threaded {Args Out : Type} (hooks : list (string * HookFunction Args Out))
    (start : Args) (log : list (HookRun Args)) : Prop :=
  match hooks, log with
  | [], [] => True
  | (hookName, hook) :: hooks', run :: log' =>
      run_name run = hookName /\ run_input run = start /\
      threaded hooks' (handed_on hook start) log'
  | _, _ => False
  end.

(** No hook is registered for a step, neither for the class nor on the
    instance. *)
Definition no_hooks_registered {Args Out : Type} (className : string)
    (h : StepHooks Args Out) : Prop :=
  class_step_hooks_for className h = [] /\ JsMap.entries (instanceStepHooks h) = [].

(** ** Reading the record of a run *)

(** A round of the loop begins. *)
Definition is_iteration (e : Event) : bool :=
  match e with EvIteration _ => true | _ => false end.

(** A model call that carries tool schemas, as [reasoning] makes it. *)
Definition is_reasoning_call (e : Event) : bool :=
  match e with EvModelCall _ _ (Some _) => true | _ => false end.

(** A model call without tool schemas, as [summarizing] makes it. *)
Definition is_summarizing_call (e : Event) : bool :=
  match e with EvModelCall _ _ None => true | _ => false end.

(** The toolkit is asked to invoke a tool. *)
Definition is_tool_call (e : Event) : bool :=
  match e with EvToolCall _ => true | _ => false end.

(** A message is handed to the presentation sink. *)
Definition is_print (e : Event) : bool :=
  match e with EvPrint _ _ => true | _ => false end.

(** The long-term memory is asked for context. *)
Definition is_retrieve (e : Event) : bool :=
  match e with EvRetrieve _ => true | _ => false end.

(** The long-term memory is given the transcript. *)
Definition is_record (e : Event) : bool :=
  match e with EvRecord _ => true | _ => false end.

(** The events an acting step leaves. *)
Definition is_acting_event (e : Event) : bool := is_tool_call e || is_print e.

(** How many events of a kind a record holds. *)
Definition count (p : Event -> bool) (evs : list Event) : nat := length (List.filter p evs).

(** The rounds a state has seen begin. *)
Definition rounds (s : State) : nat := count is_iteration (trace s).

(** A computation that begins no round, however it ends. *)
Definition begins_no_round {A : Type} (m : M A) : Prop :=
  forall s : State, rounds (snd (m s)) = rounds s.

(** ** What the model returned *)

(** The model answered: it did not throw, and a stream ran to its end. *)
Definition model_returns (o : ModelOutcome) : bool :=
  match o with
  | ModelThrows _ => false
  | ModelResponse _ => true
  | ModelStream _ fail => match fail with Some _ => false | None => true end
  end.

(** The model gateway always answers. *)
Definition model_always_returns (a : Agent) : Prop :=
  forall n formatted schemas, model_returns (model a n formatted schemas) = true.

(** The blocks [reasoning] gathers from what the model returned: the
    content of a complete response, or the contents of all chunks of a
    stream, one after the other. *)
Definition gathered_blocks (o : ModelOutcome) : list ContentBlock :=
  match o with
  | ModelThrows _ => []
  | ModelResponse response_content => response_content
  | ModelStream chunks _ => concat (map chunk_content chunks)
  end.

(** The blocks [summarizing] keeps from what the model returned: each
    chunk of a stream replaces the content. *)
Definition summary_blocks (o : ModelOutcome) : list ContentBlock :=
  match o with
  | ModelThrows _ => []
  | ModelResponse response_content => response_content
  | ModelStream chunks _ =>
      match last chunks with
      | Some chunk => chunk_content chunk
      | None => []
      end
  end.

(** Some block is a tool_use block. *)
Definition has_tool_use (blocks : list ContentBlock) : bool :=
  existsb (fun b => match b with ToolUse _ => true | _ => false end) blocks.

(** The text [getTextContent] reads off a list of blocks. *)
Definition text_of_blocks (blocks : list ContentBlock) : string :=
  join newline (omap text_of_block blocks).

(** [!config.max_iters] *)
Definition falsy_number (v : option JsNumber) : bool :=
  match v with
  | None => true
  | Some NumNaN => true
  | Some (NumInt z) => z =? 0
  end.

(** ** Completions that never succeed *)

(** The reply a drained completion tool signals: the message of the last
    chunk that reports success. *)
Definition signalled (chunks : list ToolResponse) (responseMsg : option Message) : option Message :=
  fold_left (fun acc chunk => if success_truthy chunk then response_msg (tr_metadata chunk) else acc)
    chunks responseMsg.

(** A contract that accepts no value. *)
Definition rejects_all (sm : StructuredModel) : Prop :=
  forall v : jsval, exists e, parse sm v = Throw e.

(** A tool implementation that, run as the completion action, never
    supplies a reply. *)
Definition tool_never_replies (rsm : option StructuredModel) (f : ToolFunction) : Prop :=
  match f with
  | generateResponse_bound => exists sm, rsm = Some sm /\ rejects_all sm
  | createResetToolsWrapper_bound => True
  | ExternalTool _ _ _ body =>
      forall args,
        match body args with
        | ToolThrows _ => True
        | ToolReturns r => signalled [r] None = None
        | ToolGenerator chunks _ => signalled chunks None = None
        end
  end.

(** Whatever is registered under the completion action's name never
    produces a successful completion. *)
Definition completion_never_succeeds (a : Agent)
    (registry : gmap string ToolFunctionMetadata) (rsm : option StructuredModel) : Prop :=
  forall tool, registry !! finishFunctionName a = Some tool ->
               tool_never_replies rsm (func tool).

(** The model never asks for the completion action: every answer
    requests a tool, and none of the requests names the completion
    action. *)
Definition model_avoids_completion (a : Agent) : Prop :=
  forall n formatted schemas,
    has_tool_use (gathered_blocks (model a n formatted schemas)) = true /\
    forall toolCall,
      ToolUse toolCall ∈ gathered_blocks (model a n formatted schemas) ->
      tu_name toolCall <> finishFunctionName a.

(** The hooks of the reasoning step hand on the message they are given. *)
Definition reasoning_hooks_hand_on (a : Agent) : Prop :=
  forall result : Message,
    fst (applyPostReasoningHooks (className a) (reasoningHooks a) [] result) = result.

(** The hooks of the acting step hand on the request and the result
    they are given. *)
Definition acting_hooks_hand_on (a : Agent) : Prop :=
  (forall toolCall : ToolUseBlock,
     fst (applyPreStepHooks (className a) (actingHooks a) toolCall) = toolCall) /\
  forall (toolCall : ToolUseBlock) (result : option Message),
    fst (applyPostActingHooks (className a) (actingHooks a) toolCall result) = result.

(** A generator that, drained for the completion action, supplies no reply. *)
Definition generator_never_replies (rsm : option StructuredModel) (g : AsyncGenerator) : Prop :=
  match g with
  | GenChunks chunks _ => signalled chunks None = None
  | GenGenerateResponse _ => exists sm, rsm = Some sm /\ rejects_all sm
  | GenResetTools _ => True
  end.

(** ** Calls that run side by side *)

(** A call that is never rejected, whatever runs between its stretches:
    each stretch that begins in a state where [I] holds changes the
    state as [G k] allows, the [k] of its stretches add up to [n], and
    the value of the call satisfies [Q]. *)
Fixpoint obeys {A : Type} (I : State -> Prop) (G : nat -> State -> State -> Prop)
    (Q : A -> Prop) (n : nat) (t : Task A) : Prop :=
  match t with
  | Settled (Ok x) => n = 0%nat /\ Q x
  | Settled (Throw _) => False
  | Suspended continue_as effect =>
      forall s, I s ->
        exists k, (k <= n)%nat /\ G k s (effect s) /\ obeys I G Q (n - k) (continue_as s)
  end.

(** The calls of a list obey, each for its own [Q]; their [n] add up to
    [total]. *)
Fixpoint all_obey {A : Type} (I : State -> Prop) (G : nat -> State -> State -> Prop)
    (Qs : list (A -> Prop)) (total : nat) (tasks : list (Task A)) : Prop :=
  match Qs, tasks with
  | [], [] => total = 0%nat
  | Q :: Qs', t :: tasks' =>
      exists n, (n <= total)%nat /\ obeys I G Q n t /\ all_obey I G Qs' (total - n) tasks'
  | _, _ => False
  end.

(** What acting steps do to the state while they invoke the toolkit [k]
    times: they record these invocations and the messages they show,
    they add to the log, they draw identifiers, and they may equip other
    tools. *)
Definition acted (k : nat) (s s' : State) : Prop :=
  (exists evs,
     trace s' = trace s ++ evs /\ forallb is_acting_event evs = true /\
     count is_tool_call evs = k) /\
  memory s `prefix_of` memory s' /\
  tools (toolkit s') = tools (toolkit s) /\
  requiredStructuredModel s' = requiredStructuredModel s /\
  model_calls s' = model_calls s.

Section Observations.
Context `{Runtime}.

(** ** The steps of [reasoning] and [summarizing] *)

(** What [reasoning] passes to the model in state [s]. *)
Definition reasoning_input (a : Agent) (s : State) : Formatted :=
  formatter a
    (MessageFactory.createSystemMessage (uuidv4 (next_uuid s)) (sysPrompt a) :: memory s).

(** What the model answers to [reasoning] in state [s]. *)
Definition reasoning_outcome (a : Agent) (s : State) : ModelOutcome :=
  model a (model_calls s) (reasoning_input a s)
    (Some (ToolkitOps.getJsonSchemas (toolkit s))).

(** The message [reasoning] returns for the blocks it gathered. *)
Definition reasoning_content (a : Agent) (id : string) (blocks : list ContentBlock)
    : MessageContent :=
  if has_tool_use blocks then Structured blocks
  else Structured
         [createToolUseBlock (finishFunctionName a)
            [("response", JsStr (join newline (omap text_of_block blocks)))] id].

(** The messages [reasoning] shows while it reads a stream. *)
Fixpoint stream_prints (chunks : list StreamChunk) (acc : list ContentBlock) (msg : Message)
    : list Event :=
  match chunks with
  | [] => []
  | chunk :: rest =>
      EvPrint (setContent (Structured (acc ++ chunk_content chunk)) msg) false
        :: stream_prints rest (acc ++ chunk_content chunk) msg
  end.

(** What [summarizing] passes to the model in state [s]: the system
    prompt, the log, and last the fixed hint. *)
Definition summarizing_input (a : Agent) (s : State) : Formatted :=
  formatter a
    (MessageFactory.createSystemMessage (uuidv4 (S (next_uuid s))) (sysPrompt a)
       :: memory s ++
          [MessageFactory.createUserMessage (uuidv4 (next_uuid s)) summarize_hint "user"]).

(** What the model answers to [summarizing] in state [s]. *)
Definition summarizing_outcome (a : Agent) (s : State) : ModelOutcome :=
  model a (model_calls s) (summarizing_input a s) None.

(** The messages [summarizing] shows while it reads a stream. *)
Fixpoint summary_prints (chunks : list StreamChunk) (responseMsg : Message) : list Event :=
  match chunks with
  | [] => []
  | chunk :: rest =>
      EvPrint (setContent (Structured (chunk_content chunk)) responseMsg) false
        :: summary_prints rest responseMsg
  end.

(** ** The steps of [acting] *)

(** The state in which [acting] drains the generator: an identifier was
    drawn and the call was recorded. *)
Definition acting_started (toolCall : ToolUseBlock) (s : State) : State :=
  mkState (toolkit s) (memory s) (requiredStructuredModel s) (model_calls s)
    (S (next_uuid s)) (trace s ++ [EvToolCall toolCall]).

(** The messages [acting] shows while it drains the chunks of a tool. *)
Definition chunk_prints (a : Agent) (toolCall : ToolUseBlock) (chunks : list ToolResponse)
    (toolResultMsg : Message) : list Event :=
  flat_map (fun chunk =>
     if negb (String.eqb (tu_name toolCall) (finishFunctionName a)) || negb (success_truthy chunk)
     then [EvPrint (set_output (JsStr (chunk_text chunk)) toolResultMsg) (is_last chunk)]
     else []) chunks.

(** The tool result message after the chunks: each chunk overwrote the output. *)
Definition last_output (chunks : list ToolResponse) (toolResultMsg : Message) : Message :=
  match last chunks with
  | Some chunk => set_output (JsStr (chunk_text chunk)) toolResultMsg
  | None => toolResultMsg
  end.

(** The tool result message [acting] appends to the log. *)
Definition acting_logged (toolCall : ToolUseBlock) (id : string)
    (chunks : list ToolResponse) (fail : option JsError) : Message :=
  let toolResultMsg :=
    MessageFactory.createToolResultMessage id
      [createToolResultBlock (tu_id toolCall) (tu_name toolCall) (JsArr [])] in
  match fail with
  | Some e => set_output (JsStr ("工具调用失败: " +:+ String_of_error e))
                (last_output chunks toolResultMsg)
  | None => last_output chunks toolResultMsg
  end.

(** What [acting] leaves as the output of the tool result: the error text
    if the generator threw, else the text of the last chunk, else the
    initial empty array. *)
Definition logged_output (chunks : list ToolResponse) (fail : option JsError) : jsval :=
  match fail with
  | Some e => JsStr ("工具调用失败: " +:+ String_of_error e)
  | None =>
      match last chunks with
      | Some chunk => JsStr (chunk_text chunk)
      | None => JsArr []
      end
  end.


(** The reading of the log entry of [acting] under which its output
    gathers every chunk: the text of each chunk the tool yielded occurs in
    the output that is logged. *)
Definition output_accumulates (a : Agent) (toolCall : ToolUseBlock) (s : State) : Prop :=
  forall chunks fail drained,
    drain a (ToolkitOps.callToolFunction toolCall (toolkit s)) (acting_started toolCall s)
      = (Ok (chunks, fail), drained) ->
    exists logged out,
      last (memory (snd (acting a toolCall s))) = Some logged /\
      content logged =
        Structured [createToolResultBlock (tu_id toolCall) (tu_name toolCall) (JsStr out)] /\
      forall chunk, chunk ∈ chunks -> includes (chunk_text chunk) out = true.

End Observations.

(** * Concrete agents, tools, contracts and hooks *)

Module Samples.

(** A runtime that runs the calls started together one after the
    other. *)
Definition runtime : Runtime :=
  mkRuntime (fun n => "id" +:+ pretty n +:+ "-0000")
            (fun block => "{" +:+ block_type block +:+ "}")
            (fun _ => []).

(** A runtime that resumes the calls started together in turn. *)
Definition taking_turns : Runtime :=
  mkRuntime (fun n => "id" +:+ pretty n +:+ "-0000")
            (fun block => "{" +:+ block_type block +:+ "}")
            (fun _ => [0; 1; 0; 1; 0; 1; 0; 1; 0; 1; 0; 1; 0; 1; 0; 1]%nat).

(** A gateway that gives the same complete response to every call. *)
Definition answers (blocks : list ContentBlock)
    : nat -> Formatted -> option (list ToolSchema) -> ModelOutcome :=
  fun _ _ _ => ModelResponse blocks.

(** A gateway that gives the same stream to every call. *)
Definition streams (chunks : list StreamChunk)
    : nat -> Formatted -> option (list ToolSchema) -> ModelOutcome :=
  fun _ _ _ => ModelStream chunks None.

Definition config (gateway : nat -> Formatted -> option (list ToolSchema) -> ModelOutcome)
    (toolkit : option Toolkit) (parallel : bool) (bound : option JsNumber) : AgentConfig :=
  mkAgentConfig "assistant" "You are a helpful assistant." gateway FormattedMessages
    toolkit None None None None (Some parallel) bound.

Definition question : list Message :=
  [MessageFactory.createUserMessage "q-1" "2+2?" "user"].

(** *** Contracts *)

Definition reject_everything : StructuredModel :=
  mkStructuredModel (fun _ => Throw (new_Error "invalid")).

(** [z.object({ title: z.string() })] *)
Definition title_required : StructuredModel :=
  mkStructuredModel
    (fun v => match v with
              | JsObj props =>
                  match alist_get "title" props with
                  | Some (JsStr title) => Ok (JsObj [("title", JsStr title)])
                  | _ => Throw (new_Error "title: expected string")
                  end
              | _ => Throw (new_Error "expected object")
              end).

(** [z.object({ title: z.string().optional() })] *)
Definition title_optional : StructuredModel :=
  mkStructuredModel
    (fun v => match v with
              | JsObj props =>
                  match alist_get "title" props with
                  | Some (JsStr title) => Ok (JsObj [("title", JsStr title)])
                  | None => Ok (JsObj [])
                  | Some _ => Throw (new_Error "title: expected string")
                  end
              | _ => Throw (new_Error "expected object")
              end).

(** *** An agent that answers in plain text *)

Definition plain_agent : Agent := fst (new_ReActAgent (config (answers [Text "4"]) None false None)).
Definition plain_state : State := snd (new_ReActAgent (config (answers [Text "4"]) None false None)).

(** *** An agent bounded to three rounds *)

Definition bounded_config : AgentConfig :=
  config (answers [Text "thinking"]) None false (Some (NumInt 3)).
Definition bounded_agent : Agent := fst (new_ReActAgent bounded_config).
Definition bounded_state : State := snd (new_ReActAgent bounded_config).

(** *** An agent configured with max_iters 0 *)

Definition zero_config : AgentConfig :=
  config (answers [Text "thinking"]) None false (Some (NumInt 0)).

(** *** A round with two completion requests *)

Definition first_call : ToolUseBlock :=
  mkToolUse "call-1" "generate_response" [("response", JsStr "first")].



(** *** A completion request that leaves out its required argument *)

Definition incomplete_call : ToolUseBlock := mkToolUse "call-3" "generate_response" [].

Definition generate_response_tool : ToolFunctionMetadata :=
  mkToolFunctionMetadata "generate_response" generateResponse_bound
    "生成回复。注意：只有response参数对其他人可见，您应该在response参数中包含所有必要信息。"
    generate_response_schema None.

(** *** A tool that reports progress in two chunks *)

Definition progress_chunks : list ToolResponse :=
  [new_ToolResponse "a" (mkToolMetadata (Some true) None None []) false;
   new_ToolResponse "b" (mkToolMetadata (Some true) None None []) true].

Definition progress_tool : ToolFunction :=
  ExternalTool "progress" [] None (fun _ => ToolGenerator progress_chunks None).

Definition progress_toolkit : Toolkit :=
  ToolkitOps.registerToolFunction progress_tool None ToolkitOps.new_Toolkit.

Definition progress_config : AgentConfig :=
  config (answers [Text "4"]) (Some progress_toolkit) false None.
Definition progress_agent : Agent := fst (new_ReActAgent progress_config).
Definition progress_state : State := snd (new_ReActAgent progress_config).
Definition progress_call : ToolUseBlock := mkToolUse "call-4" "progress" [].

(** *** An agent whose model keeps asking for the progress tool *)


(** *** A tool that requires a parameter named as a method that every
    object has *)

Definition describe_schema : ToolParameterSchema :=
  mkToolParameterSchema "object"
    (Some [("toString", JsObj [("type", JsStr "string")])])
    (Some ["toString"]).

Definition described : ToolResponse :=
  new_ToolResponse "described" (mkToolMetadata (Some true) None None []) true.

Definition describe_tool : ToolFunction :=
  ExternalTool "describe" ["toString"] None (fun _ => ToolReturns described).

Definition describe_toolkit : Toolkit :=
  ToolkitOps.registerToolWithMetadata describe_tool "describe" "Describes a value."
    describe_schema ToolkitOps.new_Toolkit.

Definition describe_config : AgentConfig :=
  config (answers [Text "4"]) (Some describe_toolkit) false None.
Definition describe_agent : Agent := fst (new_ReActAgent describe_config).
Definition describe_state : State := snd (new_ReActAgent describe_config).

(** A request for the tool without any argument. *)
Definition bare_describe_call : ToolUseBlock := mkToolUse "call-7" "describe" [].

(** *** A streamed and a complete answer of the same backend text *)

Definition backend_stream : list (option OpenAIChatModel.ChunkChoice) :=
  [Some (OpenAIChatModel.mkChunkChoice (Some "你") None);
   Some (OpenAIChatModel.mkChunkChoice (Some "好") (Some "stop"))].

Definition backend_message : OpenAIChatModel.ChatCompletionMessage :=
  OpenAIChatModel.mkChatCompletionMessage (Some "你好").

Definition streamed_config : AgentConfig :=
  config (streams (OpenAIChatModel.handleStreamResponse backend_stream)) None false None.
Definition streamed_agent : Agent := fst (new_ReActAgent streamed_config).
Definition streamed_state : State := snd (new_ReActAgent streamed_config).

Definition complete_config : AgentConfig :=
  config (answers [Text "你好"]) None false None.
Definition complete_agent : Agent := fst (new_ReActAgent complete_config).
Definition complete_state : State := snd (new_ReActAgent complete_config).

(** *** Completion requests with a title *)

Definition numeric_title_call : ToolUseBlock :=
  mkToolUse "call-5" "generate_response" [("response", JsStr "done"); ("title", JsNum 5)].

Definition numeric_title_config : AgentConfig :=
  config (answers [ToolUse numeric_title_call]) None false (Some (NumInt 2)).
Definition numeric_title_agent : Agent := fst (new_ReActAgent numeric_title_config).
Definition numeric_title_state : State := snd (new_ReActAgent numeric_title_config).

Definition string_title_call : ToolUseBlock :=
  mkToolUse "call-6" "generate_response" [("response", JsStr "done"); ("title", JsStr "Report")].

Definition string_title_config : AgentConfig :=
  config (answers [ToolUse string_title_call]) None false (Some (NumInt 2)).
Definition string_title_agent : Agent := fst (new_ReActAgent string_title_config).
Definition string_title_state : State := snd (new_ReActAgent string_title_config).

(** *** Hooks that append their tag to the value they are given *)

Definition tagging (tag : string) : HookFunction (list string) (list string) :=
  mkHook (fun args => HookReturns (args ++ [tag]))
         (fun _ output => HookReturns (output ++ [tag])).

Definition fresh_base_hooks : AgentBaseHooks (list string) (list string) :=
  mkAgentBaseHooks JsMap.empty AgentBase_new_instanceHooks.

(** The hooks of an agent after [calls], stopping at the first throw. *)
Fixpoint registered_after
    (calls : list (AgentBaseHooks (list string) (list string)
                   -> Result (AgentBaseHooks (list string) (list string))))
    (h : AgentBaseHooks (list string) (list string))
    : AgentBaseHooks (list string) (list string) :=
  match calls with
  | [] => h
  | call :: rest =>
      match call h with
      | Ok h' => registered_after rest h'
      | Throw _ => h
      end
  end.

(** Instance hooks "2" then "1" on pre_print. *)
Definition numbered_base_hooks : AgentBaseHooks (list string) (list string) :=
  registered_after
    [registerInstanceHook pre_print "2" (tagging "2");
     registerInstanceHook pre_print "1" (tagging "1")]
    fresh_base_hooks.

(** The same two registrations on the instance Map of a step. *)
Definition numbered_step_hooks : StepHooks (list string) (list string) :=
  register_instance_step_hooks [("2", tagging "2"); ("1", tagging "1")] no_step_hooks.

(** An instance hook registered before a class hook, on pre_reply. *)
Definition late_class_hooks : AgentBaseHooks (list string) (list string) :=
  registered_after
    [registerInstanceHook pre_reply "mine" (tagging "instance");
     registerClassHook AgentBase_supportedHookTypes "ReActAgent" pre_reply "shared"
       (tagging "class")]
    fresh_base_hooks.

End Samples.
(** * The rest of the message and memory code *)

(** ** Message.ts: the remaining methods *)

(** [addContentBlock(block)]. Content that is neither a string nor an
    array has no [push] to call. *)
Definition addContentBlock (block : ContentBlock) (m : Message) : Result Message :=
  match content m with
  | PlainText s => Ok (setContent (Structured [createTextBlock s; block]) m)
  | Structured blocks => Ok (setContent (Structured (blocks ++ [block])) m)
  | OtherContent JsNull =>
      Throw (new_TypeError "Cannot read properties of null (reading 'push')")
  | OtherContent JsUndefined =>
      Throw (new_TypeError "Cannot read properties of undefined (reading 'push')")
  | OtherContent _ => Throw (new_TypeError "this.content.push is not a function")
  end.

(** A message as a plain object: what [toJSON] returns, what [fromJSON]
    reads, and what a caller may pass where an [IMessage] is expected.
    [id] and [metadata] are optional. *)
Record MessageJSON : Type := mkMessageJSON {
  json_id : option string;
  json_name : string;
  json_content : MessageContent;
  json_role : MessageRole;
  json_metadata : option jsval
}.

Definition toJSON (m : Message) : MessageJSON :=
  mkMessageJSON (Some (msg_id m)) (msg_name m) (content m) (role m) (Some (metadata m)).

Section MessageConstruction.
Context `{Runtime}.

(** [new Message(name, content, role, metadata, id)]: [metadata]
    defaults to [{}], [this.id = id || generateUuid()]. *)
Definition Message_new (name : string) (c : MessageContent) (r : MessageRole)
    (md : option jsval) (id : option string) : M Message :=
  id <- match id with
        | Some given => if negb (String.eqb given "") then ret given else generateUuid
        | None => generateUuid
        end ;;
  ret (mkMessage id name c r (default (JsObj []) md)).

(** [Message.fromJSON(json)], with [json.metadata || {}]. *)
Definition fromJSON (json : MessageJSON) : M Message :=
  let md :=
    match json_metadata json with
    | Some v => if truthy v then v else JsObj []
    | None => JsObj []
    end in
  Message_new (json_name json) (json_content json) (json_role json) (Some md) (json_id json).

End MessageConstruction.

(** ** InMemoryMemory.ts *)

(** A value passed as an [IMessage]: an instance of [Message], or a
    plain object with the same fields. *)
Inductive IMessageValue : Type :=
| MessageInstance (m : Message)
| MessageObject (json : MessageJSON).

(** [IMessage | IMessage[] | null]; an array may hold [null] entries. *)
Inductive MessageInput : Type :=
| InputNull
| InputOne (v : IMessageValue)
| InputMany (vs : list (option IMessageValue)).

(** [ensureArray(msg)] of utils *)
Definition ensureArray (msg : MessageInput) : list (option IMessageValue) :=
  match msg with
  | InputNull => [None]
  | InputOne v => [Some v]
  | InputMany vs => vs
  end.

(** [start] of [array.slice(start)] as an offset from the front. *)
Definition slice_start (start : Z) (len : nat) : nat :=
  if start <? 0 then Z.to_nat (Z.max (Z.of_nat len + start) 0)
  else Z.to_nat (Z.min start (Z.of_nat len)).

Module InMemoryMemory.

Section Add.
Context `{Runtime}.

(** The body of the loop of [add]. *)
Definition add_message (message : option IMessageValue) : M unit :=
  match message with
  | None => ret tt
  | Some (MessageInstance m) => modify (fun s => set_memory (memory s ++ [m]) s)
  | Some (MessageObject json) =>
      msgInstance <- fromJSON json ;;
      modify (fun s => set_memory (memory s ++ [msgInstance]) s)
  end.

Fixpoint add_messages (messages : list (option IMessageValue)) : M unit :=
  match messages with
  | [] => ret tt
  | message :: rest => add_message message ;;; add_messages rest
  end.

Definition add (msg : MessageInput) : M unit :=
  match msg with
  | InputNull => ret tt
  | _ => add_messages (ensureArray msg)
  end.

End Add.

Definition getMemory (messages : list Message) : list Message := messages.

Definition clear (messages : list Message) : list Message := [].

(** [this.messages.slice(-count)]; [-NaN] is read as offset 0. *)
Definition getRecentMessages (count : JsNumber) (messages : list Message) : list Message :=
  match count with
  | NumInt z => drop (slice_start (- z) (length messages)) messages
  | NumNaN => messages
  end.

Definition getSize (messages : list Message) : nat := length messages.

(** [removeMessage(index)]: whether a message was removed, and the
    messages afterwards. *)
Definition removeMessage (index : JsNumber) (messages : list Message)
    : bool * list Message :=
  match index with
  | NumInt z =>
      if (0 <=? z) && (z <? Z.of_nat (length messages))
      then (true, take (Z.to_nat z) messages ++ drop (S (Z.to_nat z)) messages)
      else (false, messages)
  | NumNaN => (false, messages)
  end.

End InMemoryMemory.
(** ** ToolResponse.ts: the class, its builder and the shortcuts *)

Module ToolResponseTs.

(** [content: ContentBlock[] | string] of the constructor. *)
Inductive ResponseContent : Type :=
| ContentString (s : string)
| ContentBlocks (blocks : list ContentBlock).

Definition no_metadata : ToolMetadata := mkToolMetadata None None None [].

(** [new ToolResponse(content, metadata, isLast)] *)
Definition new (c : ResponseContent) (md : ToolMetadata) (isLast : bool) : ToolResponse :=
  mkToolResponse
    (match c with
     | ContentString s => [createTextBlock s]
     | ContentBlocks blocks => blocks
     end)
    md isLast.

Definition getTextContent (r : ToolResponse) : string :=
  join newline (omap text_of_block (tr_content r)).

(** [this.metadata.success !== false] *)
Definition isSuccess (r : ToolResponse) : bool :=
  match success (tr_metadata r) with
  | Some false => false
  | _ => true
  end.

(** [this.metadata.error || null] *)
Definition getError (r : ToolResponse) : option string :=
  match error (tr_metadata r) with
  | Some e => if negb (String.eqb e "") then Some e else None
  | None => None
  end.

(** [{ ...metadata, success: flag }] *)
Definition with_success (flag : bool) (md : ToolMetadata) : ToolMetadata :=
  mkToolMetadata (Some flag) (response_msg md) (error md) (extra md).

(** [{ ...metadata, success: false, error }] *)
Definition with_failure (err : string) (md : ToolMetadata) : ToolMetadata :=
  mkToolMetadata (Some false) (response_msg md) (Some err) (extra md).

Definition createSuccessResponse (c : ResponseContent) (md : ToolMetadata) : ToolResponse :=
  new c (with_success true md) true.

(** [createErrorResponse(error, metadata)] with the metadata given. *)
Definition createErrorResponse (err : string) (md : ToolMetadata) : ToolResponse :=
  new (ContentString ("错误: " +:+ err)) (with_failure err md) true.

(** The loop of [createStreamResponse] from index [i] on; [total] is
    [chunks.length]. *)
Fixpoint createStreamResponse_from (i total : nat) (chunks : list string) (md : ToolMetadata)
    : list ToolResponse :=
  match chunks with
  | [] => []
  | chunk :: rest =>
      let isLast := (i =? total - 1)%nat in
      new (ContentString chunk) (with_success true md) isLast
        :: createStreamResponse_from (S i) total rest md
  end.

(** The responses the generator [createStreamResponse(chunks, metadata)]
    yields. *)
Definition createStreamResponse (chunks : list string) (md : ToolMetadata) : list ToolResponse :=
  createStreamResponse_from 0 (length chunks) chunks md.

(** *** ToolResponseBuilder, without [setMetadata] and [setMetadataBatch] *)

Record Builder : Type := mkBuilder {
  b_content : list ContentBlock;
  b_metadata : ToolMetadata;
  b_isLast : bool
}.

Definition new_Builder : Builder := mkBuilder [] no_metadata true.

Definition addText (text : string) (b : Builder) : Builder :=
  mkBuilder (b_content b ++ [createTextBlock text]) (b_metadata b) (b_isLast b).

Definition addContentBlock (block : ContentBlock) (b : Builder) : Builder :=
  mkBuilder (b_content b ++ [block]) (b_metadata b) (b_isLast b).

Definition setIsLast (isLast : bool) (b : Builder) : Builder :=
  mkBuilder (b_content b) (b_metadata b) isLast.

(** [this.metadata.success = true] *)
Definition mark_success (b : Builder) : Builder :=
  mkBuilder (b_content b) (with_success true (b_metadata b)) (b_isLast b).

(** [failure(error?)]: the error is stored only if it is given and not
    empty. *)
Definition failure (err : option string) (b : Builder) : Builder :=
  let md := with_success false (b_metadata b) in
  let md :=
    match err with
    | Some e =>
        if negb (String.eqb e "")
        then mkToolMetadata (success md) (response_msg md) (Some e) (extra md)
        else md
    | None => md
    end in
  mkBuilder (b_content b) md (b_isLast b).

Definition build (b : Builder) : ToolResponse :=
  new (ContentBlocks (b_content b)) (b_metadata b) (b_isLast b).

Definition reset (b : Builder) : Builder := new_Builder.

End ToolResponseTs.
(** ** OpenAIChatFormatter.ts and the other formatters

    Strings are read as UTF-8: a character of JavaScript outside ASCII is
    the sequence of its bytes. *)

(** One-byte white space and line terminators: TAB, LF, VT, FF, CR, SP. *)
Definition space1 (c : ascii) : bool :=
  let n := N_of_ascii c in
  ((9 <=? n) && (n <=? 13) || (n =? 32))%N.

(** U+00A0. *)
Definition space2 (c1 c2 : ascii) : bool :=
  ((N_of_ascii c1 =? 194) && (N_of_ascii c2 =? 160))%N.

(** U+1680, U+2000 to U+200A, U+2028, U+2029, U+202F, U+205F, U+3000,
    U+FEFF. *)
Definition space3 (c1 c2 c3 : ascii) : bool :=
  let n1 := N_of_ascii c1 in
  let n2 := N_of_ascii c2 in
  let n3 := N_of_ascii c3 in
  ((n1 =? 225) && (n2 =? 154) && (n3 =? 128)
   || (n1 =? 226) && (n2 =? 128)
      && ((128 <=? n3) && (n3 <=? 138) || (n3 =? 168) || (n3 =? 169) || (n3 =? 175))
   || (n1 =? 226) && (n2 =? 129) && (n3 =? 159)
   || (n1 =? 227) && (n2 =? 128) && (n3 =? 128)
   || (n1 =? 239) && (n2 =? 187) && (n3 =? 191))%N.

(** [s.trim()] is empty: [s] holds nothing but white space and line
    terminators. *)
Fixpoint blank (s : string) : bool :=
  match s with
  | EmptyString => true
  | String c1 r1 =>
      if space1 c1 then blank r1
      else match r1 with
           | String c2 r2 =>
               if space2 c1 c2 then blank r2
               else match r2 with
                    | String c3 r3 => if space3 c1 c2 c3 then blank r3 else false
                    | EmptyString => false
                    end
           | EmptyString => false
           end
  end.

(** [msg.role] as a string. *)
Definition role_name (r : MessageRole) : string :=
  match r with
  | role_system => "system"
  | role_user => "user"
  | role_assistant => "assistant"
  end.

Definition is_system (m : Message) : bool :=
  match role m with role_system => true | _ => false end.

(** [block.type === 'tool_use' || block.type === 'tool_result'] *)
Definition is_tool_block (block : ContentBlock) : bool :=
  String.eqb (block_type block) "tool_use" || String.eqb (block_type block) "tool_result".

Definition is_text_block (block : ContentBlock) : bool :=
  String.eqb (block_type block) "text".

(** [Array.isArray(msg.content) && msg.content.some(tool block)] *)
Definition has_tool_content (m : Message) : bool :=
  match content m with
  | Structured blocks => existsb is_tool_block blocks
  | _ => false
  end.

(** [blocks.filter(text).map(block => block.text).join('\n')] *)
Definition joined_text (blocks : list ContentBlock) : string :=
  join newline (omap text_of_block (List.filter is_text_block blocks)).

Inductive SystemMessageHandling : Type := handling_merge | handling_separate | handling_first.

Module OpenAIChatFormatter.

Record t : Type := mkFormatter {
  includeNames : bool;
  systemMessageHandling : SystemMessageHandling
}.

(** [new OpenAIChatFormatter()] *)
Definition default_formatter : t := mkFormatter true handling_separate.

Definition extractTextContent (msg : Message) : string :=
  match content msg with
  | PlainText s => s
  | Structured blocks => joined_text blocks
  | OtherContent _ => ""
  end.

(** The content [formatSingleMessage] settles on: blocks that hold text
    and no tool block become the joined text. *)
Definition formatted_content (c : MessageContent) : MessageContent :=
  match c with
  | Structured blocks =>
      let textBlocks := List.filter is_text_block blocks in
      let toolBlocks := List.filter is_tool_block blocks in
      if (0 <? length textBlocks)%nat && (length toolBlocks =? 0)%nat
      then PlainText (joined_text blocks)
      else c
  | _ => c
  end.

(** The filter of [postProcess]. *)
Definition nonEmpty (msg : Message) : bool :=
  negb (blank (extractTextContent msg)) || has_tool_content msg.

Definition postProcess (f : t) (msgs : list Message) : list Message :=
  let nonEmptyMessages := List.filter nonEmpty msgs in
  match systemMessageHandling f with
  | handling_separate =>
      let systemMessages := List.filter is_system nonEmptyMessages in
      let otherMessages := List.filter (fun msg => negb (is_system msg)) nonEmptyMessages in
      let hasToolContent := existsb has_tool_content nonEmptyMessages in
      if hasToolContent then nonEmptyMessages
      else systemMessages ++ otherMessages
  | _ => nonEmptyMessages
  end.

Section Format.
Context `{Runtime}.

Definition formatSingleMessage (f : t) (msg : Message) : M Message :=
  formattedMsg <-
    Message_new (if includeNames f then msg_name msg else role_name (role msg))
      (content msg) (role msg)
      (Some (if truthy (metadata msg) then metadata msg else JsObj [])) None ;;
  ret (setContent (formatted_content (content msg)) formattedMsg).

Definition formatRegularMessages (f : t) (msgs : list Message) : M (list Message) :=
  sequence (map (formatSingleMessage f) msgs).

Definition format (f : t) (msgs : list Message) : M (list Message) :=
  if (length msgs =? 0)%nat then ret []
  else
    let hasToolContent := existsb has_tool_content msgs in
    if hasToolContent then
      formatted <- formatRegularMessages f msgs ;;
      ret (postProcess f formatted)
    else
      let systemMessages := List.filter is_system msgs in
      let nonSystemMessages := List.filter (fun msg => negb (is_system msg)) msgs in
      formattedMessages <-
        match systemMessageHandling f with
        | handling_merge =>
            merged <-
              (if (0 <? length systemMessages)%nat then
                 let mergedSystemContent :=
                   join (newline +:+ newline)
                     (List.filter (fun c => negb (blank c))
                        (map extractTextContent systemMessages)) in
                 if negb (String.eqb mergedSystemContent "") then
                   m <- Message_new "system" (PlainText mergedSystemContent) role_system
                          None None ;;
                   ret [m]
                 else ret []
               else ret []) ;;
            regular <- formatRegularMessages f nonSystemMessages ;;
            ret (merged ++ regular)
        | handling_first =>
            firstSystem <-
              match systemMessages with
              | firstSystemMessage :: _ =>
                  m <- Message_new "system"
                         (PlainText (extractTextContent firstSystemMessage)) role_system
                         None None ;;
                  ret [m]
              | [] => ret []
              end ;;
            regular <- formatRegularMessages f nonSystemMessages ;;
            ret (firstSystem ++ regular)
        | handling_separate =>
            system <- formatRegularMessages f systemMessages ;;
            regular <- formatRegularMessages f nonSystemMessages ;;
            ret (system ++ regular)
        end ;;
      ret (postProcess f formattedMessages).

End Format.

End OpenAIChatFormatter.

(** The name, content, role and metadata of a message: all but its
    identifier. *)
Definition unidentified (m : Message) : string * MessageContent * MessageRole * jsval :=
  (msg_name m, content m, role m, metadata m).
(** ** OpenAIChatModel.ts: turning messages into request parameters *)

Module OpenAIMessages.

(** One entry of [tool_calls] of an assistant message. *)
Record ToolCallParam : Type := mkToolCallParam {
  call_id : string;
  call_name : string;
  call_arguments : string
}.

(** [ChatCompletionMessageParam], with every field optional but the
    role. [p_tool_calls] is [None] when the object has no such key. *)
Record MessageParam : Type := mkMessageParam {
  p_role : string;
  p_content : option string;
  p_name : option string;
  p_tool_calls : option (list ToolCallParam);
  p_tool_call_id : option string
}.

Definition text_param (r : MessageRole) (name text : string) : MessageParam :=
  mkMessageParam (role_name r) (Some text)
    (if negb (String.eqb name (role_name r)) then Some name else None) None None.

Definition tool_calls_param (calls : list ToolCallParam) : MessageParam :=
  mkMessageParam "assistant" None None (Some calls) None.

Definition tool_param (output : option string) (toolCallId : string) : MessageParam :=
  mkMessageParam "tool" output None None (Some toolCallId).

(** [string | IMessage[]] *)
Inductive ModelInput : Type :=
| InputString (s : string)
| InputMessages (messages : list Message).

Definition tool_result_of_block (b : ContentBlock) : option ToolResultBlock :=
  match b with
  | ToolResult r => Some r
  | _ => None
  end.

Section Convert.

(** [JSON.stringify] on the input of a tool call and on the output of a
    tool result; the latter gives [undefined] on some values. *)
Variable stringify_input : JsRecord -> string.
Variable stringify_output : jsval -> option string.

(** The loop over the tool results of one message. *)
Fixpoint push_tool_results (blocks : list ToolResultBlock)
    (result : list MessageParam) (pendingToolCalls : JsMap.t string ToolCallParam)
    : list MessageParam * JsMap.t string ToolCallParam :=
  match blocks with
  | [] => (result, pendingToolCalls)
  | block :: rest =>
      let toolCallId := tr_id block in
      if JsMap.has toolCallId pendingToolCalls then
        let output :=
          match tr_output block with
          | JsStr s => Some s
          | other => stringify_output other
          end in
        push_tool_results rest (result ++ [tool_param output toolCallId])
          (JsMap.delete toolCallId pendingToolCalls)
      else push_tool_results rest result pendingToolCalls
  end.

(** The body of the loop over the messages. *)
Definition convert_message (msg : Message)
    (result : list MessageParam) (pendingToolCalls : JsMap.t string ToolCallParam)
    : list MessageParam * JsMap.t string ToolCallParam :=
  match content msg with
  | PlainText s => (result ++ [text_param (role msg) (msg_name msg) s], pendingToolCalls)
  | Structured blocks =>
      let textBlocks := List.filter is_text_block blocks in
      let toolUseBlocks := omap tool_use_of_block blocks in
      let toolResultBlocks := omap tool_result_of_block blocks in
      let result :=
        if (0 <? length textBlocks)%nat
        then result ++ [text_param (role msg) (msg_name msg) (joined_text blocks)]
        else result in
      let '(result, pendingToolCalls) :=
        if (0 <? length toolUseBlocks)%nat
           && match role msg with role_assistant => true | _ => false end
        then
          let toolCalls :=
            map (fun block =>
                   mkToolCallParam (tu_id block) (tu_name block)
                     (stringify_input (tu_input block)))
                toolUseBlocks in
          (result ++ [tool_calls_param toolCalls],
           fold_left (fun pending call => JsMap.set (call_id call) call pending)
             toolCalls pendingToolCalls)
        else (result, pendingToolCalls) in
      push_tool_results toolResultBlocks result pendingToolCalls
  | OtherContent _ => (result, pendingToolCalls)
  end.

Fixpoint convert_loop (messages : list Message)
    (result : list MessageParam) (pendingToolCalls : JsMap.t string ToolCallParam)
    : list MessageParam * JsMap.t string ToolCallParam :=
  match messages with
  | [] => (result, pendingToolCalls)
  | msg :: rest =>
      let '(result, pendingToolCalls) := convert_message msg result pendingToolCalls in
      convert_loop rest result pendingToolCalls
  end.

(** [msg.role === 'assistant' && 'tool_calls' in msg && msg.tool_calls] *)
Definition assistant_calls (msg : MessageParam) : option (list ToolCallParam) :=
  if String.eqb (p_role msg) "assistant" then p_tool_calls msg else None.

(** What the backward loop does to the message it stops at: the calls
    still pending are taken out; a message left with neither content
    nor calls is removed. *)
Definition without_unpaired (pendingToolCalls : JsMap.t string ToolCallParam)
    (msg : MessageParam) (calls : list ToolCallParam) : list MessageParam :=
  let kept :=
    List.filter (fun call => negb (JsMap.has (call_id call) pendingToolCalls)) calls in
  let tool_calls := if (length kept =? 0)%nat then None else Some kept in
  let content_empty :=
    match p_content msg with
    | Some s => String.eqb s ""
    | None => true
    end in
  let no_calls := match tool_calls with Some _ => false | None => true end in
  if content_empty && no_calls then []
  else [mkMessageParam (p_role msg) (p_content msg) (p_name msg) tool_calls
          (p_tool_call_id msg)].

(** The loop [for (let i = result.length - 1; i >= 0; i--)]: the
    messages after the loop, and whether it stopped at one. *)
Fixpoint remove_unpaired (pendingToolCalls : JsMap.t string ToolCallParam)
    (result : list MessageParam) : list MessageParam * bool :=
  match result with
  | [] => ([], false)
  | msg :: later =>
      let '(later', stopped) := remove_unpaired pendingToolCalls later in
      if stopped then (msg :: later', true)
      else
        match assistant_calls msg with
        | Some calls =>
            if existsb (fun call => JsMap.has (call_id call) pendingToolCalls) calls
            then (without_unpaired pendingToolCalls msg calls ++ later, true)
            else (msg :: later, false)
        | None => (msg :: later, false)
        end
  end.

Definition convertMessages (messages : ModelInput) : list MessageParam :=
  match messages with
  | InputString s => [mkMessageParam "user" (Some s) None None None]
  | InputMessages messages =>
      let '(result, pendingToolCalls) := convert_loop messages [] JsMap.empty in
      if (0 <? length pendingToolCalls)%nat
      then fst (remove_unpaired pendingToolCalls result)
      else result
  end.

End Convert.

(** What the properties of the conversion are stated with. *)

(** The identifier of a message with role tool. *)
Definition answered_call (msg : MessageParam) : option string :=
  if String.eqb (p_role msg) "tool" then p_tool_call_id msg else None.

(** The identifiers an assistant message requests. *)
Definition requested_calls (msg : MessageParam) : list string :=
  match assistant_calls msg with
  | Some calls => map call_id calls
  | None => []
  end.

(** Every tool message comes after an assistant message that requests
    its call; [seen] are the calls requested before the list begins. *)
Fixpoint results_follow_requests (seen : list string) (msgs : list MessageParam) : Prop :=
  match msgs with
  | [] => True
  | msg :: later =>
      match answered_call msg with
      | Some toolCallId => toolCallId ∈ seen
      | None => True
      end /\
      results_follow_requests (seen ++ requested_calls msg) later
  end.

End OpenAIMessages.
(** ** ReActAgent.ts: the methods beside the loop *)

Section AgentMethods.
Context `{Runtime}.

(** [observe(msg)] *)
Definition observe (msg : MessageInput) : M unit := InMemoryMemory.add msg.

Definition interrupt_text : string := "我注意到您打断了我。有什么我可以为您做的吗？".

(** [handleInterrupt()] of ReActAgent *)
Definition handleInterrupt (a : Agent) : M Message :=
  id <- generateUuid ;;
  let responseMsg := new_Message id (name a) (PlainText interrupt_text) role_assistant in
  print responseMsg true ;;;
  memory_add [responseMsg] ;;;
  ret responseMsg.

End AgentMethods.
(** * What the further properties are stated with *)

(** ** The short-term memory *)



(** ** Tool responses and the toolkit *)

(** The positional arguments for the parameters [paramNames]: the value
    the input has for each name, [undefined] where it has none. *)
Definition positional (paramNames : list string) (input : JsRecord) : list jsval :=
  map (fun paramName => if js_in paramName input then js_get paramName input else JsUndefined)
    paramNames.

(** The generator [callToolFunction] makes of what a tool implementation
    did. *)
Definition generator_of (outcome : ToolOutcome) : AsyncGenerator :=
  match outcome with
  | ToolThrows e => ToolkitOps.createErrorGenerator ("工具函数执行失败: " +:+ String_of_error e)
  | ToolReturns r => ToolkitOps.wrapInAsyncGenerator r
  | ToolGenerator chunks fail => GenChunks chunks fail
  end.

(** A parameter name as a function signature gives it: not empty, not
    the rest parameter, and not a number; and not [__proto__], which a
    plain object cannot hold as a key that is assigned to it. *)
Definition signature_name (param : string) : Prop :=
  param <> "" /\ param <> "...args" /\ JsObject.array_index param = None /\
  param <> "__proto__".

(** A toolkit after a series of calls. *)
Definition after_calls (calls : list ToolkitCall) (tk : Toolkit) : Toolkit :=
  fold_left (fun acc c => after_call c acc) calls tk.

(** Every tool is stored under its own name. *)
Definition stored_by_name (tk : Toolkit) : Prop :=
  forall (n : string) (tool : ToolFunctionMetadata),
    tools tk !! n = Some tool -> tool_name tool = n.

(** ** The model gateway *)

(** The choices a backend stream delivers; a chunk without a choice is
    passed over. *)
Definition delivered (stream : list (option OpenAIChatModel.ChunkChoice))
    : list OpenAIChatModel.ChunkChoice :=
  omap id stream.

(** The text of the deltas of some choices, one after the other, after
    [text]. *)
Definition deltas_after (text : string) (choices : list OpenAIChatModel.ChunkChoice) : string :=
  fold_left
    (fun acc choice =>
       if OpenAIChatModel.string_truthy (OpenAIChatModel.delta_content choice)
       then acc +:+ default "" (OpenAIChatModel.delta_content choice)
       else acc)
    choices text.

(** The calls the assistant messages of a list request. *)
Definition requested_in (msgs : list OpenAIMessages.MessageParam) : list string :=
  flat_map OpenAIMessages.requested_calls msgs.

(** Every tool message whose call is still pending is followed by an
    assistant message that requests the call again; [extra] are calls
    requested after the list ends. *)
Fixpoint pending_requested_again (pending : JsMap.t string OpenAIMessages.ToolCallParam)
    (extra : list string) (msgs : list OpenAIMessages.MessageParam) : Prop :=
  match msgs with
  | [] => True
  | msg :: later =>
      match OpenAIMessages.answered_call msg with
      | Some toolCallId =>
          JsMap.has toolCallId pending = true -> toolCallId ∈ requested_in later ++ extra
      | None => True
      end /\
      pending_requested_again pending extra later
  end.

(** What holds of the messages built so far and the calls pending. *)
Definition conversion_invariant (result : list OpenAIMessages.MessageParam)
    (pending : JsMap.t string OpenAIMessages.ToolCallParam) : Prop :=
  OpenAIMessages.results_follow_requests [] result /\
  (forall x, JsMap.has x pending = true -> x ∈ requested_in result) /\
  pending_requested_again pending [] result.

(** No assistant message of the list requests a call that is pending. *)
Definition none_pending (pending : JsMap.t string OpenAIMessages.ToolCallParam) (msgs : list OpenAIMessages.MessageParam)
    : Prop :=
  forall x, x ∈ requested_in msgs -> JsMap.has x pending = false.

(** ** The formatter *)

(** What [formatSingleMessage] makes of a message, without the
    identifier. *)
Definition formatted_shape (f : OpenAIChatFormatter.t) (msg : Message)
    : string * MessageContent * MessageRole * jsval :=
  (if OpenAIChatFormatter.includeNames f then msg_name msg else role_name (role msg),
   OpenAIChatFormatter.formatted_content (content msg),
   role msg,
   if truthy (metadata msg) then metadata msg else JsObj []).

(** The message is not empty once it is formatted. *)
Definition survives (msg : Message) : bool :=
  OpenAIChatFormatter.nonEmpty
    (setContent (OpenAIChatFormatter.formatted_content (content msg)) msg).

(** The system message the formatter makes of a text. *)
Definition system_shape (text : string) : string * MessageContent * MessageRole * jsval :=
  ("system", PlainText text, role_system, JsObj []).

(** The text of the merged system message. *)
Definition merged_system_text (msgs : list Message) : string :=
  join (newline +:+ newline)
    (List.filter (fun c => negb (blank c))
       (map OpenAIChatFormatter.extractTextContent (List.filter is_system msgs))).

(** The text of the first system message, if there is one. *)
Definition first_system_text (msgs : list Message) : option string :=
  match List.filter is_system msgs with
  | firstSystemMessage :: _ => Some (OpenAIChatFormatter.extractTextContent firstSystemMessage)
  | [] => None
  end.

(** ** What a computation of the agent keeps *)

(** Whatever state the computation starts in and however it ends, the
    state it leaves is related to the one it started in. *)
Definition keeps {A : Type} (R : State -> State -> Prop) (m : M A) : Prop :=
  forall s : State, R s (snd (m s)).

(** The log only grew. *)
Definition log_extended (s s' : State) : Prop := memory s `prefix_of` memory s'.

(** The same names are registered. *)
Definition same_registrations (s s' : State) : Prop :=
  forall n : string, is_Some (tools (toolkit s') !! n) <-> is_Some (tools (toolkit s) !! n).



(** * More concrete messages, toolkits, formatters and hooks *)

Module MoreSamples.
Import Samples.

(** *** Messages *)

Definition greeting : Message := MessageFactory.createUserMessage "q-2" "hello" "user".

Definition be_brief : Message := new_Message "s-1" "system" (PlainText "Be brief.") role_system.

Definition be_kind : Message := new_Message "s-2" "system" (PlainText "Be kind.") role_system.

Definition tool_request : Message :=
  new_Message "a-1" "assistant" (Structured [ToolUse progress_call]) role_assistant.

(** *** Formatters *)

Definition merging : OpenAIChatFormatter.t :=
  OpenAIChatFormatter.mkFormatter true handling_merge.

(** *** A tool with two parameters *)

Definition weather_input : JsRecord := [("unit", JsStr "C"); ("city", JsStr "Oslo")].

Definition weather_body (args : list jsval) : ToolOutcome :=
  ToolGenerator [new_ToolResponse "sunny" (mkToolMetadata (Some true) None None []) true] None.

(** *** An agent with the meta tool and one more tool *)

Definition meta_config : AgentConfig :=
  mkAgentConfig "assistant" "You are a helpful assistant." (answers [Text "4"]) FormattedMessages
    (Some progress_toolkit) None None None (Some true) (Some false) None.
Definition meta_agent : Agent := fst (new_ReActAgent meta_config).
Definition meta_state : State := snd (new_ReActAgent meta_config).

Definition reset_equipped_tools_tool : ToolFunctionMetadata :=
  mkToolFunctionMetadata "reset_equipped_tools" createResetToolsWrapper_bound
    "重置装备的工具列表" reset_equipped_tools_schema None.

(** A request to equip the progress tool alone. *)
Definition reset_call : ToolUseBlock :=
  mkToolUse "call-8" "reset_equipped_tools" [("toolNames", JsArr [JsStr "progress"])].

(** *** A hook on the acting step that answers [null] after the step *)

Definition silencing : HookFunction ToolUseBlock (option Message) :=
  mkHook (fun _ => HookUndefined) (fun _ _ => HookNull).

Definition silenced_agent : Agent :=
  mkAgent (name plain_agent) (className plain_agent) (finishFunctionName plain_agent)
    (sysPrompt plain_agent) (maxIters plain_agent) (model plain_agent) (formatter plain_agent)
    (longTermMemory plain_agent) (longTermMemoryMode plain_agent) (enableMetaTool plain_agent)
    (parallelToolCalls plain_agent) (staticControl plain_agent) (agentControl plain_agent)
    (reasoningHooks plain_agent)
    (registerInstanceStepHook "silence" silencing no_step_hooks).

End MoreSamples.

(** * Hook chains *)

Module HookFacts.
Section Chains.
Context {Args Out : Type}.

Lemma run_pre_hooks_scope (scope : HookScope) (hooks : list (string * HookFunction Args Out)) :
  forall args : Args,
    Forall (fun run => run_scope run = scope) (snd (run_pre_hooks scope hooks args)).
Proof.
  induction hooks as [| [n hook] rest IH]; intros args; simpl; [constructor |].
  specialize (IH (match call_pre hook args with HookReturns r => r | _ => args end)).
  destruct (run_pre_hooks scope rest _) as [final log]. simpl in *.
  by constructor.
Qed.

Lemma run_post_hooks_scope (scope : HookScope) (hooks : list (string * HookFunction Args Out))
    (args : Args) :
  forall output : Out,
    Forall (fun run => run_scope run = scope) (snd (run_post_hooks scope hooks args output)).
Proof.
  induction hooks as [| [n hook] rest IH]; intros output; simpl; [constructor |].
  specialize (IH (match call_post hook args output with HookReturns r => r | _ => output end)).
  destruct (run_post_hooks scope rest args _) as [final log]. simpl in *.
  by constructor.
Qed.

Lemma run_pre_hooks_names (scope : HookScope) (hooks : list (string * HookFunction Args Out)) :
  forall args : Args,
    map run_name (snd (run_pre_hooks scope hooks args)) = map fst hooks.
Proof.
  induction hooks as [| [n hook] rest IH]; intros args; simpl; [done |].
  specialize (IH (match call_pre hook args with HookReturns r => r | _ => args end)).
  destruct (run_pre_hooks scope rest _) as [final log]. simpl in *. by rewrite IH.
Qed.

Lemma run_post_hooks_names (scope : HookScope) (hooks : list (string * HookFunction Args Out))
    (args : Args) :
  forall output : Out,
    map run_name (snd (run_post_hooks scope hooks args output)) = map fst hooks.
Proof.
  induction hooks as [| [n hook] rest IH]; intros output; simpl; [done |].
  specialize (IH (match call_post hook args output with HookReturns r => r | _ => output end)).
  destruct (run_post_hooks scope rest args _) as [final log]. simpl in *. by rewrite IH.
Qed.

Lemma run_pre_hooks_threaded (scope : HookScope) (hooks : list (string * HookFunction Args Out)) :
  forall args : Args, threaded hooks args (snd (run_pre_hooks scope hooks args)).
Proof.
  induction hooks as [| [n hook] rest IH]; intros args; simpl; [done |].
  specialize (IH (match call_pre hook args with HookReturns r => r | _ => args end)).
  destruct (run_pre_hooks scope rest _) as [final log]. simpl in *. by repeat split.
Qed.

(** In every pre chain of AgentBase the class hooks all run before the
    instance hooks. *)
Lemma applyPreHooks_class_first (className : string) (h : AgentBaseHooks Args Out)
    (hookType : AgentHookTypes) (args : Args) :
  exists classLog instanceLog,
    snd (applyPreHooks className h hookType args) = classLog ++ instanceLog /\
    Forall (fun run => run_scope run = ClassScope) classLog /\
    Forall (fun run => run_scope run = InstanceScope) instanceLog /\
    map run_name classLog = map fst (class_hooks_for className hookType h) /\
    map run_name instanceLog = map fst (instance_hooks_for hookType h).
Proof.
  unfold applyPreHooks.
  pose proof (run_pre_hooks_scope ClassScope (class_hooks_for className hookType h) args) as Hc.
  pose proof (run_pre_hooks_names ClassScope (class_hooks_for className hookType h) args) as Hcn.
  destruct (run_pre_hooks ClassScope _ args) as [mid classLog]. simpl in Hc, Hcn.
  pose proof (run_pre_hooks_scope InstanceScope (instance_hooks_for hookType h) mid) as Hi.
  pose proof (run_pre_hooks_names InstanceScope (instance_hooks_for hookType h) mid) as Hin.
  destruct (run_pre_hooks InstanceScope _ mid) as [final instanceLog]. simpl in *.
  by exists classLog, instanceLog.
Qed.

Lemma applyPostHooks_class_first (className : string) (h : AgentBaseHooks Args Out)
    (hookType : AgentHookTypes) (args : Args) (output : Out) :
  exists classLog instanceLog,
    snd (applyPostHooks className h hookType args output) = classLog ++ instanceLog /\
    Forall (fun run => run_scope run = ClassScope) classLog /\
    Forall (fun run => run_scope run = InstanceScope) instanceLog.
Proof.
  unfold applyPostHooks.
  pose proof (run_post_hooks_scope ClassScope (class_hooks_for className hookType h) args output)
    as Hc.
  destruct (run_post_hooks ClassScope _ args output) as [mid classLog]. simpl in Hc.
  pose proof (run_post_hooks_scope InstanceScope (instance_hooks_for hookType h) args mid) as Hi.
  destruct (run_post_hooks InstanceScope _ args mid) as [final instanceLog]. simpl in *.
  by exists classLog, instanceLog.
Qed.

(** The same for the pre chains of the reasoning and acting steps, whose
    hooks run in the order of their Maps. *)
Lemma applyPreStepHooks_class_first (className : string) (h : StepHooks Args Out) (args : Args) :
  exists classLog instanceLog,
    snd (applyPreStepHooks className h args) = classLog ++ instanceLog /\
    Forall (fun run => run_scope run = ClassScope) classLog /\
    Forall (fun run => run_scope run = InstanceScope) instanceLog /\
    map run_name classLog = map fst (class_step_hooks_for className h) /\
    map run_name instanceLog = map fst (JsMap.entries (instanceStepHooks h)).
Proof.
  unfold applyPreStepHooks.
  pose proof (run_pre_hooks_scope ClassScope (class_step_hooks_for className h) args) as Hc.
  pose proof (run_pre_hooks_names ClassScope (class_step_hooks_for className h) args) as Hcn.
  destruct (run_pre_hooks ClassScope _ args) as [mid classLog]. simpl in Hc, Hcn.
  pose proof (run_pre_hooks_scope InstanceScope (JsMap.entries (instanceStepHooks h)) mid) as Hi.
  pose proof (run_pre_hooks_names InstanceScope (JsMap.entries (instanceStepHooks h)) mid) as Hin.
  destruct (run_pre_hooks InstanceScope _ mid) as [final instanceLog]. simpl in *.
  by exists classLog, instanceLog.
Qed.

(** And for the post chain of the reasoning step. *)
Lemma applyPostReasoningHooks_class_first (className : string) (h : StepHooks Args Out)
    (args : Args) (output : Out) :
  exists classLog instanceLog,
    snd (applyPostReasoningHooks className h args output) = classLog ++ instanceLog /\
    Forall (fun run => run_scope run = ClassScope) classLog /\
    Forall (fun run => run_scope run = InstanceScope) instanceLog /\
    map run_name classLog = map fst (class_step_hooks_for className h) /\
    map run_name instanceLog = map fst (JsMap.entries (instanceStepHooks h)).
Proof.
  unfold applyPostReasoningHooks.
  pose proof (run_post_hooks_scope ClassScope (class_step_hooks_for className h) args output)
    as Hc.
  pose proof (run_post_hooks_names ClassScope (class_step_hooks_for className h) args output)
    as Hcn.
  destruct (run_post_hooks ClassScope _ args output) as [mid classLog]. simpl in Hc, Hcn.
  pose proof (run_post_hooks_scope InstanceScope (JsMap.entries (instanceStepHooks h)) args mid)
    as Hi.
  pose proof (run_post_hooks_names InstanceScope (JsMap.entries (instanceStepHooks h)) args mid)
    as Hin.
  destruct (run_post_hooks InstanceScope _ args mid) as [final instanceLog]. simpl in *.
  by exists classLog, instanceLog.
Qed.

End Chains.

Section ActingPostChain.
Context {Args M : Type}.

Lemma run_post_acting_hooks_scope (scope : HookScope)
    (hooks : list (string * HookFunction Args (option M))) (args : Args) :
  forall output : option M,
    Forall (fun run => run_scope run = scope)
      (snd (run_post_acting_hooks scope hooks args output)) /\
    map run_name (snd (run_post_acting_hooks scope hooks args output)) = map fst hooks.
Proof.
  induction hooks as [| [n hook] rest IH]; intros output; simpl; [by split |].
  match goal with
  | |- context [run_post_acting_hooks scope rest args ?next] =>
      destruct (IH next) as [Hscope Hnames];
      destruct (run_post_acting_hooks scope rest args next) as [final log]
  end.
  simpl in *. split; [by constructor | by rewrite Hnames].
Qed.

(** The post chain of the acting step, too, runs the class hooks first,
    each scope in the order of its Map. *)
Lemma applyPostActingHooks_class_first (className : string)
    (h : StepHooks Args (option M)) (args : Args) (output : option M) :
  exists classLog instanceLog,
    snd (applyPostActingHooks className h args output) = classLog ++ instanceLog /\
    Forall (fun run => run_scope run = ClassScope) classLog /\
    Forall (fun run => run_scope run = InstanceScope) instanceLog /\
    map run_name classLog = map fst (class_step_hooks_for className h) /\
    map run_name instanceLog = map fst (JsMap.entries (instanceStepHooks h)).
Proof.
  unfold applyPostActingHooks.
  destruct (run_post_acting_hooks_scope ClassScope (class_step_hooks_for className h) args
              output) as [Hc Hcn].
  destruct (run_post_acting_hooks ClassScope _ args output) as [mid classLog]. simpl in Hc, Hcn.
  destruct (run_post_acting_hooks_scope InstanceScope (JsMap.entries (instanceStepHooks h))
              args mid) as [Hi Hin].
  destruct (run_post_acting_hooks InstanceScope _ args mid) as [final instanceLog]. simpl in *.
  by exists classLog, instanceLog.
Qed.

End ActingPostChain.

(** A Map keeps the order in which new keys were set. *)
Lemma JsMap_has_false {V : Type} (k : string) (m : JsMap.t string V) :
  k ∉ map fst m -> JsMap.has k m = false.
Proof.
  unfold JsMap.has. induction m as [| [k' v] rest IH]; intros Hk; simpl; [done |].
  simpl in Hk. apply not_elem_of_cons in Hk as [Hne Hk].
  destruct (decide (k = k')); [done |]. auto.
Qed.

Lemma JsMap_set_new {V : Type} (k : string) (v : V) (m : JsMap.t string V) :
  k ∉ map fst m -> JsMap.set k v m = m ++ [(k, v)].
Proof. intros Hk. unfold JsMap.set. by rewrite JsMap_has_false. Qed.

Lemma register_instance_step_hooks_order {Args Out : Type}
    (regs : list (string * HookFunction Args Out)) :
  forall h : StepHooks Args Out,
  NoDup (map fst (instanceStepHooks h) ++ map fst regs) ->
  instanceStepHooks (register_instance_step_hooks regs h) = instanceStepHooks h ++ regs.
Proof.
  unfold register_instance_step_hooks.
  induction regs as [| [n hook] rest IH]; intros h Hnd; simpl.
  - by rewrite app_nil_r.
  - rewrite IH.
    + simpl. rewrite JsMap_set_new.
      * by rewrite <- app_assoc.
      * simpl in Hnd. apply NoDup_app in Hnd as (_ & Hdis & _).
        intros Hin. apply (Hdis n Hin). apply elem_of_cons. by left.
    + simpl. rewrite JsMap_set_new.
      * rewrite map_app. simpl. by rewrite <- app_assoc.
      * simpl in Hnd. apply NoDup_app in Hnd as (_ & Hdis & _).
        intros Hin. apply (Hdis n Hin). apply elem_of_cons. by left.
Qed.

(** A plain object behaves like a Map as long as no key is an array
    index or [__proto__]. *)
Lemma JsObject_set_plain_key {V : Type} (k : string) (v : V) (o : JsObject.t V) :
  JsObject.array_index k = None -> k <> "__proto__" -> JsObject.set k v o = JsMap.set k v o.
Proof.
  intros Hk Hproto. unfold JsObject.set, JsMap.set, JsObject.has.
  apply String.eqb_neq in Hproto. by rewrite Hproto, Hk.
Qed.

(** Assigning to [__proto__] leaves the properties of the object as
    they are. *)
Lemma JsObject_set_proto {V : Type} (v : V) (o : JsObject.t V) :
  JsObject.set "__proto__" v o = o.
Proof. reflexivity. Qed.

Lemma store_all_order {V : Type} (regs : list (string * V)) :
  forall o : JsObject.t V,
  Forall (fun reg => JsObject.array_index (fst reg) = None /\ fst reg <> "__proto__") regs ->
  NoDup (map fst o ++ map fst regs) ->
  JsObject.entries (store_all regs o) = JsObject.entries o ++ regs.
Proof.
  unfold store_all, JsObject.entries.
  induction regs as [| [n v] rest IH]; intros o Hplain Hnd; simpl.
  - by rewrite app_nil_r.
  - inversion Hplain as [| ? ? [Hn Hproto] Hrest]; subst. simpl in Hn, Hproto.
    assert (Hfresh : n ∉ map fst o).
    { simpl in Hnd. apply NoDup_app in Hnd as (_ & Hdis & _).
      intros Hin. apply (Hdis n Hin). apply elem_of_cons. by left. }
    rewrite JsObject_set_plain_key, JsMap_set_new by done.
    rewrite IH; [by rewrite <- app_assoc | done |].
    rewrite map_app. simpl. by rewrite <- app_assoc.
Qed.

End HookFacts.

(** * Facts about the containers *)

Module JsSetFacts.

Lemma has_true (x : string) (s : JsSet.t) : JsSet.has x s = true <-> x ∈ s.
Proof. unfold JsSet.has. apply bool_decide_eq_true. Qed.

Lemma elem_of_add (x y : string) (s : JsSet.t) : x ∈ JsSet.add y s <-> x = y \/ x ∈ s.
Proof.
  unfold JsSet.add. destruct (JsSet.has y s) eqn:Hy.
  - apply has_true in Hy. split; [auto | intros [-> | ?]; auto].
  - rewrite elem_of_app, list_elem_of_singleton. tauto.
Qed.

Lemma elem_of_delete (x y : string) (s : JsSet.t) : x ∈ JsSet.delete y s <-> x ∈ s /\ x <> y.
Proof.
  unfold JsSet.delete. rewrite !list_elem_of_In, filter_In, negb_true_iff, String.eqb_neq.
  split; intros [? ?]; split; auto.
Qed.

Lemma elem_of_fold_add (names : list string) (s : JsSet.t) (x : string) :
  x ∈ fold_left (fun acc name => JsSet.add name acc) names s <-> x ∈ names \/ x ∈ s.
Proof.
  revert s. induction names as [| n names IH]; intros s; simpl.
  - rewrite elem_of_nil. tauto.
  - rewrite IH, elem_of_add, elem_of_cons. tauto.
Qed.

End JsSetFacts.

(** * The toolkit keeps its equipped tools registered *)

Module ToolkitFacts.
Import ToolkitOps.

Lemma new_Toolkit_equipped_registered : equipped_registered new_Toolkit.
Proof. intros n Hn. simpl in Hn. by apply elem_of_nil in Hn. Qed.

Lemma register_keeps (name : string) (meta : ToolFunctionMetadata) (tk : Toolkit) :
  equipped_registered tk ->
  equipped_registered
    (mkToolkit (<[name := meta]> (tools tk)) (JsSet.add name (equippedTools tk))).
Proof.
  intros Hinv n Hn. simpl in *. apply JsSetFacts.elem_of_add in Hn.
  destruct (decide (name = n)) as [-> | Hne].
  - rewrite lookup_insert_eq. eauto.
  - rewrite lookup_insert_ne by done. destruct Hn as [-> | Hn]; [done | auto].
Qed.

Lemma reset_invalid_nil (toolNames : list string) (tk : Toolkit) :
  List.filter (fun name => negb (bool_decide (is_Some (tools tk !! name)))) toolNames = [] ->
  forall n, n ∈ toolNames -> is_Some (tools tk !! n).
Proof.
  intros Hnil n Hn. apply list_elem_of_In in Hn.
  destruct (decide (is_Some (tools tk !! n))) as [Hs | Hs]; [done |].
  assert (Hin : In n (List.filter
    (fun name => negb (bool_decide (is_Some (tools tk !! name)))) toolNames)).
  { apply filter_In. split; [done |]. by rewrite bool_decide_eq_false_2. }
  rewrite Hnil in Hin. destruct Hin.
Qed.

Lemma reset_unknown_throws (toolNames : list string) (tk : Toolkit) (n : string) :
  n ∈ toolNames -> tools tk !! n = None ->
  exists e, resetEquippedTools toolNames tk = (Throw e, tk).
Proof.
  intros Hn Hnone. unfold resetEquippedTools.
  set (invalid := List.filter _ toolNames).
  assert (Hin : In n invalid).
  { apply filter_In. split; [by apply list_elem_of_In |].
    rewrite bool_decide_eq_false_2; [done |]. rewrite Hnone. by intros [? ?]. }
  destruct invalid as [| i rest]; [destruct Hin |]. simpl. eauto.
Qed.

Lemma reset_keeps_registry (toolNames : list string) (tk : Toolkit) :
  tools (snd (resetEquippedTools toolNames tk)) = tools tk.
Proof. unfold resetEquippedTools. by destruct (0 <? _)%nat. Qed.

Lemma after_call_keeps (c : ToolkitCall) (tk : Toolkit) :
  equipped_registered tk -> equipped_registered (after_call c tk).
Proof.
  intros Hinv. destruct c as [f name | f name d p | toolNames | toolName model | name |]; simpl.
  - by apply register_keeps.
  - by apply register_keeps.
  - unfold resetEquippedTools.
    destruct (0 <? length _)%nat eqn:Hlen; simpl; [done |].
    apply Nat.ltb_ge in Hlen. apply Nat.le_0_r, length_zero_iff_nil in Hlen.
    intros n Hn. simpl in *. apply JsSetFacts.elem_of_fold_add in Hn.
    destruct Hn as [Hn | Hn]; [by eapply reset_invalid_nil | by apply elem_of_nil in Hn].
  - intros n Hn. simpl in *. unfold setExtendedModel. simpl.
    rewrite lookup_alter. destruct (decide (toolName = n)) as [-> | ?].
    + destruct (Hinv n Hn) as [m Hm]. rewrite Hm. simpl. eauto.
    + auto.
  - unfold removeToolFunction. destruct (hasToolFunction name tk); simpl; [| done].
    intros n Hn. simpl in *. apply JsSetFacts.elem_of_delete in Hn as [Hn Hne].
    rewrite lookup_delete_ne by done. auto.
  - intros n Hn. simpl in Hn. by apply elem_of_nil in Hn.
Qed.

(** C9. The equipped set stays within the registry under every toolkit
    operation; resetEquippedTools never changes the registry, and when one
    of the names it is given is unknown it throws and leaves the toolkit
    as it was. *)
Theorem C9_equipped_subset_of_registered (tk : Toolkit) (Hinv : equipped_registered tk) :
  (forall c : ToolkitCall, equipped_registered (after_call c tk)) /\
  (forall toolNames : list string,
     tools (snd (resetEquippedTools toolNames tk)) = tools tk) /\
  (forall (toolNames : list string) (n : string),
     n ∈ toolNames -> tools tk !! n = None ->
     exists e, resetEquippedTools toolNames tk = (Throw e, tk)).
Proof.
  split; [| split].
  - intros c. by apply after_call_keeps.
  - intros. apply reset_keeps_registry.
  - intros. by eapply reset_unknown_throws.
Qed.

End ToolkitFacts.

(** * Invoking a tool *)

Module InvokeFacts.
Import ToolkitOps.

Lemma validate_required_missing (input : JsRecord) (reqs : list string) (r : string) :
  r ∈ reqs -> js_in r input = false ->
  exists e, validate_required input reqs = Throw e.
Proof.
  intros Hr Hmiss. induction reqs as [| q reqs IH]; [by apply elem_of_nil in Hr |].
  simpl. destruct (js_in q input) eqn:Hq; simpl; [| eauto].
  apply elem_of_cons in Hr as [-> | Hr]; [congruence | auto].
Qed.

(** A call that leaves out a required parameter gets the error generator. *)
Lemma callToolFunction_missing_required (tk : Toolkit) (toolCall : ToolUseBlock)
    (tool : ToolFunctionMetadata) (reqs : list string) (r : string) :
  tools tk !! tu_name toolCall = Some tool ->
  required (parameters tool) = Some reqs ->
  r ∈ reqs ->
  js_in r (tu_input toolCall) = false ->
  exists errorMessage,
    callToolFunction toolCall tk = createErrorGenerator errorMessage.
Proof.
  intros Htool Hreq Hr Hmiss. unfold callToolFunction.
  destruct (negb (JsSet.has _ _)); [eauto |].
  rewrite Htool. unfold validateInput. rewrite Hreq.
  destruct (validate_required_missing _ _ _ Hr Hmiss) as [e ->]. eauto.
Qed.

End InvokeFacts.
(** * Calls that run side by side *)

Section TaskFacts.

(** ** A call run on its own *)





(** ** One call started alone *)






(** ** Calls that obey *)

Section Obeys.
Context {A : Type}.
Variable I : State -> Prop.
Variable G : nat -> State -> State -> Prop.

Lemma obeys_settled (Q : A -> Prop) (x : A) : Q x -> obeys I G Q 0 (Settled (Ok x)).
Proof. by split. Qed.

Lemma obeys_stretch (Q : A -> Prop) (n : nat) (m : M A) :
  (forall s, I s -> exists x, fst (m s) = Ok x /\ Q x /\ G n s (snd (m s))) ->
  obeys I G Q n (stretch m).
Proof.
  intros Hm s Hs. destruct (Hm s Hs) as (x & Hx & HQ & HG).
  exists n. split; [lia |]. split; [exact HG |].
  rewrite Hx, Nat.sub_diag. by split.
Qed.

Lemma obeys_weaken (Q Q' : A -> Prop) (t : Task A) :
  (forall x, Q x -> Q' x) ->
  forall n, obeys I G Q n t -> obeys I G Q' n t.
Proof.
  intros HQ. induction t as [[x | e] | continue_as IH effect]; intros n; simpl.
  - intros [Hn Hx]. auto.
  - done.
  - intros Ht s Hs. destruct (Ht s Hs) as (k & Hk & HG & Hnext).
    exists k. split; [done |]. split; [done |]. by apply IH.
Qed.

End Obeys.

Lemma obeys_and_then {A B : Type} (I : State -> Prop) (G : nat -> State -> State -> Prop)
    (Q1 : A -> Prop) (Q2 : B -> Prop) (n2 : nat) (t : Task A) (k : A -> Task B) :
  (forall x, Q1 x -> obeys I G Q2 n2 (k x)) ->
  forall n1, obeys I G Q1 n1 t -> obeys I G Q2 (n1 + n2) (and_then t k).
Proof.
  intros Hk. induction t as [[x | e] | continue_as IH effect]; intros n1; simpl.
  - intros [-> Hx]. by apply Hk.
  - done.
  - intros Ht s Hs. destruct (Ht s Hs) as (j & Hj & HG & Hnext).
    exists j. split; [lia |]. split; [exact HG |].
    replace (n1 + n2 - j)%nat with (n1 - j + n2)%nat by lia. by apply IH.
Qed.

(** ** Running calls that obey *)

Section Running.
Context {A : Type}.
Variable I : State -> Prop.
Variable G : nat -> State -> State -> Prop.
Hypothesis G_refl : forall s, G 0 s s.
Hypothesis G_trans :
  forall j k s1 s2 s3, G j s1 s2 -> G k s2 s3 -> G (j + k) s1 s3.
Hypothesis I_stable : forall k s s', I s -> G k s s' -> I s'.

Lemma run_to_end_obeys (Q : A -> Prop) (t : Task A) :
  forall (n : nat) (s : State),
    obeys I G Q n t -> I s ->
    exists x s', run_to_end t s = (Ok x, s') /\ Q x /\ G n s s'.
Proof.
  induction t as [[x | e] | continue_as IH effect]; intros n s Ht Hs; simpl in *.
  - destruct Ht as [-> Hx]. exists x, s. by repeat split.
  - done.
  - destruct (Ht s Hs) as (k & Hk & HG & Hnext).
    destruct (IH s (n - k)%nat (effect s) Hnext (I_stable _ _ _ Hs HG)) as (x & s' & Hrun & Hx & HG').
    exists x, s'. split; [exact Hrun |]. split; [exact Hx |].
    replace n with (k + (n - k))%nat by lia. by eapply G_trans.
Qed.

Lemma all_obey_lengths (Qs : list (A -> Prop)) :
  forall (total : nat) (tasks : list (Task A)),
    all_obey I G Qs total tasks -> length tasks = length Qs.
Proof.
  induction Qs as [| Q Qs IH]; intros total [| t tasks] Hall; simpl in *; try done.
  destruct Hall as (n & _ & _ & Hrest). f_equal. by eapply IH.
Qed.

Lemma all_obey_not_rejected (Qs : list (A -> Prop)) :
  forall (total : nat) (tasks : list (Task A)),
    all_obey I G Qs total tasks -> rejected_already tasks = None.
Proof.
  induction Qs as [| Q Qs IH]; intros total [| t tasks] Hall; simpl in *; try done.
  destruct Hall as (n & _ & Ht & Hrest).
  destruct t as [[x | e] | continue_as effect]; simpl in *; [| done |]; by eapply IH.
Qed.

Lemma resume_cons (index : nat) (t : Task A) (tasks : list (Task A)) (s : State) :
  resume (S index) (t :: tasks) s =
  let '(tasks', newly, s') := resume index tasks s in (t :: tasks', newly, s').
Proof.
  unfold resume. simpl.
  destruct (tasks !! index) as [[outcome | continue_as effect] |]; reflexivity.
Qed.

Lemma resume_obeys (Qs : list (A -> Prop)) :
  forall (index total : nat) (tasks : list (Task A)) (s : State),
    all_obey I G Qs total tasks -> I s ->
    exists tasks' s' k,
      resume index tasks s = (tasks', None, s') /\
      (k <= total)%nat /\ G k s s' /\ all_obey I G Qs (total - k) tasks'.
Proof.
  induction Qs as [| Q Qs IH]; intros index total [| t tasks] s Hall Hs; simpl in Hall; try done.
  - exists [], s, 0%nat. unfold resume. rewrite lookup_nil.
    split; [done |]. split; [lia |]. split; [apply G_refl |]. simpl. lia.
  - destruct Hall as (n & Hn & Ht & Hrest).
    destruct index as [| index].
    + destruct t as [[x | e] | continue_as effect]; simpl in Ht.
      * exists (Settled (Ok x) :: tasks), s, 0%nat. split; [done |].
        split; [lia |]. split; [apply G_refl |]. simpl. exists n.
        rewrite Nat.sub_0_r. split; [done |]. split; [exact Ht | exact Hrest].
      * done.
      * destruct (Ht s Hs) as (k & Hk & HG & Hnext).
        exists (continue_as s :: tasks), (effect s), k.
        split.
        { unfold resume. simpl. f_equal. f_equal.
          destruct (continue_as s) as [[x | e] |]; simpl in *; done. }
        split; [lia |]. split; [exact HG |].
        simpl. exists (n - k)%nat. split; [lia |]. split; [exact Hnext |].
        by replace (total - k - (n - k))%nat with (total - n)%nat by lia.
    + destruct (IH index (total - n)%nat tasks s Hrest Hs)
        as (tasks' & s' & k & Hres & Hk & HG & Hall').
      exists (t :: tasks'), s', k. rewrite resume_cons, Hres.
      split; [done |]. split; [lia |]. split; [exact HG |].
      simpl. exists n. split; [lia |]. split; [exact Ht |].
      by replace (total - k - n)%nat with (total - n - k)%nat by lia.
Qed.

Lemma run_stretches_obeys (Qs : list (A -> Prop)) (order : list nat) :
  forall (total : nat) (tasks : list (Task A)) (s : State),
    all_obey I G Qs total tasks -> I s ->
    exists tasks' s' k,
      run_stretches order tasks None s = (tasks', None, s') /\
      (k <= total)%nat /\ G k s s' /\ all_obey I G Qs (total - k) tasks'.
Proof.
  induction order as [| index order IH]; intros total tasks s Hall Hs.
  - exists tasks, s, 0%nat. split; [done |]. split; [lia |]. split; [apply G_refl |].
    by rewrite Nat.sub_0_r.
  - destruct (resume_obeys Qs index total tasks s Hall Hs)
      as (tasks1 & s1 & k1 & Hres & Hk1 & HG1 & Hall1).
    destruct (IH (total - k1)%nat tasks1 s1 Hall1 (I_stable _ _ _ Hs HG1))
      as (tasks' & s' & k & Hrun & Hk & HG & Hall').
    exists tasks', s', (k1 + k)%nat. cbn [run_stretches]. rewrite Hres. simpl.
    split; [exact Hrun |]. split; [lia |]. split; [by eapply G_trans |].
    by replace (total - (k1 + k))%nat with (total - k1 - k)%nat by lia.
Qed.

Lemma settle_all_obeys (Qs : list (A -> Prop)) :
  forall (total : nat) (tasks : list (Task A)) (s : State),
    all_obey I G Qs total tasks -> I s ->
    exists results s',
      settle_all tasks None s = (map Ok results, None, s') /\
      Forall2 (fun Q x => Q x) Qs results /\ G total s s'.
Proof.
  induction Qs as [| Q Qs IH]; intros total [| t tasks] s Hall Hs; simpl in Hall; try done.
  - subst total. exists [], s. split; [done |]. split; [constructor | apply G_refl].
  - destruct Hall as (n & Hn & Ht & Hrest).
    destruct (run_to_end_obeys Q t n s Ht Hs) as (x & s1 & Hrun & Hx & HG1).
    destruct (IH (total - n)%nat tasks s1 Hrest (I_stable _ _ _ Hs HG1))
      as (results & s' & Hsettle & Hall' & HG).
    exists (x :: results), s'. cbn [settle_all]. rewrite Hrun.
    assert (Hnewly : match t with
                     | Suspended _ _ => @None JsError
                     | _ => None
                     end = None) by (by destruct t).
    destruct t as [outcome | continue_as effect]; cbn [first_rejection]; rewrite Hsettle;
      (split; [done |]); (split; [by constructor |]);
      replace total with (n + (total - n))%nat by lia; by eapply G_trans.
Qed.

(** Calls that obey are all fulfilled, in whatever order the runtime
    resumes them; each value is as its call promises, and the state
    changed as the calls together allow. *)
Lemma run_tasks_obeys (Qs : list (A -> Prop)) (order : list nat) (total : nat)
    (tasks : list (Task A)) (s : State) :
  all_obey I G Qs total tasks -> I s ->
  exists results s',
    run_tasks order tasks s = (map Ok results, None, s') /\
    Forall2 (fun Q x => Q x) Qs results /\ G total s s'.
Proof.
  intros Hall Hs. unfold run_tasks. rewrite (all_obey_not_rejected Qs total tasks Hall).
  destruct (run_stretches_obeys Qs order total tasks s Hall Hs)
    as (tasks1 & s1 & k & Hrun & Hk & HG1 & Hall1).
  rewrite Hrun.
  destruct (settle_all_obeys Qs (total - k)%nat tasks1 s1 Hall1 (I_stable _ _ _ Hs HG1))
    as (results & s' & Hsettle & Hres & HG).
  exists results, s'. split; [exact Hsettle |]. split; [exact Hres |].
  replace total with (k + (total - k))%nat by lia. by eapply G_trans.
Qed.

End Running.

Lemma gather_fulfilled {A : Type} (results : list A) : gather (map Ok results) = Ok results.
Proof. induction results as [| x rest IH]; simpl; [done |]. by rewrite IH. Qed.

(** The calls made for the items of a list, one for each. *)
Lemma all_obey_map {X A : Type} (I : State -> Prop) (G : nat -> State -> State -> Prop)
    (Q : X -> A -> Prop) (n : nat) (f : X -> Task A) (xs : list X) :
  (forall x, x ∈ xs -> obeys I G (Q x) n (f x)) ->
  all_obey I G (map Q xs) (length xs * n) (map f xs).
Proof.
  induction xs as [| x xs IH]; intros Hxs; simpl; [done |].
  exists n. split; [lia |]. split; [apply Hxs, elem_of_cons; by left |].
  replace (n + length xs * n - n)%nat with (length xs * n)%nat by lia.
  apply IH. intros y Hy. apply Hxs, elem_of_cons. by right.
Qed.

Lemma Forall2_map_positions {X A : Type} (Q : X -> A -> Prop) (xs : list X) (results : list A) :
  Forall2 (fun P x => P x) (map Q xs) results ->
  length results = length xs /\
  forall (k : nat) (x : X), xs !! k = Some x -> exists r, results !! k = Some r /\ Q x r.
Proof.
  intros Hall. apply Forall2_fmap_l in Hall. split.
  - symmetry. by eapply Forall2_length.
  - intros k x Hk. destruct (Forall2_lookup_l _ _ _ _ _ Hall Hk) as (r & Hr & HQ). eauto.
Qed.

End TaskFacts.

(** * Runs of the agent *)

Section Facts.
Context `{Runtime}.

(** ** The monad and the record of a run *)

Lemma bind_ok {A B : Type} (m : M A) (k : A -> M B) (s s' : State) (x : A) :
  m s = (Ok x, s') -> bind m k s = k x s'.
Proof. intros Hm. unfold bind. by rewrite Hm. Qed.

Lemma count_app (p : Event -> bool) (xs ys : list Event) :
  count p (xs ++ ys) = (count p xs + count p ys)%nat.
Proof. unfold count. by rewrite List.filter_app, length_app. Qed.

Lemma count_none (p q : Event -> bool) (evs : list Event) :
  (forall e, q e = true -> p e = false) ->
  forallb q evs = true -> count p evs = 0%nat.
Proof.
  intros Hpq Hall. unfold count. induction evs as [| e evs IH]; [done |].
  simpl in *. apply andb_true_iff in Hall as [He Hall].
  rewrite (Hpq e He). auto.
Qed.

Lemma count_all (p : Event -> bool) (evs : list Event) :
  forallb p evs = true -> count p evs = length evs.
Proof.
  intros Hall. unfold count. induction evs as [| e evs IH]; [done |].
  simpl in *. apply andb_true_iff in Hall as [He Hall]. rewrite He. simpl. auto.
Qed.

Lemma prints_are_acting_events (evs : list Event) :
  forallb is_print evs = true -> forallb is_acting_event evs = true.
Proof.
  intros Hall. apply forallb_forall. intros e He.
  unfold is_acting_event. rewrite forallb_forall in Hall. rewrite (Hall e He).
  apply orb_true_r.
Qed.

(** ** Messages *)

Lemma setContent_own (m : Message) : setContent (content m) m = m.
Proof. by destruct m. Qed.

Lemma setContent_twice (c1 c2 : MessageContent) (m : Message) :
  setContent c2 (setContent c1 m) = setContent c2 m.
Proof. by destruct m. Qed.

Lemma set_output_twice (o1 o2 : jsval) (m : Message) :
  set_output o2 (set_output o1 m) = set_output o2 m.
Proof.
  unfold set_output. destruct m as [i n c r md]. simpl.
  destruct c as [| [| b bs] |]; try done. destruct b; done.
Qed.

Lemma filter_tool_use (blocks : list ContentBlock) :
  (0 <? length (List.filter (fun block => String.eqb (block_type block) "tool_use") blocks))%nat
  = has_tool_use blocks.
Proof.
  induction blocks as [| b rest IH]; [done |].
  destruct b; simpl in *; try apply IH. done.
Qed.

Lemma hasContentBlocks_tool_use (m : Message) (blocks : list ContentBlock) :
  content m = Structured blocks ->
  hasContentBlocks "tool_use" m = has_tool_use blocks.
Proof.
  intros Hc. unfold hasContentBlocks, getContentBlocks. rewrite Hc. apply filter_tool_use.
Qed.

Lemma omap_tool_use_nonempty (blocks : list ContentBlock) :
  has_tool_use blocks = true ->
  omap tool_use_of_block
    (List.filter (fun block => String.eqb (block_type block) "tool_use") blocks) <> [].
Proof.
  induction blocks as [| b rest IH]; [done |].
  destruct b; simpl in *; try apply IH. done.
Qed.

Lemma getToolUseBlocks_nonempty (m : Message) (blocks : list ContentBlock) :
  content m = Structured blocks -> has_tool_use blocks = true ->
  getToolUseBlocks m <> [].
Proof.
  intros Hc Hb. unfold getToolUseBlocks, getContentBlocks. rewrite Hc.
  by apply omap_tool_use_nonempty.
Qed.

Lemma getTextContent_structured (m : Message) (blocks : list ContentBlock) :
  content m = Structured blocks -> getTextContent m = text_of_blocks blocks.
Proof. intros Hc. unfold getTextContent. by rewrite Hc. Qed.

(** ** Reasoning *)

Lemma stream_prints_are_prints (chunks : list StreamChunk) :
  forall acc msg, forallb is_print (stream_prints chunks acc msg) = true.
Proof. induction chunks as [| c rest IH]; intros; simpl; auto. Qed.

Lemma reasoning_stream_run (chunks : list StreamChunk) :
  forall (acc : list ContentBlock) (msg : Message) (s : State),
  reasoning_stream chunks acc (setContent (Structured acc) msg) s =
  (Ok (setContent (Structured (acc ++ concat (map chunk_content chunks))) msg),
   set_trace (trace s ++ stream_prints chunks acc msg) s).
Proof.
  induction chunks as [| chunk rest IH]; intros acc msg s.
  - simpl. unfold ret, set_trace. rewrite !app_nil_r. by destruct s.
  - simpl. unfold bind at 1, print, emit, modify. simpl.
    rewrite setContent_twice, IH. simpl. rewrite <- !app_assoc. simpl.
    by destruct s.
Qed.

Ltac finish_reasoning_run :=
  do 2 eexists; (split; [reflexivity |]); simpl;
  (split; [reflexivity |]); (split; [reflexivity |]); (split; [reflexivity |]);
  (split; [reflexivity |]);
  (split;
   [eexists; split;
    [rewrite <- !app_assoc; simpl; reflexivity
    | simpl; rewrite ?forallb_app, ?stream_prints_are_prints; reflexivity]
   | done]).

Lemma reasoning_run (a : Agent) (s : State) :
  model_returns (reasoning_outcome a s) = true ->
  exists msg s',
    reasoning a s = (Ok msg, s') /\
    content msg =
      reasoning_content a (before_dash (uuidv4 (S (S (next_uuid s)))))
        (gathered_blocks (reasoning_outcome a s)) /\
    msg_name msg = name a /\ role msg = role_assistant /\
    memory s' = memory s ++ [msg] /\
    (exists prints,
       trace s' = trace s ++
         EvModelCall (model_calls s) (reasoning_input a s)
           (Some (ToolkitOps.getJsonSchemas (toolkit s))) :: prints /\
       forallb is_print prints = true) /\
    toolkit s' = toolkit s /\
    requiredStructuredModel s' = requiredStructuredModel s /\
    model_calls s' = S (model_calls s).
Proof.
  intros Hret. unfold reasoning_outcome in Hret.
  unfold reasoning, bind at 1, generateUuid.
  unfold bind at 1, getMemory, gets. simpl.
  unfold bind at 1. simpl.
  unfold bind at 1, model_call, bind at 1, gets. simpl.
  unfold bind at 1, modify. simpl. unfold bind at 1, emit, modify. simpl.
  fold (reasoning_input a s).
  destruct (model a (model_calls s) (reasoning_input a s)
              (Some (ToolkitOps.getJsonSchemas (toolkit s)))) as [e | blocks | chunks fail] eqn:Ho;
    [done | |].
  - unfold ret at 1. unfold bind at 1, reasoning_response, bind at 1, generateUuid. simpl.
    unfold bind at 1, print, emit, modify. simpl. unfold ret at 1.
    unfold reasoning_outcome. rewrite Ho. simpl.
    rewrite (hasContentBlocks_tool_use _ blocks) by done.
    unfold reasoning_content.
    destruct (has_tool_use blocks) eqn:Htu; simpl.
    + unfold bind, ret, memory_add, modify. simpl.
      finish_reasoning_run.
    + unfold bind, ret, memory_add, modify, generateShortUuid, bind, generateUuid, ret. simpl.
      finish_reasoning_run.
  - destruct fail as [e |]; [done |].
    unfold ret at 1. unfold bind at 1, reasoning_response, bind at 1, generateUuid. simpl.
    unfold bind at 1.
    set (m0 := new_Message (uuidv4 (S (next_uuid s))) (name a) (Structured []) role_assistant).
    pose proof (reasoning_stream_run chunks [] m0) as Hs.
    change (setContent (Structured []) m0) with m0 in Hs.
    rewrite Hs. clear Hs. subst m0. simpl.
    unfold bind at 1, print, emit, modify. simpl. unfold ret at 1.
    unfold reasoning_outcome. rewrite Ho. simpl.
    rewrite (hasContentBlocks_tool_use _ (concat (map chunk_content chunks))) by done.
    unfold reasoning_content.
    destruct (has_tool_use _) eqn:Htu; simpl.
    + unfold bind, ret, memory_add, modify. simpl.
      finish_reasoning_run.
    + unfold bind, ret, memory_add, modify, generateShortUuid, bind, generateUuid, ret. simpl.
      finish_reasoning_run.
Qed.

Lemma reasoning_content_has_tool_calls (a : Agent) (id : string) (blocks : list ContentBlock)
    (msg : Message) :
  content msg = reasoning_content a id blocks -> getToolUseBlocks msg <> [].
Proof.
  unfold reasoning_content. destruct (has_tool_use blocks) eqn:Htu; intros Hc.
  - by eapply getToolUseBlocks_nonempty.
  - unfold getToolUseBlocks, getContentBlocks. by rewrite Hc.
Qed.


(** When the message built from the model's output holds no tool_use
    block, reasoning replaces its content by exactly one tool_use block
    for the completion action, whose only argument, response, is the text
    content of that message, that is, of the blocks gathered from the
    response or from all chunks of the stream; this is the message
    appended to the log. *)
Lemma plain_answer_becomes_completion_request (a : Agent) (s : State)
    (Hreturns : model_returns (reasoning_outcome a s) = true)
    (Hplain : has_tool_use (gathered_blocks (reasoning_outcome a s)) = false) :
  exists msg s' id,
    reasoning a s = (Ok msg, s') /\
    content msg =
      Structured
        [ToolUse (mkToolUse id (finishFunctionName a)
                    [("response",
                      JsStr (getTextContent
                               (new_Message (msg_id msg) (name a)
                                  (Structured (gathered_blocks (reasoning_outcome a s)))
                                  role_assistant)))])] /\
    memory s' = memory s ++ [msg].
Proof.
  destruct (reasoning_run a s Hreturns)
    as (msg & s' & Hr & Hcontent & _ & _ & Hmem & _).
  exists msg, s', (before_dash (uuidv4 (S (S (next_uuid s))))).
  split; [exact Hr |]. split; [| exact Hmem].
  rewrite Hcontent. unfold reasoning_content. rewrite Hplain. reflexivity.
Qed.

(** For a complete response without a tool_use block, the argument of
    the completion request is the text of the response. *)
Lemma complete_plain_answer_requests_its_text (a : Agent) (s : State)
    (blocks : list ContentBlock) :
  reasoning_outcome a s = ModelResponse blocks ->
  has_tool_use blocks = false ->
  exists msg s' id,
    reasoning a s = (Ok msg, s') /\
    content msg =
      Structured
        [ToolUse (mkToolUse id (finishFunctionName a)
                    [("response", JsStr (text_of_blocks blocks))])] /\
    memory s' = memory s ++ [msg].
Proof.
  intros Houtcome Hplain.
  destruct (plain_answer_becomes_completion_request a s)
    as (msg & s' & id & Hr & Hcontent & Hmem).
  - by rewrite Houtcome.
  - by rewrite Houtcome.
  - exists msg, s', id. split; [exact Hr |]. split; [| exact Hmem].
    rewrite Hcontent, Houtcome. reflexivity.
Qed.

(** ** Acting *)

Lemma chunk_prints_are_prints (a : Agent) (toolCall : ToolUseBlock)
    (chunks : list ToolResponse) (toolResultMsg : Message) :
  forallb is_print (chunk_prints a toolCall chunks toolResultMsg) = true.
Proof.
  unfold chunk_prints. induction chunks as [| c rest IH]; [done |].
  simpl. rewrite forallb_app, IH, andb_true_r. by destruct (_ || _).
Qed.

Lemma acting_chunks_run (a : Agent) (toolCall : ToolUseBlock) (chunks : list ToolResponse) :
  forall (toolResultMsg : Message) (responseMsg : option Message) (s : State),
  acting_chunks a toolCall chunks toolResultMsg responseMsg s =
  (Ok (last_output chunks toolResultMsg,
       if String.eqb (tu_name toolCall) (finishFunctionName a)
       then signalled chunks responseMsg else responseMsg),
   set_trace (trace s ++ chunk_prints a toolCall chunks toolResultMsg) s).
Proof.
  induction chunks as [| chunk rest IH]; intros msg r s.
  - unfold ret, last_output, chunk_prints, signalled, set_trace. simpl.
    rewrite app_nil_r. destruct s; simpl. by destruct (String.eqb _ _).
  - cbn [acting_chunks]. 
    set (p := negb (String.eqb (tu_name toolCall) (finishFunctionName a)) || negb (success_truthy chunk)).
    unfold bind at 1.
    assert (Hfirst : (if p then print (set_output (JsStr (chunk_text chunk)) msg) (is_last chunk) else ret tt) s
       = (Ok tt, set_trace (trace s ++ (if p then [EvPrint (set_output (JsStr (chunk_text chunk)) msg) (is_last chunk)] else [])) s)).
    { destruct p; unfold print, emit, modify, ret, set_trace; simpl.
      - reflexivity.
      - rewrite app_nil_r. by destruct s. }
    rewrite Hfirst, IH.
    assert (Hmsg : last_output rest (set_output (JsStr (chunk_text chunk)) msg)
                   = last_output (chunk :: rest) msg).
    { unfold last_output. destruct rest as [| c2 rest']; [done |].
      change (last (chunk :: c2 :: rest')) with (last (c2 :: rest')).
      destruct (last (c2 :: rest')) eqn:Hl; [by rewrite set_output_twice |].
      by apply last_None in Hl. }
    rewrite Hmsg. f_equal.
    + f_equal. f_equal. by destruct (String.eqb _ _).
    + unfold chunk_prints. simpl. fold p. destruct s; unfold set_trace; simpl.
      rewrite <- app_assoc. f_equal. f_equal. f_equal.
      apply flat_map_ext. intros c. by rewrite set_output_twice.
Qed.

Lemma resetEquippedTools_with_registry (toolNames : jsval) (tk : Toolkit) :
  tools (snd (resetEquippedTools_with toolNames tk)) = tools tk.
Proof.
  destruct toolNames; simpl; try done.
  destruct (mapM string_of_jsval items); [| done].
  unfold ToolkitOps.resetEquippedTools. by destruct (0 <? _)%nat.
Qed.

Lemma drain_run (a : Agent) (g : AsyncGenerator) (s : State) :
  exists chunks fail s',
    drain a g s = (Ok (chunks, fail), s') /\
    trace s' = trace s /\ memory s' = memory s /\
    tools (toolkit s') = tools (toolkit s) /\
    requiredStructuredModel s' = requiredStructuredModel s /\
    model_calls s' = model_calls s.
Proof.
  destruct g as [chunks fail | args | args]; simpl.
  - exists chunks, fail, s. by unfold ret.
  - unfold generateResponse, bind, generateUuid, gets, ret. simpl.
    destruct (requiredStructuredModel s) as [sm |] eqn:Hrsm; simpl;
      [destruct (parse sm _); simpl |];
      (do 3 eexists; split; [reflexivity | by simpl]).
  - unfold createResetToolsWrapper, bind, gets, modify, ret. simpl.
    destruct (fst (resetEquippedTools_with (nth 0 args JsUndefined) (toolkit s))) eqn:Hr; simpl;
      (do 3 eexists; split; [reflexivity |]; simpl; repeat split; try done;
       apply resetEquippedTools_with_registry).
Qed.

Lemma acting_run (a : Agent) (toolCall : ToolUseBlock) (s : State) :
  exists chunks fail s3 s',
    drain a (ToolkitOps.callToolFunction toolCall (toolkit s)) (acting_started toolCall s)
      = (Ok (chunks, fail), s3) /\
    acting a toolCall s =
      (Ok (if String.eqb (tu_name toolCall) (finishFunctionName a)
           then signalled chunks None else None), s') /\
    memory s' = memory s ++ [acting_logged toolCall (uuidv4 (next_uuid s)) chunks fail] /\
    (exists prints, trace s' = trace s ++ EvToolCall toolCall :: prints /\
                    forallb is_print prints = true) /\
    tools (toolkit s') = tools (toolkit s) /\
    requiredStructuredModel s' = requiredStructuredModel s /\
    model_calls s' = model_calls s.
Proof.
  destruct (drain_run a (ToolkitOps.callToolFunction toolCall (toolkit s))
              (acting_started toolCall s))
    as (chunks & fail & s3 & Hd & Ht & Hm & Htools & Hrsm & Hcalls).
  exists chunks, fail, s3.
  unfold acting, bind at 1, generateUuid.
  unfold bind at 1, callToolFunction, bind at 1, emit, modify, gets. simpl.
  change (set_trace _ (set_next_uuid _ s)) with (acting_started toolCall s).
  change (toolkit (acting_started toolCall s)) with (toolkit s).
  unfold bind at 1. rewrite Hd.
  unfold bind at 1. rewrite acting_chunks_run. simpl.
  destruct fail as [e |]; unfold bind, print, emit, modify, memory_add, ret; simpl;
    eexists; (split; [reflexivity |]); (split; [reflexivity |]); simpl;
    rewrite ?Ht, ?Hm, ?Htools, ?Hrsm, ?Hcalls; simpl.
  - repeat split; try done. eexists. split.
    + rewrite <- !app_assoc. simpl. reflexivity.
    + by rewrite forallb_app, chunk_prints_are_prints.
  - repeat split; try done. eexists. split.
    + rewrite <- !app_assoc. simpl. reflexivity.
    + apply chunk_prints_are_prints.
Qed.

Lemma acting_logged_content (toolCall : ToolUseBlock) (id : string)
    (chunks : list ToolResponse) (fail : option JsError) :
  acting_logged toolCall id chunks fail =
  MessageFactory.createToolResultMessage id
    [createToolResultBlock (tu_id toolCall) (tu_name toolCall) (logged_output chunks fail)].
Proof.
  unfold acting_logged, logged_output, last_output.
  destruct fail as [e |]; destruct (last chunks); reflexivity.
Qed.


Lemma actingWithHooks_run (a : Agent) (toolCall : ToolUseBlock) (s : State) :
  exists response s' invoked prints,
    actingWithHooks a toolCall s = (Ok response, s') /\
    trace s' = trace s ++ EvToolCall invoked :: prints /\
    forallb is_print prints = true.
Proof.
  unfold actingWithHooks.
  set (modifiedArgs := fst (applyPreStepHooks (className a) (actingHooks a) toolCall)).
  destruct (acting_run a modifiedArgs s)
    as (chunks & fail & s3 & s' & _ & Ha & _ & (prints & Ht & Hp) & _).
  unfold bind. rewrite Ha. unfold ret.
  do 2 eexists. exists modifiedArgs, prints. split; [reflexivity |]. by split.
Qed.

(** C7, as the code has it. Acting drains the generator the toolkit hands
    back and appends exactly one tool_result message to the log, after
    the last chunk and also when the generator throws; its output is the
    text of the last chunk seen (each chunk overwrites the one before),
    or the error text if the generator threw. *)
Theorem C7_tool_result_logged_once_with_last_payload (a : Agent) (toolCall : ToolUseBlock)
    (s : State) :
  exists chunks fail drained responseMsg s',
    drain a (ToolkitOps.callToolFunction toolCall (toolkit s)) (acting_started toolCall s)
      = (Ok (chunks, fail), drained) /\
    acting a toolCall s = (Ok responseMsg, s') /\
    memory s' = memory s ++
      [MessageFactory.createToolResultMessage (uuidv4 (next_uuid s))
         [createToolResultBlock (tu_id toolCall) (tu_name toolCall)
            (logged_output chunks fail)]].
Proof.
  destruct (acting_run a toolCall s) as (chunks & fail & s3 & s' & Hd & Ha & Hm & _).
  exists chunks, fail, s3. do 2 eexists.
  split; [exact Hd |]. split; [exact Ha |].
  by rewrite Hm, acting_logged_content.
Qed.

(** Invoking a tool whose schema requires a parameter that the request
    leaves out, and whose name no plain object inherits, gives a
    generator with a single, final response that carries an error text
    and success = false; nothing is thrown. Acting on it logs that text
    as the tool result and yields no reply, so the loop goes on. *)
Lemma missing_required_argument_fails_only_the_action (a : Agent) (s : State)
    (toolCall : ToolUseBlock) (tool : ToolFunctionMetadata) (reqs : list string) (r : string)
    (Htool : tools (toolkit s) !! tu_name toolCall = Some tool)
    (Hreqs : required (parameters tool) = Some reqs)
    (Hrequired : r ∈ reqs)
    (Homitted : alist_has r (tu_input toolCall) = false)
    (Hnot_inherited : inherited r = false) :
  exists errorMessage,
    ToolkitOps.callToolFunction toolCall (toolkit s)
      = GenChunks [mkToolResponse [Text ("错误: " +:+ errorMessage)]
                     (mkToolMetadata (Some false) None (Some errorMessage) []) true] None /\
    exists s',
      acting a toolCall s = (Ok None, s') /\
      memory s' = memory s ++
        [MessageFactory.createToolResultMessage (uuidv4 (next_uuid s))
           [createToolResultBlock (tu_id toolCall) (tu_name toolCall)
              (JsStr ("错误: " +:+ errorMessage))]].
Proof.
  assert (Hin : js_in r (tu_input toolCall) = false).
  { unfold js_in. by rewrite Homitted, Hnot_inherited. }
  destruct (InvokeFacts.callToolFunction_missing_required _ _ _ _ _ Htool Hreqs Hrequired Hin)
    as [errorMessage Hcall].
  exists errorMessage. split; [exact Hcall |].
  destruct (acting_run a toolCall s) as (chunks & fail & s3 & s' & Hd & Ha & Hm & _).
  rewrite Hcall in Hd. simpl in Hd. unfold ret in Hd. inversion Hd; subst. clear Hd.
  exists s'. split.
  - rewrite Ha. by destruct (String.eqb _ _).
  - rewrite Hm, acting_logged_content. reflexivity.
Qed.

(** ** The acting step as a call among others *)






(** ** What the stretches of acting steps do *)

Lemma acted_refl (s : State) : acted 0 s s.
Proof. split; [exists []; by rewrite app_nil_r | done]. Qed.

Lemma acted_trans (j k : nat) (s1 s2 s3 : State) :
  acted j s1 s2 -> acted k s2 s3 -> acted (j + k) s1 s3.
Proof.
  intros ((evs1 & Ht1 & Ha1 & Hc1) & Hm1 & Htk1 & Hr1 & Hmc1)
         ((evs2 & Ht2 & Ha2 & Hc2) & Hm2 & Htk2 & Hr2 & Hmc2).
  split; [| repeat split; try congruence; by etrans].
  exists (evs1 ++ evs2). rewrite Ht2, Ht1, <- app_assoc, forallb_app, count_app, Ha1, Ha2.
  split; [done |]. split; [done | lia].
Qed.

Lemma acted_uuid (n : nat) (s : State) : acted 0 s (set_next_uuid n s).
Proof. split; [exists []; by rewrite app_nil_r | done]. Qed.

Lemma acted_call (toolCall : ToolUseBlock) (s : State) :
  acted 1 s (set_trace (trace s ++ [EvToolCall toolCall]) s).
Proof. split; [by exists [EvToolCall toolCall] | done]. Qed.

Lemma acted_print (msg : Message) (last : bool) (s : State) :
  acted 0 s (set_trace (trace s ++ [EvPrint msg last]) s).
Proof. split; [by exists [EvPrint msg last] | done]. Qed.

Lemma acted_memory (msgs : list Message) (s : State) :
  acted 0 s (set_memory (memory s ++ msgs) s).
Proof.
  split; [exists []; by rewrite app_nil_r |]. simpl. split; [by apply prefix_app_r | done].
Qed.

Lemma acted_drain (a : Agent) (g : AsyncGenerator) (s : State) :
  acted 0 s (snd (drain a g s)).
Proof.
  destruct (drain_run a g s) as (chunks & fail & s' & Hd & Ht & Hm & Htk & Hr & Hmc).
  rewrite Hd. simpl. split; [exists []; by rewrite app_nil_r |]. by rewrite Hm.
Qed.

Lemma last_output_cons (chunk : ToolResponse) (rest : list ToolResponse) (msg : Message) :
  last_output rest (set_output (JsStr (chunk_text chunk)) msg) = last_output (chunk :: rest) msg.
Proof.
  unfold last_output. destruct rest as [| c2 rest']; [done |].
  change (last (chunk :: c2 :: rest')) with (last (c2 :: rest')).
  destruct (last (c2 :: rest')) eqn:Hl; [by rewrite set_output_twice |].
  by apply last_None in Hl.
Qed.

Section ActingObeys.
Variable I : State -> Prop.
Variable G : nat -> State -> State -> Prop.
Variable a : Agent.
Variable toolCall : ToolUseBlock.
Hypothesis G_uuid : forall n s, I s -> G 0 s (set_next_uuid n s).
Hypothesis G_call : forall s, I s -> G 1 s (set_trace (trace s ++ [EvToolCall toolCall]) s).
Hypothesis G_print :
  forall msg last s, I s -> G 0 s (set_trace (trace s ++ [EvPrint msg last]) s).
Hypothesis G_memory : forall msgs s, I s -> G 0 s (set_memory (memory s ++ msgs) s).
Hypothesis G_drain :
  forall sc s, I sc -> I s ->
    G 0 s (snd (drain a (ToolkitOps.callToolFunction toolCall (toolkit sc)) s)).

Lemma print_obeys (msg : Message) (last : bool) :
  obeys I G (fun _ : unit => True) 0 (stretch (print msg last)).
Proof.
  apply obeys_stretch. intros s Hs. exists tt. split; [done |]. split; [done |].
  by apply G_print.
Qed.

Lemma acting_chunks_task_obeys (chunks : list ToolResponse) :
  forall (toolResultMsg : Message) (responseMsg : option Message),
    obeys I G
      (fun looped =>
         looped = (last_output chunks toolResultMsg,
                   if String.eqb (tu_name toolCall) (finishFunctionName a)
                   then signalled chunks responseMsg else responseMsg))
      0 (acting_chunks_task a toolCall chunks toolResultMsg responseMsg).
Proof.
  induction chunks as [| chunk rest IH]; intros msg r.
  - apply obeys_settled. unfold last_output, signalled. simpl. by destruct (String.eqb _ _).
  - cbn [acting_chunks_task].
    refine (obeys_and_then I G (fun _ => True) _ 0 _ _ _ 0 _).
    + intros [] _. eapply obeys_weaken; [| apply IH].
      intros looped ->. rewrite last_output_cons. f_equal.
      unfold signalled. simpl. by destruct (String.eqb _ _).
    + destruct (_ || _); [apply print_obeys | by apply obeys_settled].
Qed.

(** The acting step invokes the toolkit once; its value is what the
    completion action signalled: the toolkit was asked in some state
    [sc] and the generator drained in some state [sd] of the round. *)
Lemma acting_task_obeys :
  obeys I G
    (fun response =>
       exists sc sd chunks fail,
         I sc /\ I sd /\
         fst (drain a (ToolkitOps.callToolFunction toolCall (toolkit sc)) sd)
           = Ok (chunks, fail) /\
         response = if String.eqb (tu_name toolCall) (finishFunctionName a)
                    then signalled chunks None else None)
    1 (acting_task a toolCall).
Proof.
  unfold acting_task.
  refine (obeys_and_then I G (fun _ => True) _ 1 _ _ _ 0 _).
  2: { apply obeys_stretch. intros s Hs. eexists. split; [reflexivity |].
       split; [done |]. by apply G_uuid. }
  intros id _.
  refine (obeys_and_then I G
            (fun g => exists sc, I sc /\ g = ToolkitOps.callToolFunction toolCall (toolkit sc))
            _ 0 _ _ _ 1 _).
  2: { apply obeys_stretch. intros s Hs. eexists. split; [reflexivity |].
       split; [by exists s |]. by apply G_call. }
  intros g (sc & Hsc & ->).
  refine (obeys_and_then I G
            (fun drained =>
               exists sd, I sd /\
                 fst (drain a (ToolkitOps.callToolFunction toolCall (toolkit sc)) sd)
                   = Ok drained)
            _ 0 _ _ _ 0 _).
  2: { apply obeys_stretch. intros s Hs.
       destruct (drain_run a (ToolkitOps.callToolFunction toolCall (toolkit sc)) s)
         as (chunks & fail & s' & Hd & _).
       exists (chunks, fail). split; [by rewrite Hd |].
       split; [exists s; by rewrite Hd |]. by apply G_drain. }
  intros [chunks fail] (sd & Hsd & Hd). cbn [fst snd].
  refine (obeys_and_then I G _ _ 0 _ _ _ 0 (acting_chunks_task_obeys chunks _ None)).
  intros looped ->. cbn [fst snd].
  assert (Hend : forall toolResultMsg : Message,
            obeys I G
              (fun response =>
                 exists sc sd chunks fail,
                   I sc /\ I sd /\
                   fst (drain a (ToolkitOps.callToolFunction toolCall (toolkit sc)) sd)
                     = Ok (chunks, fail) /\
                   response = if String.eqb (tu_name toolCall) (finishFunctionName a)
                              then signalled chunks None else None)
              0
              (and_then (stretch (memory_add [toolResultMsg]))
                 (fun _ => Settled (Ok (if String.eqb (tu_name toolCall) (finishFunctionName a)
                                        then signalled chunks None else None))))).
  { intros toolResultMsg.
    refine (obeys_and_then I G (fun _ => True) _ 0 _ _ _ 0 _).
    - intros [] _. apply obeys_settled. by exists sc, sd, chunks, fail.
    - apply obeys_stretch. intros s Hs. exists tt. split; [done |]. split; [done |].
      by apply G_memory. }
  destruct fail as [e |].
  - refine (obeys_and_then I G (fun _ => True) _ 0 _ _ _ 0 _).
    + intros toolResultMsg _. apply Hend.
    + refine (obeys_and_then I G (fun _ => True) _ 0 _ _ _ 0 (print_obeys _ _)).
      intros [] _. by apply obeys_settled.
  - apply Hend.
Qed.

End ActingObeys.

(** The acting step with its hooks: the request the toolkit gets is the
    one the pre hooks settle on, and the value is what the post hooks
    make of what the completion action signalled. *)
Lemma actingWithHooks_task_obeys (I : State -> Prop) (G : nat -> State -> State -> Prop)
    (a : Agent) (toolCall : ToolUseBlock) :
  let modifiedArgs := fst (applyPreStepHooks (className a) (actingHooks a) toolCall) in
  (forall n s, I s -> G 0%nat s (set_next_uuid n s)) ->
  (forall s, I s -> G 1%nat s (set_trace (trace s ++ [EvToolCall modifiedArgs]) s)) ->
  (forall msg last s, I s -> G 0%nat s (set_trace (trace s ++ [EvPrint msg last]) s)) ->
  (forall msgs s, I s -> G 0%nat s (set_memory (memory s ++ msgs) s)) ->
  (forall sc s, I sc -> I s ->
     G 0%nat s (snd (drain a (ToolkitOps.callToolFunction modifiedArgs (toolkit sc)) s))) ->
  obeys I G
    (fun response =>
       exists sc sd chunks fail,
         I sc /\ I sd /\
         fst (drain a (ToolkitOps.callToolFunction modifiedArgs (toolkit sc)) sd)
           = Ok (chunks, fail) /\
         response =
           fst (applyPostActingHooks (className a) (actingHooks a) toolCall
                  (if String.eqb (tu_name modifiedArgs) (finishFunctionName a)
                   then signalled chunks None else None)))
    1%nat (actingWithHooks_task a toolCall).
Proof.
  intros modifiedArgs Huuid Hcall Hprint Hmemory Hdrain. unfold actingWithHooks_task.
  fold modifiedArgs.
  refine (obeys_and_then I G _ _ 0%nat _ _ _ 1%nat
            (acting_task_obeys I G a modifiedArgs Huuid Hcall Hprint Hmemory Hdrain)).
  intros response (sc & sd & chunks & fail & Hsc & Hsd & Hd & ->).
  apply obeys_settled. by exists sc, sd, chunks, fail.
Qed.

(** ** The actions of one round *)

Section Round.
Variable I : State -> Prop.
Variable G : nat -> State -> State -> Prop.
Variable a : Agent.
Variable toolCalls : list ToolUseBlock.
Hypothesis G_refl : forall s, G 0 s s.
Hypothesis G_trans : forall j k s1 s2 s3, G j s1 s2 -> G k s2 s3 -> G (j + k) s1 s3.
Hypothesis I_stable : forall k s s', I s -> G k s s' -> I s'.
Hypothesis G_uuid : forall n s, I s -> G 0 s (set_next_uuid n s).
Hypothesis G_call :
  forall toolCall s, I s -> G 1 s (set_trace (trace s ++ [EvToolCall toolCall]) s).
Hypothesis G_print :
  forall msg last s, I s -> G 0 s (set_trace (trace s ++ [EvPrint msg last]) s).
Hypothesis G_memory : forall msgs s, I s -> G 0 s (set_memory (memory s ++ msgs) s).
Hypothesis G_drain :
  forall toolCall, toolCall ∈ toolCalls ->
  forall sc s, I sc -> I s ->
    G 0 s (snd (drain a
                  (ToolkitOps.callToolFunction
                     (fst (applyPreStepHooks (className a) (actingHooks a) toolCall))
                     (toolkit sc)) s)).

(** However the runtime orders the stretches of the acting steps of a
    round, and whether they are awaited together or one by one, every
    step is fulfilled, the responses stand in the positions of their
    requests, and the state changed as the steps together allow. *)
Lemma acting_round_obeys (s : State) :
  I s ->
  exists responses s',
    (if parallelToolCalls a then Promise_all (map (actingWithHooks_task a) toolCalls)
     else await_each (map (actingWithHooks_task a) toolCalls)) s = (Ok responses, s') /\
    length responses = length toolCalls /\
    G (length toolCalls) s s' /\
    forall (k : nat) (toolCall : ToolUseBlock),
      toolCalls !! k = Some toolCall ->
      exists sc sd chunks fail,
        I sc /\ I sd /\
        fst (drain a
               (ToolkitOps.callToolFunction
                  (fst (applyPreStepHooks (className a) (actingHooks a) toolCall))
                  (toolkit sc)) sd) = Ok (chunks, fail) /\
        responses !! k =
          Some (fst (applyPostActingHooks (className a) (actingHooks a) toolCall
                       (if String.eqb
                             (tu_name (fst (applyPreStepHooks (className a) (actingHooks a)
                                              toolCall)))
                             (finishFunctionName a)
                        then signalled chunks None else None))).
Proof.
  intros Hs.
  pose (Q := fun (toolCall : ToolUseBlock) (response : option Message) =>
          exists sc sd chunks fail,
            I sc /\ I sd /\
            fst (drain a
                   (ToolkitOps.callToolFunction
                      (fst (applyPreStepHooks (className a) (actingHooks a) toolCall))
                      (toolkit sc)) sd) = Ok (chunks, fail) /\
            response =
              fst (applyPostActingHooks (className a) (actingHooks a) toolCall
                     (if String.eqb
                           (tu_name (fst (applyPreStepHooks (className a) (actingHooks a)
                                            toolCall)))
                           (finishFunctionName a)
                      then signalled chunks None else None))).
  assert (Hall : all_obey I G (map Q toolCalls) (length toolCalls * 1)
                   (map (actingWithHooks_task a) toolCalls)).
  { apply all_obey_map. intros toolCall Hin.
    apply actingWithHooks_task_obeys; auto. }
  rewrite Nat.mul_1_r in Hall.
  destruct (run_tasks_obeys I G G_refl G_trans I_stable (map Q toolCalls) (task_order s)
              (length toolCalls) (map (actingWithHooks_task a) toolCalls) s Hall Hs)
    as (responses & s' & Hrun & Hres & HG).
  apply Forall2_map_positions in Hres as [Hlen Hpos].
  exists responses, s'. split.
  { destruct (parallelToolCalls a); unfold Promise_all, await_each; cbv beta;
      by rewrite Hrun, gather_fulfilled. }
  split; [exact Hlen |]. split; [exact HG |].
  intros k toolCall Hk. destruct (Hpos k toolCall Hk) as (r & Hr & sc & sd & chunks & fail & HQ).
  exists sc, sd, chunks, fail. destruct HQ as (Hsc & Hsd & Hd & ->). by rewrite Hr.
Qed.

End Round.

(** Every action of a round is invoked exactly once, whatever the order
    in which the runtime runs the steps, and nothing else happens until
    all are answered. *)
Lemma acting_round_run (a : Agent) (toolCalls : list ToolUseBlock) (s : State) :
  exists responses s',
    (if parallelToolCalls a then Promise_all (map (actingWithHooks_task a) toolCalls)
     else await_each (map (actingWithHooks_task a) toolCalls)) s = (Ok responses, s') /\
    length responses = length toolCalls /\
    acted (length toolCalls) s s'.
Proof.
  destruct (acting_round_obeys (fun _ => True) acted a toolCalls acted_refl acted_trans)
    with (s := s) as (responses & s' & Hrun & Hlen & Hacted & _); try done.
  - intros n s0 _. apply acted_uuid.
  - intros toolCall s0 _. apply acted_call.
  - intros msg last s0 _. apply acted_print.
  - intros msgs s0 _. apply acted_memory.
  - intros toolCall _ sc s0 _ _. apply acted_drain.
  - by exists responses, s'.
Qed.


Lemma first_reply_none (responses : list (option Message)) :
  (forall k r, responses !! k = Some r -> r = None) -> first_reply responses = None.
Proof.
  induction responses as [| r rest IH]; intros Hnone; [done |].
  rewrite (Hnone 0%nat r eq_refl). simpl. apply IH.
  intros k r' Hk. by apply (Hnone (S k)).
Qed.

(** *** What the completion action signals *)




(** The agent's own completion handler signals success only together
    with a reply message. *)
Lemma generateResponse_signals_with_message (a : Agent) (args : list jsval) (s s' : State)
    (chunks : list ToolResponse) (fail : option JsError) (chunk : ToolResponse) :
  generateResponse a args s = (Ok (chunks, fail), s') ->
  chunk ∈ chunks -> success_truthy chunk = true ->
  is_Some (response_msg (tr_metadata chunk)).
Proof.
  unfold generateResponse, bind, generateUuid, gets, ret. simpl. intros Hrun Hin Hok.
  destruct (requiredStructuredModel s) as [sm |]; [destruct (parse sm _) |];
    inversion Hrun; subst; apply list_elem_of_singleton in Hin; subst chunk; simpl in *;
    eauto; done.
Qed.


(** ** Completions that never succeed *)

Lemma drain_never_replies (a : Agent) (g : AsyncGenerator) (s s' : State)
    (chunks : list ToolResponse) (fail : option JsError) :
  generator_never_replies (requiredStructuredModel s) g ->
  drain a g s = (Ok (chunks, fail), s') ->
  signalled chunks None = None.
Proof.
  destruct g as [cs f | args | args]; simpl; intros Hg Hd.
  - unfold ret in Hd. by inversion Hd; subst.
  - destruct Hg as (sm & Hsm & Hrej).
    unfold generateResponse, bind, generateUuid, gets, ret in Hd. simpl in Hd.
    rewrite Hsm in Hd.
    destruct (Hrej (if truthy (nth 0 (tl args) JsUndefined)
                    then nth 0 (tl args) JsUndefined else JsObj [])) as [e He].
    rewrite He in Hd. by inversion Hd; subst.
  - unfold createResetToolsWrapper, bind, gets, modify, ret in Hd. simpl in Hd.
    destruct (fst (resetEquippedTools_with (nth 0 args JsUndefined) (toolkit s)));
      by inversion Hd; subst.
Qed.

Lemma callToolFunction_never_replies (a : Agent) (toolCall : ToolUseBlock) (tk : Toolkit)
    (rsm : option StructuredModel) :
  tu_name toolCall = finishFunctionName a ->
  completion_never_succeeds a (tools tk) rsm ->
  generator_never_replies rsm (ToolkitOps.callToolFunction toolCall tk).
Proof.
  intros Hname Hnever. unfold ToolkitOps.callToolFunction.
  destruct (negb _); [done |].
  destruct (tools tk !! tu_name toolCall) as [tool |] eqn:Htool; [| done].
  rewrite Hname in Htool. specialize (Hnever tool Htool).
  destruct (ToolkitOps.validateInput _ _) as [validated | e]; [| done].
  unfold ToolkitOps.callToolFunctionWithArgs.
  destruct (ToolkitOps.build_args _ _ _) as [args | e]; [| done].
  unfold ToolkitOps.apply_func. destruct (func tool) as [| | n ps d body]; simpl in *; try done.
  specialize (Hnever args). by destruct (body args).
Qed.

Lemma acting_never_replies (a : Agent) (toolCall : ToolUseBlock) (s : State) :
  completion_never_succeeds a (tools (toolkit s)) (requiredStructuredModel s) ->
  exists s',
    acting a toolCall s = (Ok None, s') /\
    (exists prints, trace s' = trace s ++ EvToolCall toolCall :: prints /\
                    forallb is_print prints = true) /\
    tools (toolkit s') = tools (toolkit s) /\
    requiredStructuredModel s' = requiredStructuredModel s /\
    model_calls s' = model_calls s.
Proof.
  intros Hnever.
  destruct (acting_run a toolCall s) as (chunks & fail & s3 & s' & Hd & Ha & _ & Hrest).
  exists s'. split; [| exact Hrest]. rewrite Ha. f_equal. f_equal.
  destruct (String.eqb _ _) eqn:Hname; [| done].
  apply String.eqb_eq in Hname.
  eapply drain_never_replies; [| exact Hd]. simpl.
  by apply (callToolFunction_never_replies a).
Qed.

(** *** Hooks that hand on what they are given *)

Lemma no_hooks_hand_on_reasoning (a : Agent) :
  no_hooks_registered (className a) (reasoningHooks a) -> reasoning_hooks_hand_on a.
Proof.
  intros [Hc Hi] result. unfold applyPostReasoningHooks.
  unfold JsMap.entries in *. by rewrite Hc, Hi.
Qed.

Lemma no_hooks_hand_on_acting (a : Agent) :
  no_hooks_registered (className a) (actingHooks a) -> acting_hooks_hand_on a.
Proof.
  intros [Hc Hi]. split.
  - intros toolCall. unfold applyPreStepHooks. unfold JsMap.entries in *. by rewrite Hc, Hi.
  - intros toolCall result. unfold applyPostActingHooks. unfold JsMap.entries in *.
    by rewrite Hc, Hi.
Qed.

Lemma reasoningWithHooks_hand_on (a : Agent) (s : State) :
  reasoning_hooks_hand_on a -> reasoningWithHooks a s = reasoning a s.
Proof.
  intros Hhand. unfold reasoningWithHooks, bind.
  destruct (reasoning a s) as [[r | e] s']; unfold ret; [by rewrite Hhand | done].
Qed.

Lemma actingWithHooks_hand_on (a : Agent) (toolCall : ToolUseBlock) (s : State) :
  acting_hooks_hand_on a -> actingWithHooks a toolCall s = acting a toolCall s.
Proof.
  intros [Hpre Hpost]. unfold actingWithHooks, bind. rewrite Hpre.
  destruct (acting a toolCall s) as [[r | e] s']; unfold ret; [by rewrite Hpost | done].
Qed.

(** The requests of a message whose content is a list of blocks are
    among the blocks. *)
Lemma tool_calls_among_blocks (msg : Message) (blocks : list ContentBlock)
    (toolCall : ToolUseBlock) :
  content msg = Structured blocks ->
  toolCall ∈ getToolUseBlocks msg -> ToolUse toolCall ∈ blocks.
Proof.
  intros Hc Hin. unfold getToolUseBlocks, getContentBlocks in Hin. rewrite Hc in Hin.
  apply list_elem_of_omap in Hin as (block & Hblock & Htu).
  apply list_elem_of_In, filter_In in Hblock as [Hblock _]. apply list_elem_of_In in Hblock.
  destruct block; simpl in Htu; try done. by inversion Htu; subst.
Qed.

(** When the acting hooks hand on what they are given and every request
    of a round either names another tool than the completion action or
    meets a completion that cannot succeed, every action of the round is
    invoked once and none yields a reply, whatever the order in which
    the runtime runs them. *)
Lemma acting_round_never_replies (a : Agent) (toolCalls : list ToolUseBlock) (s : State) :
  acting_hooks_hand_on a ->
  (forall toolCall, toolCall ∈ toolCalls ->
     tu_name toolCall <> finishFunctionName a \/
     completion_never_succeeds a (tools (toolkit s)) (requiredStructuredModel s)) ->
  exists responses s',
    (if parallelToolCalls a then Promise_all (map (actingWithHooks_task a) toolCalls)
     else await_each (map (actingWithHooks_task a) toolCalls)) s = (Ok responses, s') /\
    first_reply responses = None /\
    acted (length toolCalls) s s'.
Proof.
  intros [Hpre Hpost] Hcalls.
  pose (kept := fun s' : State =>
          tools (toolkit s') = tools (toolkit s) /\
          requiredStructuredModel s' = requiredStructuredModel s).
  destruct (acting_round_obeys kept acted a toolCalls acted_refl acted_trans) with (s := s)
    as (responses & s' & Hrun & Hlen & Hacted & Hpos); subst kept; simpl; try done.
  - intros k sa sb [Htk Hrsm] (_ & _ & Htk' & Hrsm' & _). split; congruence.
  - intros n s0 _. apply acted_uuid.
  - intros toolCall s0 _. apply acted_call.
  - intros msg last s0 _. apply acted_print.
  - intros msgs s0 _. apply acted_memory.
  - intros toolCall _ sc s0 _ _. apply acted_drain.
  - exists responses, s'. split; [exact Hrun |]. split; [| exact Hacted].
    apply first_reply_none. intros k r Hk.
    assert (Hlt : (k < length toolCalls)%nat).
    { rewrite <- Hlen. apply lookup_lt_is_Some. eauto. }
    apply lookup_lt_is_Some in Hlt as [toolCall Htc].
    destruct (Hpos k toolCall Htc)
      as (sc & sd & chunks & fail & [Htk _] & [_ Hrsm] & Hd & Hr).
    rewrite Hpre, Hpost in Hr. rewrite Hpre in Hd.
    rewrite Hk in Hr. inversion Hr as [Heq]. clear Hr.
    destruct (String.eqb _ _) eqn:Hname; [| done].
    apply String.eqb_eq in Hname.
    destruct (Hcalls toolCall (list_elem_of_lookup_2 _ _ _ Htc)) as [Hother | Hnever];
      [done |].
    destruct (drain a (ToolkitOps.callToolFunction toolCall (toolkit sc)) sd)
      as [drained sd'] eqn:Hdrain.
    simpl in Hd. subst drained.
    eapply drain_never_replies; [| exact Hdrain].
    apply (callToolFunction_never_replies a); [done |]. by rewrite Htk, Hrsm.
Qed.

(** When no completion can succeed, or the model never asks for the
    completion action, the loop runs until its bound is reached and ends
    without a reply. *)
Lemma react_loop_exhausts (a : Agent) :
  reasoning_hooks_hand_on a ->
  acting_hooks_hand_on a ->
  model_always_returns a ->
  forall (fuel : nat) (iteration : Z) (s : State),
  maxIters a - iteration = Z.of_nat fuel ->
  completion_never_succeeds a (tools (toolkit s)) (requiredStructuredModel s) \/
  model_avoids_completion a ->
  exists s' evs,
    react_loop a fuel iteration s = (Ok None, s') /\
    trace s' = trace s ++ evs /\
    count is_iteration evs = fuel /\
    count is_reasoning_call evs = fuel /\
    count is_summarizing_call evs = 0%nat /\
    (fuel <= count is_tool_call evs)%nat /\
    tools (toolkit s') = tools (toolkit s) /\
    requiredStructuredModel s' = requiredStructuredModel s /\
    model_calls s' = (model_calls s + fuel)%nat.
Proof.
  intros Hrh Hah Hmodel. induction fuel as [| fuel IH]; intros i s Hfuel Hnever.
  - exists s, []. simpl. unfold ret. rewrite app_nil_r, Nat.add_0_r. repeat split; done.
  - cbn [react_loop]. assert (Hlt : (i <? maxIters a) = true) by (apply Z.ltb_lt; lia).
    rewrite Hlt. unfold bind at 1, emit, modify. simpl.
    set (s0 := set_trace (trace s ++ [EvIteration (i + 1)]) s).
    unfold bind at 1. rewrite reasoningWithHooks_hand_on by done.
    destruct (reasoning_run a s0 (Hmodel _ _ _))
      as (msg & s1 & Hr & Hcontent & _ & _ & _ & (prints & Ht1 & Hp) & Htk1 & Hrsm1 & Hc1).
    rewrite Hr.
    pose proof (reasoning_content_has_tool_calls _ _ _ _ Hcontent) as Hne.
    destruct (getToolUseBlocks msg) as [| tc tcs] eqn:Htcs; [done |].
    change (length (tc :: tcs) =? 0)%nat with false. cbv iota.
    assert (Hnever1 :
              completion_never_succeeds a (tools (toolkit s1)) (requiredStructuredModel s1) \/
              model_avoids_completion a).
    { rewrite Htk1, Hrsm1. exact Hnever. }
    destruct (acting_round_never_replies a (tc :: tcs) s1 Hah)
      as (responses & s2 & Hround & Hnone & (evs2 & Ht2 & Hall2 & Hcount2) & _ & Htools2
          & Hrsm2 & Hc2).
    { intros toolCall Hin. destruct Hnever1 as [Hnever1 | Havoids]; [by right | left].
      destruct (Havoids (model_calls s0) (reasoning_input a s0)
                  (Some (ToolkitOps.getJsonSchemas (toolkit s0)))) as [Hhas Hnames].
      apply Hnames. rewrite <- Htcs in Hin.
      eapply tool_calls_among_blocks; [| exact Hin].
      rewrite Hcontent. unfold reasoning_content, reasoning_outcome. by rewrite Hhas. }
    unfold bind at 1. rewrite Hround, Hnone.
    assert (Hnever2 :
              completion_never_succeeds a (tools (toolkit s2)) (requiredStructuredModel s2) \/
              model_avoids_completion a).
    { rewrite Htools2, Hrsm2. exact Hnever1. }
    destruct (IH (i + 1) s2 ltac:(lia) Hnever2)
      as (s' & evs & Hloop & Ht & Hi & Hrc & Hsc & Htc & Htools & Hrsm & Hc).
    exists s'.
    exists ([EvIteration (i + 1)] ++
            [EvModelCall (model_calls s0) (reasoning_input a s0)
               (Some (ToolkitOps.getJsonSchemas (toolkit s0)))] ++ prints ++ evs2 ++ evs).
    split; [exact Hloop |].
    split.
    { rewrite Ht, Ht2, Ht1. subst s0. simpl. rewrite <- !app_assoc. reflexivity. }
    assert (Hprints : forall p, (forall e, is_print e = true -> p e = false) ->
                                count p prints = 0%nat).
    { intros p Hp'. by apply (count_none p is_print). }
    assert (Hacts : forall p, (forall e, is_acting_event e = true -> p e = false) ->
                              count p evs2 = 0%nat).
    { intros p Hp'. by apply (count_none p is_acting_event). }
    rewrite !count_app.
    split; [| split; [| split; [| split; [| split; [| split]]]]].
    + rewrite Hi, Hprints, Hacts by (by intros []). reflexivity.
    + rewrite Hrc, Hprints, Hacts by (by intros []). reflexivity.
    + rewrite Hsc, Hprints, Hacts by (by intros []). reflexivity.
    + rewrite Hcount2. simpl. lia.
    + rewrite Htools, Htools2, Htk1. reflexivity.
    + rewrite Hrsm, Hrsm2, Hrsm1. reflexivity.
    + rewrite Hc, Hc2, Hc1. subst s0. simpl. lia.
Qed.

(** ** Summarizing and the steps around the loop *)

Lemma summary_prints_are_prints (chunks : list StreamChunk) (responseMsg : Message) :
  forallb is_print (summary_prints chunks responseMsg) = true.
Proof. induction chunks; simpl; auto. Qed.

Lemma summarizing_stream_run (chunks : list StreamChunk) :
  forall (responseMsg : Message) (s : State),
  summarizing_stream chunks responseMsg s =
  (Ok (match last chunks with
       | Some chunk => setContent (Structured (chunk_content chunk)) responseMsg
       | None => responseMsg
       end),
   set_trace (trace s ++ summary_prints chunks responseMsg) s).
Proof.
  induction chunks as [| chunk rest IH]; intros msg s.
  - simpl. unfold ret, set_trace. rewrite app_nil_r. by destruct s.
  - simpl. unfold bind at 1, print, emit, modify. simpl. rewrite IH. simpl.
    rewrite <- app_assoc. simpl.
    assert (Hp : summary_prints rest (setContent (Structured (chunk_content chunk)) msg)
                 = summary_prints rest msg).
    { clear. induction rest as [| c r IHr]; [done |]. simpl.
      by rewrite setContent_twice, IHr. }
    rewrite Hp. destruct rest as [| c2 rest']; [by destruct s |].
    change (last (chunk :: c2 :: rest')) with (last (c2 :: rest')).
    destruct (last (c2 :: rest')) eqn:Hl; [| by apply last_None in Hl].
    rewrite setContent_twice. by destruct s.
Qed.

Lemma summarizing_run (a : Agent) (s : State) :
  model_returns (summarizing_outcome a s) = true ->
  exists responseMsg s' prints,
    summarizing a s = (Ok responseMsg, s') /\
    content responseMsg = Structured (summary_blocks (summarizing_outcome a s)) /\
    msg_name responseMsg = name a /\ role responseMsg = role_assistant /\
    trace s' = trace s ++
      EvModelCall (model_calls s) (summarizing_input a s) None :: prints /\
    forallb is_print prints = true /\
    memory s' = memory s /\
    toolkit s' = toolkit s /\
    model_calls s' = S (model_calls s).
Proof.
  intros Hret. unfold summarizing_outcome in *.
  unfold summarizing, bind at 1, generateUuid.
  unfold bind at 1, generateUuid. simpl.
  unfold bind at 1, getMemory, gets. simpl.
  unfold bind at 1, model_call, bind at 1, gets. simpl.
  unfold bind at 1, modify. simpl. unfold bind at 1, emit, modify. simpl.
  fold (summarizing_input a s).
  destruct (model a (model_calls s) (summarizing_input a s) None)
    as [e | blocks | chunks fail] eqn:Ho; [done | |].
  - unfold ret at 1. unfold bind at 1, generateUuid. simpl.
    unfold bind, print, emit, modify, ret. simpl.
    do 3 eexists. split; [reflexivity |]. simpl.
    repeat (split; [reflexivity |]).
    split; [rewrite <- app_assoc; reflexivity |]. by repeat split.
  - destruct fail as [e |]; [done |].
    unfold ret at 1. unfold bind at 1, generateUuid. simpl.
    unfold bind at 1. rewrite summarizing_stream_run. simpl.
    unfold bind, print, emit, modify, ret. simpl.
    do 3 eexists. split; [reflexivity |]. simpl.
    split; [by destruct (last chunks) |].
    split; [by destruct (last chunks) |].
    split; [by destruct (last chunks) |].
    split; [rewrite <- !app_assoc; simpl; reflexivity |].
    split; [| done].
    rewrite forallb_app, summary_prints_are_prints. reflexivity.
Qed.

Lemma reply_retrieve_run (a : Agent) (msg : list Message) (s : State) :
  (staticControl a = true -> is_Some (longTermMemory a)) ->
  exists s' evs,
    reply_retrieve a msg s = (Ok tt, s') /\
    trace s' = trace s ++ evs /\
    forallb is_retrieve evs = true /\
    toolkit s' = toolkit s /\
    requiredStructuredModel s' = requiredStructuredModel s /\
    model_calls s' = model_calls s.
Proof.
  intros Hltm. unfold reply_retrieve.
  destruct (staticControl a).
  - destruct (Hltm eq_refl) as [ltm ->].
    unfold bind at 1, emit, modify. simpl.
    destruct (negb _).
    + unfold bind, generateUuid, memory_add, modify. simpl.
      do 2 eexists. split; [reflexivity |]. simpl. split; [reflexivity |]. done.
    + unfold ret. do 2 eexists. split; [reflexivity |]. simpl. split; [reflexivity |]. done.
  - exists s, []. unfold ret. by rewrite app_nil_r.
Qed.

Lemma reply_require_run (a : Agent) (structuredModel : option StructuredModel) (s : State) :
  exists s',
    reply_require a structuredModel s = (Ok tt, s') /\
    trace s' = trace s /\
    model_calls s' = model_calls s /\
    requiredStructuredModel s' = structuredModel /\
    (completion_never_succeeds a (tools (toolkit s)) structuredModel ->
     completion_never_succeeds a (tools (toolkit s')) structuredModel).
Proof.
  unfold reply_require, bind, modify, ret. simpl.
  destruct structuredModel as [sm |]; simpl.
  - eexists. split; [reflexivity |]. simpl. repeat split; try done.
    intros Hnever tool Htool. rewrite lookup_alter in Htool.
    destruct (decide (finishFunctionName a = finishFunctionName a)); [| done].
    destruct (tools (toolkit s) !! finishFunctionName a) as [tool0 |] eqn:Ht0; [| done].
    simpl in Htool. inversion Htool; subst. simpl. by apply Hnever.
  - eexists. split; [reflexivity |]. by simpl.
Qed.

Lemma reply_record_run (a : Agent) (msg : list Message) (replyMsg : Message) (s : State) :
  exists s' evs,
    reply_record a msg replyMsg s = (Ok tt, s') /\
    trace s' = trace s ++ evs /\
    forallb is_record evs = true /\
    memory s' = memory s.
Proof.
  unfold reply_record. destruct (staticControl a).
  - unfold bind, getMemory, gets, emit, modify. simpl.
    do 2 eexists. split; [reflexivity |]. simpl. split; [reflexivity |]. done.
  - exists s, []. unfold ret. by rewrite app_nil_r.
Qed.

(** The run of [reply] when no completion can succeed or the model
    never asks for the completion action: the loop uses up its bound,
    then one summarizing call is made and its message is returned. *)
Lemma reply_exhausts_bound (a : Agent) (K : nat) (msg : list Message)
    (structuredModel : option StructuredModel) (s : State) :
  maxIters a = Z.of_nat K ->
  reasoning_hooks_hand_on a ->
  acting_hooks_hand_on a ->
  model_always_returns a ->
  (staticControl a = true -> is_Some (longTermMemory a)) ->
  completion_never_succeeds a (tools (toolkit s)) structuredModel \/
  model_avoids_completion a ->
  exists replyMsg s' before loopEvents sumState sumPrints after,
    reply a msg structuredModel s = (Ok replyMsg, s') /\
    trace s' = trace s ++ before ++ loopEvents ++
      EvModelCall (model_calls s + K) (summarizing_input a sumState) None
        :: sumPrints ++ after /\
    forallb is_retrieve before = true /\
    count is_iteration loopEvents = K /\
    count is_reasoning_call loopEvents = K /\
    count is_summarizing_call loopEvents = 0%nat /\
    (K <= count is_tool_call loopEvents)%nat /\
    forallb is_print sumPrints = true /\
    forallb is_record after = true /\
    content replyMsg =
      Structured (summary_blocks
                    (model a (model_calls s + K)%nat (summarizing_input a sumState) None)) /\
    last (memory s') = Some replyMsg.
Proof.
  intros HK Hrh Hah Hmodel Hltm Hnever.
  unfold reply. unfold bind at 1, memory_add, modify. cbn beta iota.
  set (s0 := set_memory (memory s ++ msg) s).
  destruct (reply_retrieve_run a msg s0 Hltm)
    as (s1 & before & Hret & Ht1 & Hb & Htk1 & Hrsm1 & Hc1).
  unfold bind at 1. rewrite Hret.
  destruct (reply_require_run a structuredModel s1)
    as (s2 & Hreq & Ht2 & Hc2 & Hrsm2 & Hkeep).
  unfold bind at 1. rewrite Hreq.
  assert (Hnever2 : completion_never_succeeds a (tools (toolkit s2))
                      (requiredStructuredModel s2) \/
                    model_avoids_completion a).
  { destruct Hnever as [Hnever | Havoids]; [left | by right].
    rewrite Hrsm2. apply Hkeep. rewrite Htk1. exact Hnever. }
  destruct (react_loop_exhausts a Hrh Hah Hmodel K 0 s2 ltac:(lia) Hnever2)
    as (s3 & loopEvents & Hloop & Ht3 & Hi & Hrc & Hsc & Htc & _ & _ & Hc3).
  unfold bind at 1. rewrite HK, Nat2Z.id, Hloop.
  destruct (summarizing_run a s3 (Hmodel _ _ _))
    as (replyMsg & s4 & sumPrints & Hsum & Hcontent & _ & _ & Ht4 & Hsp & Hm4 & _ & _).
  unfold bind at 1. rewrite Hsum.
  destruct (reply_record_run a msg replyMsg s4) as (s5 & after & Hrec & Ht5 & Hra & Hm5).
  unfold bind at 1. rewrite Hrec.
  unfold bind, modify, ret. simpl.
  assert (Hcalls : model_calls s3 = (model_calls s + K)%nat).
  { rewrite Hc3, Hc2, Hc1. reflexivity. }
  exists replyMsg. eexists. exists before, loopEvents, s3, sumPrints, after.
  split; [reflexivity |]. simpl.
  split.
  { rewrite Ht5, Ht4, Ht3, Ht2, Ht1, Hcalls. subst s0. simpl.
    rewrite <- !app_assoc. simpl. reflexivity. }
  repeat (split; [assumption |]).
  split.
  { rewrite Hcontent. unfold summarizing_outcome. by rewrite Hcalls. }
  apply last_snoc.
Qed.


(** ** The rounds of a call never exceed the bound *)

Lemma ret_begins_no_round {A : Type} (x : A) : begins_no_round (ret x).
Proof. by intros s. Qed.

Lemma raise_begins_no_round {A : Type} (e : JsError) : begins_no_round (@raise A e).
Proof. by intros s. Qed.

Lemma gets_begins_no_round {A : Type} (f : State -> A) : begins_no_round (gets f).
Proof. by intros s. Qed.

Lemma bind_begins_no_round {A B : Type} (m : M A) (k : A -> M B) :
  begins_no_round m -> (forall x, begins_no_round (k x)) -> begins_no_round (bind m k).
Proof.
  intros Hm Hk s. unfold bind. specialize (Hm s).
  destruct (m s) as [[x | e] s1]; simpl in *; [| done].
  by rewrite Hk.
Qed.

Lemma modify_begins_no_round (f : State -> State) :
  (forall s, rounds (f s) = rounds s) -> begins_no_round (modify f).
Proof. intros Hf s. apply Hf. Qed.

Lemma emit_begins_no_round (e : Event) : is_iteration e = false -> begins_no_round (emit e).
Proof.
  intros He. apply modify_begins_no_round. intros s. unfold rounds. simpl.
  rewrite count_app. unfold count at 2. simpl. rewrite He. simpl. lia.
Qed.

Lemma print_begins_no_round (msg : Message) (last : bool) : begins_no_round (print msg last).
Proof. by apply emit_begins_no_round. Qed.

Lemma memory_add_begins_no_round (msgs : list Message) : begins_no_round (memory_add msgs).
Proof. by apply modify_begins_no_round. Qed.

Lemma generateUuid_begins_no_round : begins_no_round generateUuid.
Proof. by intros s. Qed.

Ltac no_round_using known :=
  repeat first
    [ known
    | apply ret_begins_no_round
    | apply raise_begins_no_round
    | apply gets_begins_no_round
    | apply print_begins_no_round
    | apply memory_add_begins_no_round
    | apply generateUuid_begins_no_round
    | apply emit_begins_no_round; reflexivity
    | apply modify_begins_no_round; intros ?; reflexivity
    | apply bind_begins_no_round; [| intros ?]
    | match goal with
      | |- begins_no_round (match ?x with _ => _ end) => destruct x
      | |- begins_no_round (if ?b then _ else _) => destruct b
      end
    | assumption ].

Ltac no_round := no_round_using fail.

Lemma model_call_begins_no_round (a : Agent) (formatted : Formatted)
    (schemas : option (list ToolSchema)) : begins_no_round (model_call a formatted schemas).
Proof. unfold model_call. no_round. Qed.

Lemma reasoning_stream_begins_no_round (chunks : list StreamChunk) :
  forall acc msg, begins_no_round (reasoning_stream chunks acc msg).
Proof.
  induction chunks as [| c rest IH]; intros acc msg; simpl; no_round_using ltac:(apply IH).
Qed.

Lemma reasoning_begins_no_round (a : Agent) : begins_no_round (reasoning a).
Proof.
  unfold reasoning, reasoning_response, generateShortUuid.
  no_round_using
    ltac:(first [apply model_call_begins_no_round | apply reasoning_stream_begins_no_round]).
Qed.

Lemma acting_chunks_begins_no_round (a : Agent) (toolCall : ToolUseBlock)
    (chunks : list ToolResponse) :
  forall msg r, begins_no_round (acting_chunks a toolCall chunks msg r).
Proof.
  induction chunks as [| c rest IH]; intros msg r; simpl; no_round_using ltac:(apply IH).
Qed.

Lemma drain_begins_no_round (a : Agent) (g : AsyncGenerator) : begins_no_round (drain a g).
Proof.
  destruct g; simpl; unfold generateResponse, createResetToolsWrapper; no_round.
Qed.

Lemma acting_begins_no_round (a : Agent) (toolCall : ToolUseBlock) :
  begins_no_round (acting a toolCall).
Proof.
  unfold acting, callToolFunction.
  no_round_using
    ltac:(first [apply drain_begins_no_round | apply acting_chunks_begins_no_round]).
Qed.

Lemma reasoningWithHooks_begins_no_round (a : Agent) : begins_no_round (reasoningWithHooks a).
Proof.
  unfold reasoningWithHooks. no_round_using ltac:(apply reasoning_begins_no_round).
Qed.

Lemma actingWithHooks_begins_no_round (a : Agent) (toolCall : ToolUseBlock) :
  begins_no_round (actingWithHooks a toolCall).
Proof.
  unfold actingWithHooks. no_round_using ltac:(apply acting_begins_no_round).
Qed.

Lemma sequence_begins_no_round {A : Type} (ms : list (M A)) :
  Forall begins_no_round ms -> begins_no_round (sequence ms).
Proof.
  induction 1 as [| m rest Hm Hrest IH]; simpl; no_round.
Qed.

Lemma acted_rounds (k : nat) (s s' : State) : acted k s s' -> rounds s' = rounds s.
Proof.
  intros ((evs & Ht & Hacting & _) & _). unfold rounds. rewrite Ht, count_app.
  rewrite (count_none is_iteration is_acting_event evs) by (done || by intros []). lia.
Qed.

(** The acting steps of a round begin no round, whatever the order in
    which the runtime runs them. *)
Lemma acting_round_begins_no_round (a : Agent) (toolCalls : list ToolUseBlock) :
  begins_no_round
    (if parallelToolCalls a then Promise_all (map (actingWithHooks_task a) toolCalls)
     else await_each (map (actingWithHooks_task a) toolCalls)).
Proof.
  intros s. destruct (acting_round_run a toolCalls s) as (responses & s' & Hrun & _ & Hacted).
  rewrite Hrun. by eapply acted_rounds.
Qed.

Lemma summarizing_stream_begins_no_round (chunks : list StreamChunk) :
  forall msg, begins_no_round (summarizing_stream chunks msg).
Proof.
  induction chunks as [| c rest IH]; intros msg; simpl; no_round_using ltac:(apply IH).
Qed.

Lemma summarizing_begins_no_round (a : Agent) : begins_no_round (summarizing a).
Proof.
  unfold summarizing.
  no_round_using
    ltac:(first [apply model_call_begins_no_round | apply summarizing_stream_begins_no_round]).
Qed.

(** The loop begins at most as many rounds as it is given fuel, and none
    once the bound is reached. *)
Lemma react_loop_rounds (a : Agent) :
  forall (fuel : nat) (iteration : Z) (s : State),
    (rounds (snd (react_loop a fuel iteration s))
     <= rounds s + Z.to_nat (maxIters a - iteration))%nat.
Proof.
  induction fuel as [| fuel IH]; intros i s; cbn [react_loop]; [unfold ret; cbn [snd]; lia |].
  destruct (i <? maxIters a) eqn:Hlt; [| unfold ret; cbn [snd]; lia].
  apply Z.ltb_lt in Hlt.
  unfold bind at 1, emit, modify. cbn beta iota.
  set (s0 := set_trace (trace s ++ [EvIteration (i + 1)]) s).
  assert (Hs0 : rounds s0 = S (rounds s)).
  { unfold rounds. subst s0. simpl. rewrite count_app. unfold count at 2. simpl. lia. }
  unfold bind at 1.
  pose proof (reasoningWithHooks_begins_no_round a s0) as Hr.
  destruct (reasoningWithHooks a s0) as [[msg | e] s1]; simpl in Hr; [| cbn [snd]; lia].
  destruct (length (getToolUseBlocks msg) =? 0)%nat; [unfold ret; cbn [snd]; lia |].
  unfold bind at 1.
  set (round := if parallelToolCalls a
                then Promise_all (map (actingWithHooks_task a) (getToolUseBlocks msg))
                else await_each (map (actingWithHooks_task a) (getToolUseBlocks msg))).
  assert (Hround : begins_no_round round) by apply acting_round_begins_no_round.
  specialize (Hround s1).
  destruct (round s1) as [[responses | e] s2]; simpl in Hround; [| cbn [snd]; lia].
  destruct (first_reply responses); [unfold ret; cbn [snd]; lia |].
  specialize (IH (i + 1) s2). lia.
Qed.

(** More fuel than the bound leaves room for does not change the loop. *)
Lemma react_loop_fuel_enough (a : Agent) :
  forall (fuel extra : nat) (iteration : Z) (s : State),
    maxIters a - iteration <= Z.of_nat fuel ->
    react_loop a (fuel + extra) iteration s = react_loop a fuel iteration s.
Proof.
  induction fuel as [| fuel IH]; intros extra i s Hfuel.
  - destruct extra as [| extra]; [done |]. simpl.
    assert (Hge : (i <? maxIters a) = false) by (apply Z.ltb_ge; lia).
    by rewrite Hge.
  - simpl. destruct (i <? maxIters a) eqn:Hlt; [| done].
    unfold bind. destruct (emit _ s) as [[[] | e] s0]; [| done].
    destruct (reasoningWithHooks a s0) as [[msg | e] s1]; [| done].
    destruct (length _ =? 0)%nat; [done |].
    match goal with
    | |- context [(if parallelToolCalls a then ?p else ?q) s1] =>
        destruct ((if parallelToolCalls a then p else q) s1) as [[responses | e] s2]; [| done]
    end.
    destruct (first_reply responses); [done |].
    apply IH. lia.
Qed.

Lemma reply_retrieve_begins_no_round (a : Agent) (msg : list Message) :
  begins_no_round (reply_retrieve a msg).
Proof. unfold reply_retrieve. no_round. Qed.

Lemma reply_require_begins_no_round (a : Agent) (structuredModel : option StructuredModel) :
  begins_no_round (reply_require a structuredModel).
Proof. unfold reply_require. no_round. Qed.

Lemma reply_record_begins_no_round (a : Agent) (msg : list Message) (replyMsg : Message) :
  begins_no_round (reply_record a msg replyMsg).
Proof. unfold reply_record, getMemory. no_round. Qed.

(** Whatever the model and the tools do, a call of [reply] begins at most
    as many rounds as the iteration bound allows. *)
Lemma reply_rounds_bounded (a : Agent) (msg : list Message)
    (structuredModel : option StructuredModel) (s : State) :
  (rounds (snd (reply a msg structuredModel s)) <= rounds s + Z.to_nat (maxIters a))%nat.
Proof.
  unfold reply.
  unfold bind at 1, memory_add at 1, modify. cbn beta iota.
  set (s0 := set_memory (memory s ++ msg) s).
  assert (H0 : rounds s0 = rounds s) by reflexivity.
  unfold bind at 1.
  pose proof (reply_retrieve_begins_no_round a msg s0) as H1.
  destruct (reply_retrieve a msg s0) as [[[] | e] s1]; simpl in H1; [| cbn [snd]; lia].
  unfold bind at 1.
  pose proof (reply_require_begins_no_round a structuredModel s1) as H2.
  destruct (reply_require a structuredModel s1) as [[[] | e] s2]; simpl in H2;
    [| cbn [snd]; lia].
  unfold bind at 1.
  pose proof (react_loop_rounds a (Z.to_nat (maxIters a)) 0 s2) as H3.
  rewrite Z.sub_0_r in H3.
  destruct (react_loop a (Z.to_nat (maxIters a)) 0 s2) as [[found | e] s3];
    cbn [snd] in H3; [| cbn [snd]; lia].
  match goal with
  | |- (rounds (snd (?rest s3)) <= _)%nat => assert (Hrest : begins_no_round rest)
  end.
  { no_round_using
      ltac:(first [apply summarizing_begins_no_round | apply reply_record_begins_no_round]). }
  rewrite Hrest. lia.
Qed.

(** ** The constructor *)

Lemma setupToolkit_completion (agentic metaTool : bool) (ltm : option ILongTermMemory)
    (tk : Toolkit) :
  exists tool,
    tools (setupToolkit "generate_response" agentic metaTool ltm tk) !! "generate_response"
      = Some tool /\
    func tool = generateResponse_bound.
Proof.
  unfold setupToolkit, ToolkitOps.registerToolWithMetadata, ToolkitOps.registerToolFunction.
  destruct ltm as [l |], agentic, metaTool; simpl;
    rewrite ?lookup_insert_ne by done; rewrite lookup_insert_eq; eauto.
Qed.

Lemma new_ReActAgent_maxIters (config : AgentConfig) :
  maxIters (fst (new_ReActAgent config)) = max_iters_or_default (max_iters config).
Proof. reflexivity. Qed.

Lemma falsy_defaults (v : option JsNumber) :
  falsy_number v = true -> max_iters_or_default v = 10.
Proof.
  destruct v as [[z |] |]; simpl; try done. intros Hz. by rewrite Hz.
Qed.

(** C10. Constructing an agent with max_iters 0, NaN or absent gives the
    iteration bound 10. A reply of that agent never begins more than 10
    rounds, and when its completions never succeed it runs all 10 before
    its single summarizing call. *)
Theorem C10_falsy_max_iters_gives_ten_rounds (config : AgentConfig)
    (Hfalsy : falsy_number (max_iters config) = true) :
  maxIters (fst (new_ReActAgent config)) = 10 /\
  (forall (msg : list Message) (structuredModel : option StructuredModel),
     (rounds (snd (reply (fst (new_ReActAgent config)) msg structuredModel
                     (snd (new_ReActAgent config)))) <= 10)%nat) /\
  forall (msg : list Message) (sm : StructuredModel),
    rejects_all sm ->
    (forall n formatted schemas, model_returns (cfg_model config n formatted schemas) = true) ->
    exists replyMsg s',
      reply (fst (new_ReActAgent config)) msg (Some sm) (snd (new_ReActAgent config))
        = (Ok replyMsg, s') /\
      count is_iteration (trace s') = 10%nat /\
      count is_reasoning_call (trace s') = 10%nat /\
      count is_summarizing_call (trace s') = 1%nat.
Proof.
  assert (Hten : maxIters (fst (new_ReActAgent config)) = 10).
  { rewrite new_ReActAgent_maxIters. by apply falsy_defaults. }
  split; [exact Hten |]. split.
  { intros msg structuredModel.
    pose proof (reply_rounds_bounded (fst (new_ReActAgent config)) msg structuredModel
                  (snd (new_ReActAgent config))) as Hbound.
    rewrite Hten in Hbound. exact Hbound. }
  intros msg sm Hrej Hmodel.
  set (a := fst (new_ReActAgent config)). set (s := snd (new_ReActAgent config)).
  assert (HK : maxIters a = Z.of_nat 10) by exact Hten.
  assert (Hnever : completion_never_succeeds a (tools (toolkit s)) (Some sm)).
  { intros tool Htool.
    destruct (setupToolkit_completion
                (match long_term_memory config with Some _ => true | None => false end
                 && mode_in (default both (long_term_memory_mode config)) [agent_control; both])
                (default false (enable_meta_tool config)) (long_term_memory config)
                (default ToolkitOps.new_Toolkit (cfg_toolkit config)))
      as (tool' & Hl & Hf).
    subst a s.
    change (finishFunctionName (fst (new_ReActAgent config))) with "generate_response" in Htool.
    change (toolkit (snd (new_ReActAgent config)))
      with (setupToolkit "generate_response"
              (match long_term_memory config with Some _ => true | None => false end
               && mode_in (default both (long_term_memory_mode config)) [agent_control; both])
              (default false (enable_meta_tool config)) (long_term_memory config)
              (default ToolkitOps.new_Toolkit (cfg_toolkit config))) in Htool.
    rewrite Hl in Htool. inversion Htool; subst.
    rewrite Hf. simpl. eauto. }
  assert (Hltm : staticControl a = true -> is_Some (longTermMemory a)).
  { subst a. simpl. destruct (long_term_memory config); [eauto | done]. }
  destruct (reply_exhausts_bound a 10 msg (Some sm) s HK
              (no_hooks_hand_on_reasoning a ltac:(by split))
              (no_hooks_hand_on_acting a ltac:(by split)) Hmodel Hltm (or_introl Hnever))
    as (replyMsg & s' & before & loopEvents & sumState & sumPrints & after
        & Hreply & Ht & Hb & Hi & Hrc & Hsc & _ & Hsp & Hra & _).
  exists replyMsg, s'. split; [exact Hreply |].
  rewrite Ht. subst s. simpl.
  change (EvModelCall ?i ?f None :: sumPrints ++ after)
    with ([EvModelCall i f None] ++ sumPrints ++ after).
  rewrite !count_app, Hi, Hrc, Hsc.
  rewrite !(count_none _ is_retrieve before), !(count_none _ is_print sumPrints),
    !(count_none _ is_record after) by (done || by intros []).
  done.
Qed.

(** ** What the completion handler checks *)

(** A completion request that reaches the handler registered by the
    constructor is called with the response argument alone, so the
    contract of the call is checked on an empty object, whatever else the
    request carries. *)
Lemma completion_contract_checked_on_empty_object (a : Agent) (s : State)
    (toolCall : ToolUseBlock) (tool : ToolFunctionMetadata) (sm : StructuredModel)
    (response : jsval) :
  JsSet.has (tu_name toolCall) (equippedTools (toolkit s)) = true ->
  tools (toolkit s) !! tu_name toolCall = Some tool ->
  func tool = generateResponse_bound ->
  parameters tool = generate_response_schema ->
  alist_get "response" (tu_input toolCall) = Some response ->
  requiredStructuredModel s = Some sm ->
  ToolkitOps.callToolFunction toolCall (toolkit s) = GenGenerateResponse [response] /\
  exists chunk s',
    drain a (ToolkitOps.callToolFunction toolCall (toolkit s)) s = (Ok ([chunk], None), s') /\
    success (tr_metadata chunk)
      = Some (match parse sm (JsObj []) with Ok _ => true | Throw _ => false end).
Proof.
  intros Hequipped Htool Hfunc Hparams Hresponse Hrsm.
  assert (Hcall : ToolkitOps.callToolFunction toolCall (toolkit s)
                  = GenGenerateResponse [response]).
  { unfold ToolkitOps.callToolFunction. rewrite Hequipped, Htool. simpl.
    unfold ToolkitOps.validateInput, ToolkitOps.callToolFunctionWithArgs.
    rewrite Hparams, Hfunc. simpl. unfold js_in, js_get, alist_has.
    rewrite Hresponse. simpl. by rewrite Hresponse. }
  split; [exact Hcall |]. rewrite Hcall. simpl.
  unfold generateResponse, bind, generateUuid, gets, ret. simpl. rewrite Hrsm.
  destruct (parse sm (JsObj [])); simpl; eauto.
Qed.

(** ** Streams whose chunks repeat what came before *)

(** When an earlier chunk of a stream is not empty, the blocks reasoning
    gathers are more than the blocks of the last chunk. *)
Lemma gathered_blocks_exceed_last_chunk (earlier : list StreamChunk) (final : StreamChunk) :
  concat (map chunk_content earlier) <> [] ->
  gathered_blocks (ModelStream (earlier ++ [final]) None) <> chunk_content final.
Proof.
  intros Hne Heq. simpl in Heq. rewrite map_app, concat_app in Heq. simpl in Heq.
  rewrite app_nil_r in Heq. apply (f_equal length) in Heq. rewrite length_app in Heq.
  destruct (concat (map chunk_content earlier)); [done |]. simpl in Heq. lia.
Qed.

(** Summarizing keeps the blocks of the last chunk alone. *)
Lemma summary_blocks_of_stream (earlier : list StreamChunk) (final : StreamChunk) :
  summary_blocks (ModelStream (earlier ++ [final]) None) = chunk_content final.
Proof. simpl. by rewrite last_snoc. Qed.

End Facts.
(** * Messages and the short-term memory *)

Module MessageFacts.
Section Facts.
Context `{Runtime}.

(** X1. On a message whose content is a string or an array,
    [addContentBlock] succeeds and leaves the blocks the message had
    (the text of a string content as one text block) followed by the new
    block; identifier, name, role and metadata stay. *)
Theorem addContentBlock_keeps_blocks_and_appends (block : ContentBlock) (m : Message)
    (Hcontent : forall v, content m <> OtherContent v) :
  exists m',
    addContentBlock block m = Ok m' /\
    getContentBlocks None m' = getContentBlocks None m ++ [block] /\
    msg_id m' = msg_id m /\ msg_name m' = msg_name m /\
    role m' = role m /\ metadata m' = metadata m.
Proof.
  unfold addContentBlock, getContentBlocks.
  destruct (content m) as [s | blocks | v] eqn:Hc.
  - eexists. split; [reflexivity |]. simpl. done.
  - eexists. split; [reflexivity |]. simpl. done.
  - by destruct (Hcontent v).
Qed.

(** X2. Reading back what [toJSON] wrote gives the message itself,
    without drawing an identifier, when the identifier is not empty and
    the metadata is truthy. *)
Theorem fromJSON_toJSON_round_trip (m : Message) (s : State)
    (Hid : msg_id m <> "")
    (Hmetadata : truthy (metadata m) = true) :
  fromJSON (toJSON m) s = (Ok m, s).
Proof.
  unfold fromJSON, toJSON, Message_new, bind, ret. simpl.
  rewrite Hmetadata.
  destruct (String.eqb (msg_id m) "") eqn:Heq.
  - apply String.eqb_eq in Heq. done.
  - simpl. by destruct m.
Qed.

End Facts.
End MessageFacts.

Module MemoryFacts.
Section Facts.
Context `{Runtime}.



End Facts.

(** X4. [getRecentMessages(count)] returns the last [count] messages for
    a positive count (all of them when there are fewer); for count 0 it
    returns every message, not none; for a negative count [-k] it drops
    the first [k]. *)
Theorem getRecentMessages_by_count (messages : list Message) (k : nat) :
  InMemoryMemory.getRecentMessages (NumInt (Z.of_nat (S k))) messages
    = drop (length messages - S k) messages /\
  InMemoryMemory.getRecentMessages (NumInt 0) messages = messages /\
  InMemoryMemory.getRecentMessages (NumInt (- Z.of_nat k)) messages = drop k messages.
Proof.
  unfold InMemoryMemory.getRecentMessages, slice_start.
  split; [| split].
  - destruct (- Z.of_nat (S k) <? 0) eqn:Hneg; [| apply Z.ltb_ge in Hneg; lia].
    f_equal. lia.
  - change (- 0 <? 0) with false. cbv iota.
    replace (Z.to_nat (Z.min (- 0) (Z.of_nat (length messages)))) with 0%nat by lia.
    reflexivity.
  - rewrite Z.opp_involutive.
    destruct (Z.of_nat k <? 0) eqn:Hneg; [apply Z.ltb_lt in Hneg; lia |].
    destruct (decide (k <= length messages)%nat) as [Hle | Hgt].
    + f_equal. lia.
    + replace (Z.to_nat (Z.min (Z.of_nat k) (Z.of_nat (length messages))))
        with (length messages) by lia.
      rewrite !drop_ge; [done | lia | lia].
Qed.

(** X5. [removeMessage(index)] reports true exactly for an index of the
    memory; it then takes out that one message and keeps the others in
    order. For any other index it reports false and changes nothing. *)
Theorem removeMessage_takes_out_one (index : Z) (messages : list Message) :
  (fst (InMemoryMemory.removeMessage (NumInt index) messages) = true
   <-> 0 <= index < Z.of_nat (length messages)) /\
  (fst (InMemoryMemory.removeMessage (NumInt index) messages) = true ->
   S (length (snd (InMemoryMemory.removeMessage (NumInt index) messages))) = length messages /\
   forall i : nat,
     snd (InMemoryMemory.removeMessage (NumInt index) messages) !! i
       = messages !! (if decide (i < Z.to_nat index)%nat then i else S i)) /\
  (fst (InMemoryMemory.removeMessage (NumInt index) messages) = false ->
   snd (InMemoryMemory.removeMessage (NumInt index) messages) = messages).
Proof.
  unfold InMemoryMemory.removeMessage.
  destruct ((0 <=? index) && (index <? Z.of_nat (length messages))) eqn:Hrange; simpl.
  - apply andb_true_iff in Hrange as [Hlo Hhi].
    apply Z.leb_le in Hlo. apply Z.ltb_lt in Hhi.
    split; [split; [intros _; lia | done] |].
    split; [| discriminate].
    intros _. split.
    + rewrite length_app, length_take, length_drop. lia.
    + intros i. destruct (decide (i < Z.to_nat index)%nat) as [Hlt | Hge].
      * rewrite lookup_app_l by (rewrite length_take; lia).
        by rewrite lookup_take_lt.
      * rewrite lookup_app_r by (rewrite length_take; lia).
        rewrite length_take, lookup_drop. f_equal. lia.
  - split; [split; [discriminate |] |].
    + intros [Hlo Hhi]. apply andb_false_iff in Hrange as [Hr | Hr].
      * apply Z.leb_gt in Hr. lia.
      * apply Z.ltb_ge in Hr. lia.
    + split; [discriminate | done].
Qed.

End MemoryFacts.
(** * Tool responses and the toolkit beyond its invariant *)

Module ToolResponseFacts.
Import ToolResponseTs.

Lemma createStreamResponse_from_lookup (chunks : list string) (md : ToolMetadata) (total : nat) :
  forall (start i : nat) (r : ToolResponse),
    createStreamResponse_from start total chunks md !! i = Some r ->
    exists chunk,
      chunks !! i = Some chunk /\
      r = new (ContentString chunk) (with_success true md) (start + i =? total - 1)%nat.
Proof.
  induction chunks as [| c rest IH]; intros start i r Hr; simpl in Hr.
  - by rewrite lookup_nil in Hr.
  - destruct i as [| i]; simpl in Hr.
    + inversion Hr; subst r. exists c. split; [done |]. by rewrite Nat.add_0_r.
    + destruct (IH (S start) i r Hr) as (chunk & Hchunk & ->).
      exists chunk. split; [done |]. by replace (S start + i)%nat with (start + S i)%nat by lia.
Qed.

Lemma createStreamResponse_from_length (chunks : list string) (md : ToolMetadata) (total : nat) :
  forall start, length (createStreamResponse_from start total chunks md) = length chunks.
Proof. induction chunks as [| c rest IH]; intros start; simpl; [done | by rewrite IH]. Qed.

(** X6. [createStreamResponse(chunks, metadata)] yields one response for
    each chunk, in order, each holding its chunk as one text block and
    marked successful whatever the metadata says; only the response of
    the last chunk is marked as the last one. With no chunks it yields
    nothing. *)
Theorem createStreamResponse_marks_only_the_last (chunks : list string) (md : ToolMetadata) :
  length (createStreamResponse chunks md) = length chunks /\
  forall (i : nat) (r : ToolResponse),
    createStreamResponse chunks md !! i = Some r ->
    exists chunk,
      chunks !! i = Some chunk /\
      tr_content r = [Text chunk] /\
      success (tr_metadata r) = Some true /\
      isSuccess r = true /\
      is_last r = bool_decide (S i = length chunks).
Proof.
  unfold createStreamResponse. split; [apply createStreamResponse_from_length |].
  intros i r Hr.
  destruct (createStreamResponse_from_lookup _ _ _ _ _ _ Hr) as (chunk & Hchunk & ->).
  exists chunk. repeat split; [done |]. simpl.
  apply lookup_lt_Some in Hchunk.
  destruct (decide (S i = length chunks)) as [Heq | Hne].
  - rewrite bool_decide_eq_true_2 by done. apply Nat.eqb_eq. lia.
  - rewrite bool_decide_eq_false_2 by done. apply Nat.eqb_neq. lia.
Qed.

(** X7. The builder returns the blocks in the order they were added. Of
    [success()] and [failure()] the one called last decides the flag,
    but an error text stored by [failure] stays after [success()], and a
    response built without either call counts as a success. *)
Theorem builder_keeps_order_and_error (b : Builder) (text err : string) (block : ContentBlock) :
  tr_content (build (addContentBlock block (addText text b)))
    = tr_content (build b) ++ [Text text; block] /\
  isSuccess (build (mark_success (failure (Some err) b))) = true /\
  getError (build (mark_success (failure (Some err) b)))
    = getError (build (failure (Some err) b)) /\
  (err <> "" -> getError (build (mark_success (failure (Some err) b))) = Some err) /\
  isSuccess (build (failure (Some err) (mark_success b))) = false /\
  isSuccess (build new_Builder) = true.
Proof.
  split; [simpl; by rewrite <- app_assoc |].
  split; [reflexivity |]. split; [reflexivity |].
  split; [| split; [| reflexivity]].
  - intros Herr. unfold getError, build, mark_success, failure. simpl.
    destruct (String.eqb err "") eqn:Heq; [by apply String.eqb_eq in Heq |].
    simpl. by rewrite Heq.
  - unfold isSuccess, build, failure. simpl. by destruct (String.eqb err "").
Qed.

End ToolResponseFacts.

Module ToolkitMoreFacts.
Import ToolkitOps.

Lemma build_args_positional (params : ToolParameterSchema) (input : JsRecord) :
  (forall r, r ∈ default [] (required params) -> js_in r input = true) ->
  forall paramNames, build_args paramNames input params = Ok (positional paramNames input).
Proof.
  intros Hreq paramNames. induction paramNames as [| p rest IH]; simpl; [done |].
  rewrite IH. destruct (js_in p input) eqn:Hin; [done |].
  destruct (decide (p ∈ default [] (required params))) as [Hp | Hp].
  - rewrite (Hreq p Hp) in Hin. discriminate Hin.
  - by rewrite bool_decide_eq_false_2.
Qed.

(** X8. When the input has every required parameter, the tool function
    is called with one positional argument for each property of the
    schema, in the order of the schema: the input's value for it, or
    [undefined]. What the input holds beside the schema's properties is
    not passed on, so two inputs that agree on them give the same call. *)
Theorem arguments_follow_the_schema (f : ToolFunction) (input : JsRecord)
    (params : ToolParameterSchema)
    (Hrequired : forall r, r ∈ default [] (required params) -> js_in r input = true) :
  let paramNames := JsObject.keys (default JsObject.empty (properties params)) in
  validateInput input params = Ok input /\
  callToolFunctionWithArgs f input params = apply_func f (positional paramNames input) /\
  forall other : JsRecord,
    (forall p, p ∈ paramNames -> js_in p other = js_in p input /\ js_get p other = js_get p input) ->
    (forall r, r ∈ default [] (required params) -> js_in r other = true) ->
    callToolFunctionWithArgs f other params = callToolFunctionWithArgs f input params.
Proof.
  intros paramNames.
  assert (Hvalid : validateInput input params = Ok input).
  { unfold validateInput. destruct (required params) as [reqs |] eqn:Hreqs; [| done].
    simpl in Hrequired. clear Hreqs.
    induction reqs as [| r rest IH]; simpl; [done |].
    rewrite Hrequired by (apply elem_of_cons; by left). simpl.
    apply IH. intros r' Hr'. apply Hrequired. apply elem_of_cons. by right. }
  assert (Hcall : forall i, (forall r, r ∈ default [] (required params) -> js_in r i = true) ->
                            callToolFunctionWithArgs f i params
                            = apply_func f (positional paramNames i)).
  { intros i Hi. unfold callToolFunctionWithArgs. fold paramNames.
    by rewrite build_args_positional. }
  split; [exact Hvalid |]. split; [by apply Hcall |].
  intros other Hagree Hother. rewrite !Hcall by done. f_equal.
  unfold positional. apply map_ext_in. intros p Hp.
  apply list_elem_of_In in Hp. destruct (Hagree p Hp) as [-> ->]. done.
Qed.

Lemma fold_add_NoDup (names : list string) :
  forall s : JsSet.t, NoDup s -> NoDup (fold_left (fun acc name => JsSet.add name acc) names s).
Proof.
  induction names as [| n rest IH]; intros s Hs; simpl; [done |].
  apply IH. unfold JsSet.add. destruct (JsSet.has n s) eqn:Hn; [done |].
  apply NoDup_app. split; [done |]. split; [| apply NoDup_singleton].
  intros x Hx Hx'. apply list_elem_of_singleton in Hx'. subst x.
  apply JsSetFacts.has_true in Hx. congruence.
Qed.

Lemma resetEquippedTools_known (toolNames : list string) (tk : Toolkit) :
  (forall n, n ∈ toolNames -> is_Some (tools tk !! n)) ->
  resetEquippedTools toolNames tk
  = (Ok tt,
     mkToolkit (tools tk) (fold_left (fun s name => JsSet.add name s) toolNames [])).
Proof.
  intros Hknown. unfold resetEquippedTools.
  assert (Hnone : List.filter
            (fun name => negb (bool_decide (is_Some (tools tk !! name)))) toolNames = []).
  { induction toolNames as [| n rest IH]; simpl; [done |].
    rewrite bool_decide_eq_true_2 by (apply Hknown, elem_of_cons; by left). simpl.
    apply IH. intros n' Hn'. apply Hknown. apply elem_of_cons. by right. }
  by rewrite Hnone.
Qed.

(** X9. After [resetEquippedTools(names)] with registered names, the
    equipped tools are exactly those names, each once, and the registry
    is as before; a tool left out of the names is still registered, yet
    invoking it yields the single not-equipped error response and the
    tool function is not called. *)
Theorem unequipped_tool_is_not_invoked (tk : Toolkit) (toolNames : list string)
    (toolCall : ToolUseBlock)
    (Hknown : forall n, n ∈ toolNames -> is_Some (tools tk !! n))
    (Hleft_out : tu_name toolCall ∉ toolNames) :
  let after := snd (resetEquippedTools toolNames tk) in
  fst (resetEquippedTools toolNames tk) = Ok tt /\
  tools after = tools tk /\
  (forall n, n ∈ getEquippedTools after <-> n ∈ toolNames) /\
  NoDup (getEquippedTools after) /\
  callToolFunction toolCall after
    = GenChunks
        [createErrorResponse ("工具 '" +:+ tu_name toolCall +:+ "' 未装备或不存在")] None.
Proof.
  rewrite resetEquippedTools_known by done. simpl.
  split; [done |]. split; [done |].
  assert (Hmem : forall n, n ∈ fold_left (fun s name => JsSet.add name s) toolNames []
                           <-> n ∈ toolNames).
  { intros n. rewrite JsSetFacts.elem_of_fold_add. rewrite elem_of_nil. tauto. }
  split; [exact Hmem |].
  split; [apply fold_add_NoDup; constructor |].
  unfold callToolFunction. simpl.
  destruct (JsSet.has (tu_name toolCall) _) eqn:Hhas; [| done].
  apply JsSetFacts.has_true, Hmem in Hhas. done.
Qed.

Lemma after_call_stored_by_name (c : ToolkitCall) (tk : Toolkit) :
  stored_by_name tk -> stored_by_name (after_call c tk).
Proof.
  intros Hinv. destruct c as [f name | f name d p | toolNames | toolName model | name |]; simpl.
  - intros n tool. unfold registerToolFunction. simpl.
    match goal with |- context [<[?k := _]> _] => set (key := k) end.
    destruct (decide (key = n)) as [<- | Hne].
    + rewrite lookup_insert_eq. intros Heq. by inversion Heq.
    + rewrite lookup_insert_ne by done. apply Hinv.
  - intros n tool. simpl. destruct (decide (name = n)) as [<- | Hne].
    + rewrite lookup_insert_eq. intros Heq. by inversion Heq.
    + rewrite lookup_insert_ne by done. apply Hinv.
  - unfold stored_by_name. rewrite ToolkitFacts.reset_keeps_registry. exact Hinv.
  - intros n tool. unfold setExtendedModel. simpl. rewrite lookup_alter.
    destruct (decide (toolName = n)) as [-> | Hne].
    + destruct (tools tk !! n) as [t |] eqn:Ht; simpl; [| done].
      intros Heq. inversion Heq; subst tool. simpl. by apply Hinv.
    + apply Hinv.
  - unfold removeToolFunction. destruct (hasToolFunction name tk); simpl; [| done].
    intros n tool Hn. simpl in Hn. apply lookup_delete_Some in Hn as [_ Hn]. by apply Hinv.
  - intros n tool Hn. simpl in Hn. by rewrite lookup_empty in Hn.
Qed.

Lemma after_call_NoDup (c : ToolkitCall) (tk : Toolkit) :
  NoDup (equippedTools tk) -> NoDup (equippedTools (after_call c tk)).
Proof.
  intros Hnd.
  assert (Hadd : forall n, NoDup (JsSet.add n (equippedTools tk))).
  { intros n. by apply (fold_add_NoDup [n]). }
  destruct c as [f name | f name d p | toolNames | toolName model | name |]; simpl.
  - apply Hadd.
  - apply Hadd.
  - unfold resetEquippedTools. destruct (0 <? _)%nat; simpl; [done |].
    apply fold_add_NoDup. constructor.
  - done.
  - unfold removeToolFunction. destruct (hasToolFunction name tk); simpl; [| done].
    unfold JsSet.delete. apply NoDup_ListNoDup, List.NoDup_filter. by apply NoDup_ListNoDup.
  - constructor.
Qed.

Lemma getJsonSchemas_names (tk : Toolkit) :
  equipped_registered tk -> stored_by_name tk ->
  map ts_name (getJsonSchemas tk) = getEquippedTools tk.
Proof.
  intros Hreg Hname. unfold getJsonSchemas, getEquippedTools.
  assert (Hall : forall n, n ∈ equippedTools tk -> is_Some (tools tk !! n)) by exact Hreg.
  induction (equippedTools tk) as [| n rest IH]; simpl; [done |].
  destruct (Hall n) as [tool Htool]; [apply elem_of_cons; by left |].
  rewrite Htool. simpl. rewrite (Hname n tool Htool). f_equal.
  apply IH. intros n' Hn'. apply Hall. apply elem_of_cons. by right.
Qed.

(** X10. Whatever calls were made on a toolkit since it was created,
    [getJsonSchemas] lists exactly the equipped tools: one schema for
    each, in the order in which they were equipped, under the name it is
    registered by, and no name twice. *)
Theorem schemas_list_the_equipped_tools (calls : list ToolkitCall) :
  let tk := after_calls calls new_Toolkit in
  map ts_name (getJsonSchemas tk) = getEquippedTools tk /\
  NoDup (getEquippedTools tk) /\
  forall n, n ∈ getEquippedTools tk -> hasToolFunction n tk = true.
Proof.
  assert (Hinv : forall tk,
            equipped_registered tk -> stored_by_name tk -> NoDup (equippedTools tk) ->
            let tk' := after_calls calls tk in
            equipped_registered tk' /\ stored_by_name tk' /\ NoDup (equippedTools tk')).
  { unfold after_calls. induction calls as [| c rest IH]; intros tk Hreg Hname Hnd; simpl.
    - done.
    - apply IH.
      + by apply ToolkitFacts.after_call_keeps.
      + by apply after_call_stored_by_name.
      + by apply after_call_NoDup. }
  intros tk.
  destruct (Hinv new_Toolkit) as (Hreg & Hname & Hnd).
  - apply ToolkitFacts.new_Toolkit_equipped_registered.
  - intros n tool Hn. simpl in Hn. by rewrite lookup_empty in Hn.
  - constructor.
  - split; [by apply getJsonSchemas_names |]. split; [exact Hnd |].
    intros n Hn. unfold hasToolFunction. apply bool_decide_eq_true_2. by apply Hreg.
Qed.

Lemma omap_pointwise {A B : Type} (f g : A -> option B) (l : list A) :
  (forall x, f x = g x) -> omap f l = omap g l.
Proof.
  intros Hext. induction l as [| x rest IH]; [done |].
  cbn. by rewrite Hext, IH.
Qed.

(** X11. [setExtendedModel] changes neither what [getJsonSchemas]
    reports nor what [callToolFunction] does, nor which tools are
    registered and equipped: the contract it stores is read by neither. *)
Theorem setExtendedModel_is_not_read (toolName : string) (model : StructuredModel)
    (tk : Toolkit) (toolCall : ToolUseBlock) :
  getJsonSchemas (setExtendedModel toolName model tk) = getJsonSchemas tk /\
  callToolFunction toolCall (setExtendedModel toolName model tk) = callToolFunction toolCall tk /\
  getEquippedTools (setExtendedModel toolName model tk) = getEquippedTools tk /\
  forall n, hasToolFunction n (setExtendedModel toolName model tk) = hasToolFunction n tk.
Proof.
  assert (Hlookup : forall n,
            tools (setExtendedModel toolName model tk) !! n
            = (if decide (toolName = n) then set_extendedModel model <$> tools tk !! n
               else tools tk !! n)).
  { intros n. unfold setExtendedModel. simpl. rewrite lookup_alter.
    by destruct (decide (toolName = n)) as [-> | Hne]. }
  split; [| split; [| split]].
  - unfold getJsonSchemas.
    change (equippedTools (setExtendedModel toolName model tk)) with (equippedTools tk).
    apply omap_pointwise. intros n. rewrite Hlookup.
    destruct (decide (toolName = n)); [| done].
    by destruct (tools tk !! n).
  - unfold callToolFunction.
    change (equippedTools (setExtendedModel toolName model tk)) with (equippedTools tk).
    destruct (negb (JsSet.has (tu_name toolCall) (equippedTools tk))); [done |].
    rewrite Hlookup. destruct (decide (toolName = tu_name toolCall)); [| done].
    by destruct (tools tk !! tu_name toolCall).
  - reflexivity.
  - intros n. unfold hasToolFunction. rewrite Hlookup.
    destruct (decide (toolName = n)); [| done].
    by destruct (tools tk !! n).
Qed.

Lemma JsSet_delete_add_fresh (n : string) (s : JsSet.t) :
  n ∉ s -> JsSet.delete n (JsSet.add n s) = s.
Proof.
  intros Hn. unfold JsSet.add.
  destruct (JsSet.has n s) eqn:Hhas; [by apply JsSetFacts.has_true in Hhas |].
  unfold JsSet.delete. rewrite List.filter_app. simpl. rewrite String.eqb_refl. simpl.
  rewrite app_nil_r. clear Hhas.
  induction s as [| x rest IH]; simpl; [done |].
  apply not_elem_of_cons in Hn as [Hne Hrest].
  destruct (String.eqb n x) eqn:Heq; [by apply String.eqb_eq in Heq |].
  simpl. by rewrite IH.
Qed.

(** X12. Registering a tool under a name the toolkit does not know and
    removing it again gives back the toolkit as it was, and
    [removeToolFunction] reports true; for a name the toolkit does not
    know it reports false and changes nothing. *)
Theorem register_then_remove_restores (f : ToolFunction) (name description : string)
    (params : ToolParameterSchema) (tk : Toolkit)
    (Hinv : equipped_registered tk)
    (Hfresh : tools tk !! name = None) :
  removeToolFunction name (registerToolWithMetadata f name description params tk) = (true, tk) /\
  removeToolFunction name tk = (false, tk).
Proof.
  assert (Hout : name ∉ equippedTools tk).
  { intros Hin. destruct (Hinv name Hin) as [tool Htool]. congruence. }
  split.
  - unfold removeToolFunction, registerToolWithMetadata, hasToolFunction. simpl.
    rewrite lookup_insert_eq. rewrite bool_decide_eq_true_2 by eauto.
    rewrite delete_insert_eq, delete_id by done.
    rewrite JsSet_delete_add_fresh by done. by destruct tk.
  - unfold removeToolFunction, hasToolFunction. rewrite Hfresh.
    rewrite bool_decide_eq_false_2; [done |]. by intros [? ?].
Qed.

Lemma signature_properties (ps : list string) :
  forall acc : JsObject.t jsval,
  Forall signature_name ps ->
  NoDup (map fst acc ++ ps) ->
  JsObject.keys
    (fold_left
       (fun (acc : JsObject.t jsval) param =>
          if nonempty param && negb (String.eqb param "...args")
          then JsObject.set param
                 (JsObj [("type", JsStr "string"); ("description", JsStr ("参数 " +:+ param))]) acc
          else acc) ps acc)
  = JsObject.keys acc ++ ps.
Proof.
  induction ps as [| p rest IH]; intros acc Hsig Hnd; simpl.
  - by rewrite app_nil_r.
  - inversion Hsig as [| ? ? (Hne & Hrest_arg & Hindex & Hproto) Hrest]; subst.
    assert (H1 : nonempty p = true).
    { unfold nonempty. apply negb_true_iff. by apply String.eqb_neq. }
    assert (H2 : String.eqb p "...args" = false) by by apply String.eqb_neq.
    rewrite H1, H2. simpl.
    assert (Hfresh : p ∉ map fst acc).
    { apply NoDup_app in Hnd as (_ & Hdis & _).
      intros Hin. apply (Hdis p Hin). apply elem_of_cons. by left. }
    rewrite HookFacts.JsObject_set_plain_key, HookFacts.JsMap_set_new by done.
    rewrite IH; [| done |].
    + unfold JsObject.keys. rewrite map_app. simpl. by rewrite <- app_assoc.
    + rewrite map_app. simpl. by rewrite <- app_assoc.
Qed.

(** X13. A function registered by [registerToolFunction] under a name is
    equipped at once, and every input is accepted for it: it is called
    with the input's values for the parameter names of its signature, in
    that order, [undefined] for those the input lacks; a thrown error
    becomes the single error response. *)
Theorem registered_function_takes_any_input (name func_name : string) (ps : list string)
    (d : option string) (body : list jsval -> ToolOutcome) (tk : Toolkit)
    (id : string) (input : JsRecord)
    (Hname : name <> "")
    (Hsignature : Forall signature_name ps)
    (Hdistinct : NoDup ps) :
  callToolFunction (mkToolUse id name input)
    (registerToolFunction (ExternalTool func_name ps d body) (Some name) tk)
  = generator_of (body (positional ps input)).
Proof.
  unfold registerToolFunction.
  assert (Hn : nonempty name = true).
  { unfold nonempty. apply negb_true_iff. by apply String.eqb_neq. }
  rewrite Hn. unfold callToolFunction. simpl.
  assert (Hhas : JsSet.has name (JsSet.add name (equippedTools tk)) = true).
  { apply JsSetFacts.has_true, JsSetFacts.elem_of_add. by left. }
  rewrite Hhas. simpl. rewrite lookup_insert_eq. simpl.
  unfold validateInput. simpl. unfold callToolFunctionWithArgs. simpl.
  rewrite signature_properties by (simpl; done). simpl.
  rewrite build_args_positional by (simpl; intros r Hr; by apply elem_of_nil in Hr).
  simpl. by destruct (body (positional ps input)).
Qed.

End ToolkitMoreFacts.
(** * The model gateway: streamed answers and request messages *)

Module JsMapFacts.
Section Facts.
Context {V : Type}.

Lemma has_keys (k : string) (m : JsMap.t string V) :
  JsMap.has k m = true <-> k ∈ map fst m.
Proof.
  unfold JsMap.has. induction m as [| [k' v] rest IH]; simpl.
  - split; [discriminate | intros Hin; by apply elem_of_nil in Hin].
  - destruct (decide (k = k')) as [-> | Hne].
    + split; [intros _; apply elem_of_cons; by left | done].
    + rewrite IH, elem_of_cons. split; [auto | intros [? | ?]; [done | auto]].
Qed.

Lemma replace_keys (k : string) (v : V) (m : JsMap.t string V) :
  map fst (JsMap.replace k v m) = map fst m.
Proof.
  induction m as [| [k' v'] rest IH]; simpl; [done |].
  destruct (decide (k = k')); simpl; [done | by rewrite IH].
Qed.

Lemma has_set (x k : string) (v : V) (m : JsMap.t string V) :
  JsMap.has x (JsMap.set k v m) = true <-> x = k \/ JsMap.has x m = true.
Proof.
  rewrite !has_keys. unfold JsMap.set. destruct (JsMap.has k m) eqn:Hk.
  - rewrite replace_keys. apply has_keys in Hk. split; [auto | intros [-> | ?]; auto].
  - rewrite map_app, elem_of_app. simpl. rewrite list_elem_of_singleton. tauto.
Qed.

Lemma has_delete (x k : string) (m : JsMap.t string V) :
  JsMap.has x (JsMap.delete k m) = true <-> JsMap.has x m = true /\ x <> k.
Proof.
  rewrite !has_keys. unfold JsMap.delete.
  induction m as [| [k' v'] rest IH]; simpl.
  - rewrite elem_of_nil. tauto.
  - destruct (decide (k = k')) as [-> | Hne]; simpl.
    + rewrite bool_decide_eq_true_2 by done. simpl. rewrite IH, elem_of_cons.
      split; [intros [? ?]; auto | intros [[-> | ?] ?]; [done | auto]].
    + rewrite bool_decide_eq_false_2 by done. simpl. rewrite !elem_of_cons, IH.
      split; [intros [-> | [? ?]]; [split; [auto | congruence] | auto]
             | intros [[-> | ?] ?]; auto].
Qed.

End Facts.
End JsMapFacts.

Module StreamFacts.
Import OpenAIChatModel.

Lemma handleStreamResponse_from_lookup (stream : list (option ChunkChoice)) :
  forall (textContent : string) (k : nat) (chunk : StreamChunk),
    handleStreamResponse_from textContent stream !! k = Some chunk ->
    exists choice,
      delivered stream !! k = Some choice /\
      chunk_content chunk =
        (if string_truthy (delta_content choice)
         then [Text (deltas_after textContent (take (S k) (delivered stream)))]
         else []) /\
      chunk_is_last chunk = string_truthy (finish_reason choice) /\
      forall (j : nat) (earlier : ChunkChoice),
        (j < k)%nat -> delivered stream !! j = Some earlier ->
        string_truthy (finish_reason earlier) = false.
Proof.
  induction stream as [| [choice |] rest IH]; intros textContent k chunk Hk.
  - simpl in Hk. by rewrite lookup_nil in Hk.
  - simpl in Hk. destruct k as [| k]; simpl in Hk.
    + inversion Hk; subst chunk. clear Hk. exists choice. cbn.
      split; [done |]. split; [by destruct (string_truthy (delta_content choice)) |].
      split; [done |]. intros j earlier Hj. lia.
    + destruct (string_truthy (finish_reason choice)) eqn:Hfin;
        [by rewrite lookup_nil in Hk |].
      destruct (IH _ k chunk Hk) as (c & Hc & Hcontent & Hlast & Hearlier).
      exists c. cbn. split; [exact Hc |].
      split; [rewrite Hcontent; cbn; by destruct (string_truthy (delta_content choice)) |].
      split; [exact Hlast |].
      intros [| j] earlier Hj Hearlier'; cbn in Hearlier'.
      * by inversion Hearlier'; subst earlier.
      * apply (Hearlier j); [lia | done].
  - simpl in Hk. destruct (IH textContent k chunk Hk) as (c & Hc & Hrest). by exists c.
Qed.

(** X14. Of a streamed answer that carries text only, the k-th chunk the
    gateway yields belongs to the k-th choice the backend delivered; if
    that choice has a text delta, the chunk holds one text block with
    all the deltas up to it, one after the other, else it holds no
    block; the chunk is marked last exactly when the choice has a finish
    reason, and no chunk is yielded after such a choice. *)
Theorem stream_chunks_carry_accumulated_text (stream : list (option ChunkChoice)) (k : nat)
    (chunk : StreamChunk)
    (Hyielded : handleStreamResponse stream !! k = Some chunk) :
  exists choice,
    delivered stream !! k = Some choice /\
    chunk_content chunk =
      (if string_truthy (delta_content choice)
       then [Text (deltas_after "" (take (S k) (delivered stream)))]
       else []) /\
    chunk_is_last chunk = string_truthy (finish_reason choice) /\
    forall (j : nat) (earlier : ChunkChoice),
      (j < k)%nat -> delivered stream !! j = Some earlier ->
      string_truthy (finish_reason earlier) = false.
Proof. by apply handleStreamResponse_from_lookup. Qed.

End StreamFacts.

Module ConvertFacts.
Import OpenAIMessages.

Section Facts.
Variable stringify_input : JsRecord -> string.
Variable stringify_output : jsval -> option string.

Lemma follow_app (l1 l2 : list MessageParam) :
  forall seen,
    results_follow_requests seen (l1 ++ l2) <->
    results_follow_requests seen l1 /\ results_follow_requests (seen ++ requested_in l1) l2.
Proof.
  induction l1 as [| m rest IH]; intros seen; simpl.
  - rewrite app_nil_r. tauto.
  - rewrite IH. unfold requested_in. simpl. rewrite <- app_assoc. tauto.
Qed.

Lemma requested_in_app (l1 l2 : list MessageParam) :
  requested_in (l1 ++ l2) = requested_in l1 ++ requested_in l2.
Proof. unfold requested_in. by rewrite flat_map_app. Qed.

Lemma again_app (pending : JsMap.t string ToolCallParam) (l1 l2 : list MessageParam) :
  forall extra,
    pending_requested_again pending extra (l1 ++ l2) <->
    pending_requested_again pending (requested_in l2 ++ extra) l1 /\
    pending_requested_again pending extra l2.
Proof.
  induction l1 as [| m rest IH]; intros extra; simpl.
  - tauto.
  - rewrite IH, requested_in_app, <- app_assoc. tauto.
Qed.

Lemma again_weaken (pending pending' : JsMap.t string ToolCallParam)
    (extra extra' : list string) (l : list MessageParam) :
  (forall x, JsMap.has x pending' = true -> JsMap.has x pending = true \/ x ∈ extra') ->
  (forall x, x ∈ extra -> x ∈ extra') ->
  pending_requested_again pending extra l -> pending_requested_again pending' extra' l.
Proof.
  intros Hp He. induction l as [| m rest IH]; simpl; [done |].
  intros [Hm Hrest]. split; [| by apply IH].
  destruct (answered_call m) as [x |]; [| done].
  intros Hx. rewrite elem_of_app. destruct (Hp x Hx) as [Hold | Hnew]; [| by right].
  apply Hm, elem_of_app in Hold as [? | ?]; auto.
Qed.

Lemma push_text (result : list MessageParam) (pending : JsMap.t string ToolCallParam)
    (r : MessageRole) (name text : string) :
  conversion_invariant result pending ->
  conversion_invariant (result ++ [text_param r name text]) pending.
Proof.
  intros (Hf & Hp & Ha).
  assert (Hrole : answered_call (text_param r name text) = None) by by destruct r.
  assert (Hreq : requested_calls (text_param r name text) = []).
  { unfold requested_calls, assistant_calls. simpl. by destruct (String.eqb _ _). }
  split; [| split].
  - apply follow_app. split; [done |]. simpl. by rewrite Hrole.
  - intros x Hx. rewrite requested_in_app, elem_of_app. left. by apply Hp.
  - apply again_app. split.
    + unfold requested_in. simpl. by rewrite Hreq.
    + simpl. by rewrite Hrole.
Qed.

Lemma has_fold_set (calls : list ToolCallParam) :
  forall (pending : JsMap.t string ToolCallParam) (x : string),
    JsMap.has x (fold_left (fun p call => JsMap.set (call_id call) call p) calls pending) = true
    <-> x ∈ map call_id calls \/ JsMap.has x pending = true.
Proof.
  induction calls as [| c rest IH]; intros pending x; simpl.
  - rewrite elem_of_nil. tauto.
  - rewrite IH, JsMapFacts.has_set, elem_of_cons. tauto.
Qed.

Lemma push_calls (result : list MessageParam) (pending : JsMap.t string ToolCallParam)
    (calls : list ToolCallParam) :
  conversion_invariant result pending ->
  conversion_invariant (result ++ [tool_calls_param calls])
    (fold_left (fun p call => JsMap.set (call_id call) call p) calls pending).
Proof.
  intros (Hf & Hp & Ha).
  assert (Hreq : requested_in [tool_calls_param calls] = map call_id calls).
  { unfold requested_in. simpl. by rewrite app_nil_r. }
  split; [| split].
  - apply follow_app. split; [done |]. simpl. done.
  - intros x Hx. rewrite requested_in_app, elem_of_app, Hreq.
    apply has_fold_set in Hx as [? | ?]; auto.
  - apply again_app. split; [| simpl; done].
    rewrite Hreq. eapply again_weaken; [| | exact Ha].
    + intros x Hx. apply has_fold_set in Hx as [? | ?]; [right | left]; [| done].
      rewrite elem_of_app. by left.
    + intros x Hx. by apply elem_of_nil in Hx.
Qed.

Lemma push_results (blocks : list ToolResultBlock) :
  forall (result : list MessageParam) (pending : JsMap.t string ToolCallParam),
    conversion_invariant result pending ->
    conversion_invariant (fst (push_tool_results stringify_output blocks result pending))
      (snd (push_tool_results stringify_output blocks result pending)).
Proof.
  induction blocks as [| b rest IH]; intros result pending Hinv; simpl; [done |].
  destruct (JsMap.has (tr_id b) pending) eqn:Hhas; [| by apply IH].
  apply IH. destruct Hinv as (Hf & Hp & Ha).
  set (output := match tr_output b with JsStr s => Some s | other => stringify_output other end).
  assert (Hreq : requested_in [tool_param output (tr_id b)] = []) by reflexivity.
  split; [| split].
  - apply follow_app. split; [done |]. simpl. split; [| done]. by apply Hp.
  - intros x Hx. apply JsMapFacts.has_delete in Hx as [Hx _].
    rewrite requested_in_app, elem_of_app. left. by apply Hp.
  - apply again_app. split.
    + rewrite Hreq. eapply again_weaken; [| | exact Ha].
      * intros x Hx. apply JsMapFacts.has_delete in Hx as [Hx _]. by left.
      * done.
    + simpl. split; [| done]. intros Hx. apply JsMapFacts.has_delete in Hx as [_ Hne]. done.
Qed.

Lemma convert_message_invariant (msg : Message) (result : list MessageParam)
    (pending : JsMap.t string ToolCallParam) :
  conversion_invariant result pending ->
  conversion_invariant (fst (convert_message stringify_input stringify_output msg result pending))
    (snd (convert_message stringify_input stringify_output msg result pending)).
Proof.
  intros Hinv. unfold OpenAIMessages.convert_message.
  destruct (content msg) as [s | blocks | v]; simpl.
  - by apply push_text.
  - set (withText := if (0 <? length (List.filter is_text_block blocks))%nat
                     then result ++ [text_param (role msg) (msg_name msg) (joined_text blocks)]
                     else result).
    assert (Htext : conversion_invariant withText pending).
    { unfold withText. destruct (0 <? _)%nat; [by apply push_text | done]. }
    destruct ((0 <? length (omap tool_use_of_block blocks))%nat
              && match role msg with role_assistant => true | _ => false end).
    + apply push_results. by apply push_calls.
    + by apply push_results.
  - done.
Qed.

Lemma convert_loop_invariant (messages : list Message) :
  forall (result : list MessageParam) (pending : JsMap.t string ToolCallParam),
    conversion_invariant result pending ->
    conversion_invariant (fst (convert_loop stringify_input stringify_output messages result pending))
      (snd (convert_loop stringify_input stringify_output messages result pending)).
Proof.
  induction messages as [| msg rest IH]; intros result pending Hinv; simpl; [done |].
  pose proof (convert_message_invariant msg result pending Hinv) as Hstep.
  destruct (convert_message stringify_input stringify_output msg result pending) as [result' pending']. by apply IH.
Qed.

Lemma follow_without_pending (pending : JsMap.t string ToolCallParam)
    (msgs : list MessageParam) :
  forall seen seen' : list string,
    (forall x, x ∈ seen -> JsMap.has x pending = false -> x ∈ seen') ->
    pending_requested_again pending [] msgs ->
    none_pending pending msgs ->
    results_follow_requests seen msgs -> results_follow_requests seen' msgs.
Proof.
  induction msgs as [| m later IH]; intros seen seen' Hseen Hagain Hnone; simpl; [done |].
  destruct Hagain as [Hm Hagain]. intros [Hhead Hrest].
  assert (Hlater : none_pending pending later).
  { intros x Hx. apply Hnone. unfold requested_in. simpl. rewrite elem_of_app. by right. }
  split.
  - destruct (answered_call m) as [x |]; [| done].
    apply Hseen; [done |].
    destruct (JsMap.has x pending) eqn:Hx; [| done].
    specialize (Hm eq_refl). rewrite app_nil_r in Hm. by rewrite (Hlater x Hm) in Hx.
  - apply (IH (seen ++ requested_calls m)); [| done | done | done].
    intros x Hx Hfree. rewrite elem_of_app in *.
    destruct Hx as [Hx | Hx]; [left; by apply Hseen | by right].
Qed.

Lemma without_unpaired_requests (pending : JsMap.t string ToolCallParam)
    (msg : MessageParam) (calls : list ToolCallParam) :
  assistant_calls msg = Some calls ->
  requested_in (without_unpaired pending msg calls)
    = map call_id
        (List.filter (fun call => negb (JsMap.has (call_id call) pending)) calls) /\
  Forall (fun m => answered_call m = None) (without_unpaired pending msg calls).
Proof.
  intros Hcalls. unfold assistant_calls in Hcalls.
  destruct (String.eqb (p_role msg) "assistant") eqn:Hrole; [| discriminate Hcalls].
  apply String.eqb_eq in Hrole.
  unfold without_unpaired.
  set (kept := List.filter _ calls).
  destruct kept as [| c rest] eqn:Hkept; simpl.
  - destruct (match p_content msg with Some s => String.eqb s "" | None => true end); simpl.
    + split; [done | constructor].
    + split.
      * unfold requested_in, requested_calls, assistant_calls. simpl. rewrite Hrole. done.
      * constructor; [| constructor]. unfold answered_call. simpl. by rewrite Hrole.
  - rewrite andb_false_r. split.
    + unfold requested_in, requested_calls, assistant_calls. simpl. rewrite Hrole. simpl.
      by rewrite app_nil_r.
    + constructor; [| constructor]. unfold answered_call. simpl. by rewrite Hrole.
Qed.

Lemma follow_unanswered (msgs later : list MessageParam) (seen : list string) :
  Forall (fun m => answered_call m = None) msgs ->
  results_follow_requests (seen ++ requested_in msgs) later ->
  results_follow_requests seen (msgs ++ later).
Proof.
  intros Hnone Hlater. apply follow_app. split; [| done].
  clear Hlater. revert seen. induction Hnone as [| m rest Hm Hrest IH]; intros seen; simpl.
  - done.
  - rewrite Hm. split; [done | apply IH].
Qed.

Lemma remove_unpaired_sound (pending : JsMap.t string ToolCallParam)
    (result : list MessageParam) :
  forall seen : list string,
    results_follow_requests seen result ->
    pending_requested_again pending [] result ->
    results_follow_requests seen (fst (remove_unpaired pending result)) /\
    (snd (remove_unpaired pending result) = false ->
     fst (remove_unpaired pending result) = result /\ none_pending pending result).
Proof.
  induction result as [| m later IH]; intros seen Hfollow Hagain.
  - simpl. split; [done |]. intros _. split; [done |].
    intros x Hx. by apply elem_of_nil in Hx.
  - simpl in Hfollow, Hagain. destruct Hfollow as [Hhead Hfollow].
    destruct Hagain as [Hm Hagain].
    destruct (IH (seen ++ requested_calls m) Hfollow Hagain) as [Hsound Hunstopped].
    simpl. destruct (remove_unpaired pending later) as [later' stopped]. simpl in *.
    destruct stopped.
    + simpl. split; [by split | discriminate].
    + destruct (Hunstopped eq_refl) as [-> Hnone].
      destruct (assistant_calls m) as [calls |] eqn:Hcalls.
      * destruct (existsb (fun call => JsMap.has (call_id call) pending) calls) eqn:Hany.
        -- simpl. split; [| discriminate].
           destruct (without_unpaired_requests pending m calls Hcalls) as [Hreq Hunanswered].
           apply follow_unanswered; [done |].
           apply (follow_without_pending pending later (seen ++ requested_calls m));
             [| done | done | done].
           intros x Hx Hfree. rewrite elem_of_app in *.
           destruct Hx as [Hx | Hx]; [by left | right].
           rewrite Hreq. unfold requested_calls in Hx. rewrite Hcalls in Hx.
           apply list_elem_of_fmap in Hx as (call & -> & Hcall).
           apply list_elem_of_fmap. exists call. split; [done |].
           apply list_elem_of_In, filter_In. split; [by apply list_elem_of_In |].
           by rewrite Hfree.
        -- simpl. split; [by split |]. intros _. split; [done |].
           intros x Hx. unfold requested_in in Hx. simpl in Hx.
           apply elem_of_app in Hx as [Hx | Hx]; [| by apply Hnone].
           unfold requested_calls in Hx. rewrite Hcalls in Hx.
           apply list_elem_of_fmap in Hx as (call & -> & Hcall).
           destruct (JsMap.has (call_id call) pending) eqn:Hp; [| done].
           assert (Hex : existsb (fun c => JsMap.has (call_id c) pending) calls = true).
           { apply existsb_exists. exists call. split; [by apply list_elem_of_In | done]. }
           congruence.
      * simpl. split; [by split |]. intros _. split; [done |].
        intros x Hx. unfold requested_in in Hx. simpl in Hx.
        apply elem_of_app in Hx as [Hx | Hx]; [| by apply Hnone].
        unfold requested_calls in Hx. rewrite Hcalls in Hx. by apply elem_of_nil in Hx.
Qed.

(** X15. In the request messages [convertMessages] builds, every message
    with role tool comes after an assistant message whose tool calls
    include the call it answers; this holds for every list of messages,
    also after the calls left without a result were taken out. *)
Theorem tool_results_follow_their_requests (messages : list Message) :
  results_follow_requests []
    (convertMessages stringify_input stringify_output (InputMessages messages)).
Proof.
  unfold convertMessages.
  assert (Hstart : conversion_invariant [] JsMap.empty).
  { split; [done |]. split; [| done]. intros x Hx. discriminate Hx. }
  pose proof (convert_loop_invariant messages [] JsMap.empty Hstart) as (Hf & Hp & Ha).
  destruct (convert_loop stringify_input stringify_output messages [] JsMap.empty) as [result pending]. simpl in *.
  destruct (0 <? length pending)%nat; [| done].
  by apply remove_unpaired_sound.
Qed.

End Facts.
End ConvertFacts.
(** * The formatter *)

Module FormatterFacts.
Import OpenAIChatFormatter.

Section Facts.
Context `{Runtime}.

Lemma formatSingleMessage_run (f : t) (msg : Message) (s : State) :
  exists out s',
    formatSingleMessage f msg s = (Ok out, s') /\
    unidentified out = formatted_shape f msg.
Proof.
  unfold formatSingleMessage, Message_new, bind, ret, generateUuid. simpl.
  do 2 eexists. split; reflexivity.
Qed.

Lemma formatRegularMessages_run (f : t) (msgs : list Message) :
  forall s : State,
  exists out s',
    formatRegularMessages f msgs s = (Ok out, s') /\
    map unidentified out = map (formatted_shape f) msgs.
Proof.
  unfold formatRegularMessages.
  induction msgs as [| msg rest IH]; intros s; simpl.
  - by exists [], s.
  - destruct (formatSingleMessage_run f msg s) as (m & s1 & Hm & Hshape).
    destruct (IH s1) as (out & s' & Hrest & Hshapes).
    exists (m :: out), s'. unfold bind. rewrite Hm, Hrest. simpl.
    split; [reflexivity |]. by rewrite Hshape, Hshapes.
Qed.

(** Filtering the formatted messages by what can be read off the
    sources. *)
Lemma filter_shapes (f : t) (P : Message -> bool) (Q : Message -> bool)
    (msgs : list Message) :
  (forall m src, unidentified m = formatted_shape f src -> P m = Q src) ->
  forall out : list Message,
    map unidentified out = map (formatted_shape f) msgs ->
    map unidentified (List.filter P out) = map (formatted_shape f) (List.filter Q msgs).
Proof.
  intros HPQ. induction msgs as [| src rest IH]; intros out Hout.
  - destruct out; [done | discriminate Hout].
  - destruct out as [| m out]; [discriminate Hout |].
    simpl in Hout.
    assert (Hm : unidentified m = formatted_shape f src) by congruence.
    assert (Hrest : map unidentified out = map (formatted_shape f) rest) by congruence.
    simpl. rewrite (HPQ m src Hm). destruct (Q src); simpl; [| by apply IH].
    rewrite Hm. f_equal. by apply IH.
Qed.

Lemma shape_content (f : t) (m src : Message) :
  unidentified m = formatted_shape f src ->
  content m = formatted_content (content src) /\ role m = role src.
Proof. intros Hm. by inversion Hm. Qed.

Lemma shape_nonEmpty (f : t) (m src : Message) :
  unidentified m = formatted_shape f src -> nonEmpty m = survives src.
Proof.
  intros Hm. apply shape_content in Hm as [Hc _].
  unfold survives, nonEmpty, extractTextContent, has_tool_content. simpl. by rewrite Hc.
Qed.

Lemma shape_is_system (f : t) (m src : Message) :
  unidentified m = formatted_shape f src -> is_system m = is_system src.
Proof. intros Hm. apply shape_content in Hm as [_ Hr]. unfold is_system. by rewrite Hr. Qed.

Lemma has_tool_filter (blocks : list ContentBlock) :
  (length (List.filter is_tool_block blocks) =? 0)%nat = negb (existsb is_tool_block blocks).
Proof.
  induction blocks as [| b rest IH]; simpl; [done |].
  destruct (is_tool_block b); simpl; [done | exact IH].
Qed.

(** Formatting keeps the tool blocks of a message. *)
Lemma shape_has_tool_content (f : t) (m src : Message) :
  unidentified m = formatted_shape f src -> has_tool_content m = has_tool_content src.
Proof.
  intros Hm. apply shape_content in Hm as [Hc _].
  unfold has_tool_content. rewrite Hc.
  destruct (content src) as [s | blocks | v]; simpl; [done | | done].
  rewrite has_tool_filter.
  destruct (existsb is_tool_block blocks) eqn:Htool; simpl.
  - by rewrite andb_false_r.
  - rewrite andb_true_r. by destruct (0 <? _)%nat.
Qed.

Lemma existsb_shapes (f : t) (msgs : list Message) :
  forall out : list Message,
    map unidentified out = map (formatted_shape f) msgs ->
    existsb has_tool_content out = existsb has_tool_content msgs.
Proof.
  induction msgs as [| src rest IH]; intros out Hout.
  - by destruct out.
  - destruct out as [| m out]; [discriminate Hout |].
    simpl in Hout.
    assert (Hm : unidentified m = formatted_shape f src) by congruence.
    assert (Hrest : map unidentified out = map (formatted_shape f) rest) by congruence.
    simpl. by rewrite (shape_has_tool_content f m src Hm), (IH out Hrest).
Qed.

(** A message with a tool block is never empty. *)
Lemma tool_content_survives (msg : Message) :
  has_tool_content msg = true -> survives msg = true.
Proof.
  intros Htool. unfold survives, nonEmpty.
  assert (Hkeep : has_tool_content
                    (setContent (formatted_content (content msg)) msg) = true).
  { unfold has_tool_content in *. simpl.
    destruct (content msg) as [s | blocks | v]; simpl; [done | | done].
    rewrite has_tool_filter, Htool. simpl. by rewrite andb_false_r. }
  rewrite Hkeep. by rewrite orb_true_r.
Qed.

Lemma existsb_filter_survives (msgs : list Message) :
  existsb has_tool_content (List.filter survives msgs) = existsb has_tool_content msgs.
Proof.
  induction msgs as [| m rest IH]; simpl; [done |].
  destruct (has_tool_content m) eqn:Htool.
  - rewrite (tool_content_survives m Htool). simpl. by rewrite Htool.
  - destruct (survives m); simpl; rewrite ?Htool; exact IH.
Qed.

Lemma postProcess_with_tools (f : t) (out msgs : list Message) :
  map unidentified out = map (formatted_shape f) msgs ->
  existsb has_tool_content msgs = true ->
  map unidentified (postProcess f out) = map (formatted_shape f) (List.filter survives msgs).
Proof.
  intros Hout Htool.
  pose proof (filter_shapes f nonEmpty survives msgs (shape_nonEmpty f) out Hout) as Hne.
  unfold postProcess. destruct (systemMessageHandling f); [done | | done].
  rewrite (existsb_shapes f _ _ Hne), existsb_filter_survives, Htool. done.
Qed.

(** X16. Once a message of the conversation holds a tool_use or
    tool_result block, [format] returns the messages in their original
    order, each formatted on its own and those that end up empty left
    out, whatever the system message handling is: system messages are
    then neither merged nor moved to the front. *)
Theorem tool_content_switches_off_system_handling (f : t) (msgs : list Message) (s : State)
    (Htool : existsb has_tool_content msgs = true) :
  exists out s',
    format f msgs s = (Ok out, s') /\
    map unidentified out = map (formatted_shape f) (List.filter survives msgs).
Proof.
  unfold format.
  destruct msgs as [| m rest]; [discriminate Htool |].
  change (length (m :: rest) =? 0)%nat with false. cbv iota. rewrite Htool.
  destruct (formatRegularMessages_run f (m :: rest) s) as (out & s' & Hrun & Hshape).
  exists (postProcess f out), s'. unfold bind. rewrite Hrun. split; [reflexivity |].
  by apply postProcess_with_tools.
Qed.

Lemma filter_filter_same (P : Message -> bool) (l : list Message) :
  List.filter P (List.filter P l) = List.filter P l.
Proof.
  induction l as [| x rest IH]; simpl; [done |].
  destruct (P x) eqn:HP; simpl; [by rewrite HP, IH | exact IH].
Qed.

Lemma filter_filter_none (P : Message -> bool) (l : list Message) :
  List.filter (fun x => negb (P x)) (List.filter P l) = [].
Proof.
  induction l as [| x rest IH]; simpl; [done |].
  destruct (P x) eqn:HP; simpl; [by rewrite HP | exact IH].
Qed.

Lemma filter_filter_none' (P : Message -> bool) (l : list Message) :
  List.filter P (List.filter (fun x => negb (P x)) l) = [].
Proof.
  induction l as [| x rest IH]; simpl; [done |].
  destruct (P x) eqn:HP; simpl; [exact IH | by rewrite HP].
Qed.

Lemma filter_filter_same' (P : Message -> bool) (l : list Message) :
  List.filter (fun x => negb (P x)) (List.filter (fun x => negb (P x)) l)
  = List.filter (fun x => negb (P x)) l.
Proof.
  induction l as [| x rest IH]; simpl; [done |].
  destruct (P x) eqn:HP; simpl; [exact IH | by rewrite HP, IH].
Qed.

Lemma filter_comm (P Q : Message -> bool) (l : list Message) :
  List.filter P (List.filter Q l) = List.filter Q (List.filter P l).
Proof.
  induction l as [| x rest IH]; simpl; [done |].
  destruct (P x) eqn:HP, (Q x) eqn:HQ; simpl; rewrite ?HP, ?HQ, ?IH; done.
Qed.

Lemma existsb_filter_false (P : Message -> bool) (l : list Message) :
  existsb has_tool_content l = false ->
  existsb has_tool_content (List.filter P l) = false.
Proof.
  induction l as [| x rest IH]; simpl; [done |].
  intros Hex. apply orb_false_iff in Hex as [Hx Hrest].
  destruct (P x); simpl; [by rewrite Hx, IH | by apply IH].
Qed.

(** X17. Without tool blocks in the conversation and with the handling
    [separate], [format] returns the system messages first and the
    other messages after them, each group in its original order, each
    message formatted on its own and those that end up empty left out. *)
Theorem separate_puts_system_messages_first (f : t) (msgs : list Message) (s : State)
    (Hmode : systemMessageHandling f = handling_separate)
    (Hplain : existsb has_tool_content msgs = false) :
  exists out s',
    format f msgs s = (Ok out, s') /\
    map unidentified out =
      map (formatted_shape f) (List.filter survives (List.filter is_system msgs))
      ++ map (formatted_shape f)
           (List.filter survives (List.filter (fun msg => negb (is_system msg)) msgs)).
Proof.
  unfold format.
  destruct msgs as [| m0 rest0] eqn:Hmsgs; [by exists [], s |].
  rewrite <- Hmsgs in *. clear Hmsgs.
  destruct (length msgs =? 0)%nat eqn:Hlen.
  { apply Nat.eqb_eq, length_zero_iff_nil in Hlen. subst msgs. by exists [], s. }
  rewrite Hplain, Hmode.
  set (sys := List.filter is_system msgs).
  set (non := List.filter (fun msg => negb (is_system msg)) msgs).
  destruct (formatRegularMessages_run f sys s) as (outSys & s1 & Hsys & HshapeSys).
  destruct (formatRegularMessages_run f non s1) as (outNon & s2 & Hnon & HshapeNon).
  exists (postProcess f (outSys ++ outNon)), s2.
  unfold bind. rewrite Hsys, Hnon. simpl. split; [reflexivity |].
  assert (Hall : map unidentified (outSys ++ outNon) = map (formatted_shape f) (sys ++ non))
    by by rewrite !map_app, HshapeSys, HshapeNon.
  assert (Hnotool : existsb has_tool_content (sys ++ non) = false).
  { rewrite existsb_app. unfold sys, non. by rewrite !existsb_filter_false. }
  pose proof (filter_shapes f nonEmpty survives _ (shape_nonEmpty f) _ Hall) as Hne.
  unfold postProcess. rewrite Hmode.
  rewrite (existsb_shapes f _ _ Hne), existsb_filter_false by done.
  rewrite map_app.
  rewrite (filter_shapes f is_system is_system _ (shape_is_system f) _ Hne).
  rewrite (filter_shapes f (fun msg => negb (is_system msg)) (fun msg => negb (is_system msg))
             (List.filter survives (sys ++ non))
             (fun m src Hm => f_equal negb (shape_is_system f m src Hm)) _ Hne).
  rewrite !List.filter_app, !map_app.
  unfold sys, non.
  rewrite (filter_comm is_system survives (List.filter is_system msgs)).
  rewrite (filter_comm is_system survives (List.filter (fun msg => negb (is_system msg)) msgs)).
  rewrite (filter_comm (fun msg => negb (is_system msg)) survives (List.filter is_system msgs)).
  rewrite (filter_comm (fun msg => negb (is_system msg)) survives
             (List.filter (fun msg => negb (is_system msg)) msgs)).
  rewrite filter_filter_same, filter_filter_none, filter_filter_none', filter_filter_same'.
  simpl. by rewrite app_nil_r.
Qed.

Lemma postProcess_plain (f : t) (out : list Message) :
  systemMessageHandling f <> handling_separate ->
  postProcess f out = List.filter nonEmpty out.
Proof. intros Hmode. unfold postProcess. by destruct (systemMessageHandling f). Qed.

(** X18. Without tool blocks in the conversation, the handling [merge]
    puts one system message first, holding the texts of all system
    messages that are not blank, joined by an empty line, and the
    handling [first] puts one system message first, holding the text of
    the first system message only; in both cases that message is left
    out when its text is blank, and the other messages follow in their
    original order, formatted on their own. *)
Theorem merge_and_first_keep_one_system_message (f : t) (msgs : list Message) (s : State)
    (Hmode : systemMessageHandling f <> handling_separate)
    (Hplain : existsb has_tool_content msgs = false) :
  let system_text :=
    match systemMessageHandling f with
    | handling_first => default "" (first_system_text msgs)
    | _ => merged_system_text msgs
    end in
  exists out s',
    format f msgs s = (Ok out, s') /\
    map unidentified out =
      (if blank system_text then [] else [system_shape system_text])
      ++ map (formatted_shape f)
           (List.filter survives (List.filter (fun msg => negb (is_system msg)) msgs)).
Proof.
  intros system_text. unfold format.
  destruct (length msgs =? 0)%nat eqn:Hlen.
  { apply Nat.eqb_eq, length_zero_iff_nil in Hlen. subst msgs.
    exists [], s. split; [reflexivity |]. subst system_text.
    by destruct (systemMessageHandling f). }
  rewrite Hplain.
  set (non := List.filter (fun msg => negb (is_system msg)) msgs).
  assert (Hregular : forall (s0 : State) (head : list Message),
            Forall (fun m => has_tool_content m = false) head ->
            exists out s',
              (regular <- formatRegularMessages f non ;; ret (head ++ regular)) s0
                = (Ok out, s') /\
              map unidentified (postProcess f out) =
                map unidentified (List.filter nonEmpty head)
                ++ map (formatted_shape f) (List.filter survives non)).
  { intros s0 head Hhead.
    destruct (formatRegularMessages_run f non s0) as (outNon & s1 & Hnon & Hshape).
    exists (head ++ outNon), s1. unfold bind, ret. rewrite Hnon. split; [reflexivity |].
    rewrite postProcess_plain by done. rewrite List.filter_app, map_app. f_equal.
    by apply (filter_shapes f nonEmpty survives non (shape_nonEmpty f)). }
  destruct (systemMessageHandling f) eqn:Hhandling; [| done |].
  - (* merge *)
    subst system_text. unfold merged_system_text.
    set (merged := join (newline +:+ newline) _).
    destruct (0 <? length (List.filter is_system msgs))%nat eqn:Hsys.
    + destruct (String.eqb merged "") eqn:Hempty; simpl.
      * apply String.eqb_eq in Hempty.
        destruct (Hregular s []) as (out & s' & Hrun & Hshape); [constructor |].
        exists (postProcess f out), s'. unfold bind, ret in *. simpl in *.
        destruct (formatRegularMessages f non s) as [[regular | e] s1];
          [| discriminate Hrun].
        inversion Hrun; subst out s'. split; [reflexivity |].
        rewrite Hshape. rewrite Hempty. reflexivity.
      * unfold bind at 1. unfold Message_new, bind, ret, generateUuid. simpl.
        set (m := mkMessage _ "system" (PlainText merged) role_system (JsObj [])).
        destruct (Hregular (set_next_uuid (S (next_uuid s)) s) [m])
          as (out & s' & Hrun & Hshape); [by constructor |].
        exists (postProcess f out), s'. unfold bind, ret in *. simpl in *.
        destruct (formatRegularMessages f non _) as [[regular | e] s1];
          [| discriminate Hrun].
        inversion Hrun; subst out s'. split; [reflexivity |].
        rewrite Hshape. unfold nonEmpty, extractTextContent. simpl.
        rewrite orb_false_r. by destruct (blank merged).
    + assert (Hnil : List.filter is_system msgs = []).
      { apply Nat.ltb_ge in Hsys. apply length_zero_iff_nil. lia. }
      assert (Hmerged : merged = "") by (unfold merged; by rewrite Hnil).
      destruct (Hregular s []) as (out & s' & Hrun & Hshape); [constructor |].
      exists (postProcess f out), s'. unfold bind, ret in *. simpl in *.
      destruct (formatRegularMessages f non s) as [[regular | e] s1];
        [| discriminate Hrun].
      inversion Hrun; subst out s'. split; [reflexivity |].
      rewrite Hshape, Hmerged. reflexivity.
  - (* first *)
    subst system_text. unfold first_system_text.
    destruct (List.filter is_system msgs) as [| firstSystemMessage others].
    + destruct (Hregular s []) as (out & s' & Hrun & Hshape); [constructor |].
      exists (postProcess f out), s'. unfold bind, ret in *. simpl in *.
      destruct (formatRegularMessages f non s) as [[regular | e] s1];
        [| discriminate Hrun].
      inversion Hrun; subst out s'. split; [reflexivity |].
      rewrite Hshape. reflexivity.
    + unfold bind at 1. unfold Message_new, bind, ret, generateUuid. simpl.
      set (text := extractTextContent firstSystemMessage).
      set (m := mkMessage _ "system" (PlainText text) role_system (JsObj [])).
      destruct (Hregular (set_next_uuid (S (next_uuid s)) s) [m])
        as (out & s' & Hrun & Hshape); [by constructor |].
      exists (postProcess f out), s'. unfold bind, ret in *. simpl in *.
      destruct (formatRegularMessages f non _) as [[regular | e] s1];
        [| discriminate Hrun].
      inversion Hrun; subst out s'. split; [reflexivity |].
      rewrite Hshape. unfold nonEmpty, extractTextContent. simpl.
      rewrite orb_false_r. by destruct (blank text).
Qed.

End Facts.
End FormatterFacts.
(** * Registering and removing hooks, and what a hook's answer does *)

Module HookMoreFacts.

Section Containers.
Context {K : Type} `{EqDecision K} {V : Type}.

Lemma JsMap_replace_same (k : K) (v : V) (m : JsMap.t K V) :
  JsMap.get k m = Some v -> JsMap.replace k v m = m.
Proof.
  induction m as [| [k' v'] rest IH]; simpl; [done |].
  destruct (decide (k = k')) as [-> | Hne].
  - intros Heq. by inversion Heq.
  - intros Hget. by rewrite IH.
Qed.

Lemma JsMap_replace_twice (k : K) (v v' : V) (m : JsMap.t K V) :
  JsMap.replace k v' (JsMap.replace k v m) = JsMap.replace k v' m.
Proof.
  induction m as [| [k' w] rest IH]; simpl; [done |].
  destruct (decide (k = k')) as [-> | Hne]; simpl.
  - by rewrite decide_True.
  - by rewrite decide_False, IH.
Qed.

Lemma JsMap_has_replace (k k' : K) (v : V) (m : JsMap.t K V) :
  JsMap.has k' (JsMap.replace k v m) = JsMap.has k' m.
Proof.
  unfold JsMap.has. induction m as [| [k0 w] rest IH]; simpl; [done |].
  destruct (decide (k = k0)) as [-> | Hne]; simpl.
  - by destruct (decide (k' = k0)).
  - destruct (decide (k' = k0)); [done | exact IH].
Qed.

(** Setting a key that is there twice is setting it once, and setting
    it to what it holds changes nothing. *)
Lemma JsMap_set_back (k : K) (v v' : V) (m : JsMap.t K V) :
  JsMap.get k m = Some v -> JsMap.set k v (JsMap.set k v' m) = m.
Proof.
  intros Hget. unfold JsMap.set.
  assert (Hhas : JsMap.has k m = true) by (unfold JsMap.has; by rewrite Hget).
  rewrite Hhas, JsMap_has_replace, Hhas, JsMap_replace_twice.
  by apply JsMap_replace_same.
Qed.

Lemma JsMap_get_set (k : K) (v : V) (m : JsMap.t K V) :
  JsMap.get k (JsMap.set k v m) = Some v.
Proof.
  unfold JsMap.set. destruct (JsMap.has k m) eqn:Hhas.
  - unfold JsMap.has in Hhas. induction m as [| [k' w] rest IH]; simpl in *; [done |].
    destruct (decide (k = k')) as [-> | Hne]; simpl.
    + by rewrite decide_True.
    + rewrite decide_False by done. by apply IH.
  - unfold JsMap.has in Hhas. induction m as [| [k' w] rest IH]; simpl in *.
    + by rewrite decide_True.
    + destruct (decide (k = k')); [discriminate Hhas | by apply IH].
Qed.

End Containers.

Lemma JsMap_delete_fresh {V : Type} (k : string) (m : JsMap.t string V) :
  k ∉ map fst m -> JsMap.delete k m = m.
Proof.
  intros Hk. unfold JsMap.delete. induction m as [| [k' v] rest IH]; simpl; [done |].
  simpl in Hk. apply not_elem_of_cons in Hk as [Hne Hrest].
  rewrite bool_decide_eq_false_2 by done. simpl. by rewrite IH.
Qed.

Lemma JsMap_delete_set_fresh {V : Type} (k : string) (v : V) (m : JsMap.t string V) :
  k ∉ map fst m -> JsMap.delete k (JsMap.set k v m) = m.
Proof.
  intros Hk. rewrite HookFacts.JsMap_set_new by done.
  unfold JsMap.delete. rewrite List.filter_app. simpl.
  rewrite bool_decide_eq_true_2 by done. simpl. rewrite app_nil_r.
  by apply JsMap_delete_fresh.
Qed.

Lemma JsObject_delete_insert_index {V : Type} (n : N) (k : string) (v : V) (o : JsObject.t V) :
  k ∉ map fst o -> JsMap.delete k (JsObject.insert_index n k v o) = o.
Proof.
  intros Hk. induction o as [| [k' v'] rest IH]; simpl.
  - unfold JsMap.delete. simpl. by rewrite bool_decide_eq_true_2.
  - simpl in Hk. apply not_elem_of_cons in Hk as [Hne Hrest].
    assert (Hdrop : JsMap.delete k ((k, v) :: (k', v') :: rest) = (k', v') :: rest).
    { unfold JsMap.delete. simpl. rewrite bool_decide_eq_true_2 by done.
      rewrite bool_decide_eq_false_2 by done. simpl. f_equal.
      by apply (JsMap_delete_fresh k rest). }
    destruct (JsObject.array_index k') as [n' |]; [| exact Hdrop].
    destruct (n <? n')%N; [exact Hdrop |].
    unfold JsMap.delete in *. simpl. rewrite bool_decide_eq_false_2 by done. simpl.
    f_equal. by apply IH.
Qed.

(** Storing a value under a name the object does not have and deleting
    the name gives the object back. *)
Lemma JsObject_delete_set_fresh {V : Type} (k : string) (v : V) (o : JsObject.t V) :
  JsObject.has k o = false -> JsObject.delete k (JsObject.set k v o) = o.
Proof.
  intros Hhas.
  assert (Hk : k ∉ map fst o).
  { intros Hin. apply JsMapFacts.has_keys in Hin. unfold JsObject.has in Hhas. congruence. }
  unfold JsObject.delete, JsObject.set. rewrite Hhas.
  destruct (String.eqb k "__proto__"); [by apply (JsMap_delete_fresh k o) |].
  destruct (JsObject.array_index k) as [n |].
  - by apply JsObject_delete_insert_index.
  - unfold JsMap.delete. rewrite List.filter_app. simpl.
    rewrite bool_decide_eq_true_2 by done. simpl. rewrite app_nil_r.
    by apply (JsMap_delete_fresh k o).
Qed.

Lemma JsObject_has_set {V : Type} (k : string) (v : V) (o : JsObject.t V) :
  k <> "__proto__" -> JsObject.has k (JsObject.set k v o) = true.
Proof.
  intros Hproto. apply String.eqb_neq in Hproto.
  unfold JsObject.has, JsObject.set, JsObject.has. rewrite Hproto.
  destruct (JsMap.has k o) eqn:Hhas.
  - by rewrite JsMap_has_replace.
  - apply JsMapFacts.has_keys. destruct (JsObject.array_index k) as [n |].
    + clear Hhas. induction o as [| [k' v'] rest IH]; simpl.
      * apply elem_of_cons. by left.
      * destruct (JsObject.array_index k') as [n' |].
        -- destruct (n <? n')%N; simpl; apply elem_of_cons; [by left | by right].
        -- simpl. apply elem_of_cons. by left.
    + rewrite map_app, elem_of_app. right. simpl. apply elem_of_cons. by left.
Qed.

Section Chains.
Context {Args Out : Type}.

(** X19. On an agent whose storage for a supported hook type does not
    hold a name, registering a hook under the name succeeds, if the name
    is not [__proto__], and removing the name afterwards gives back the
    hooks as they were. Removing a name that was never registered
    throws, unless plain objects inherit a property of that name. *)
Theorem instance_hook_registered_then_removed (hookType : AgentHookTypes) (hookName : string)
    (hook : HookFunction Args Out) (h : AgentBaseHooks Args Out)
    (hooks : HookStorage Args Out)
    (Hsupported : hookType ∈ AgentBase_supportedHookTypes)
    (Hstorage : JsMap.get hookType (instanceHooks h) = Some hooks)
    (Hfresh : JsObject.has hookName hooks = false)
    (Hplain : hookName <> "__proto__") :
  exists registered,
    registerInstanceHook hookType hookName hook h = Ok registered /\
    (hookName, hook) ∈ instance_hooks_for hookType registered /\
    removeInstanceHook hookType hookName registered = Ok h /\
    (inherited hookName = false ->
     exists e, removeInstanceHook hookType hookName h = Throw e).
Proof.
  unfold registerInstanceHook. rewrite bool_decide_eq_true_2 by done. rewrite Hstorage.
  eexists. split; [reflexivity |]. split; [| split].
  - unfold instance_hooks_for. simpl. rewrite JsMap_get_set. unfold JsObject.entries.
    unfold JsObject.set. rewrite Hfresh, (proj2 (String.eqb_neq _ _) Hplain).
    destruct (JsObject.array_index hookName) as [n |].
    + clear Hfresh Hstorage. induction hooks as [| [k' v'] rest IH]; simpl.
      * apply elem_of_cons. by left.
      * destruct (JsObject.array_index k') as [n' |].
        -- destruct (n <? n')%N; apply elem_of_cons; [by left | by right].
        -- apply elem_of_cons. by left.
    + rewrite elem_of_app. right. apply elem_of_cons. by left.
  - unfold removeInstanceHook. simpl. rewrite JsMap_get_set, JsObject_has_set by done. simpl.
    rewrite JsObject_delete_set_fresh by done.
    rewrite JsMap_set_back by done. by destruct h.
  - intros Hown. unfold removeInstanceHook. rewrite Hstorage, Hfresh, Hown. simpl. eauto.
Qed.

(** X27. The hooks of a step are kept in a Map: a hook registered under
    a name the Map does not hold and removed again leaves the hooks as
    they were, removing a name that is not registered throws the error
    that names it, and registering under a name a second time replaces
    the function and keeps the hook's place in the order. *)
Theorem step_hook_removed_or_replaced_in_place (kind hookName : string)
    (hook hook' : HookFunction Args Out) (h : StepHooks Args Out)
    (Hfresh : JsMap.has hookName (instanceStepHooks h) = false) :
  let once := registerInstanceStepHook hookName hook h in
  let twice := registerInstanceStepHook hookName hook' once in
  removeInstanceStepHook kind hookName once = Ok h /\
  removeInstanceStepHook kind hookName h
    = Throw (new_Error (kind +:+ " '" +:+ hookName +:+ "' 未找到")) /\
  map fst (JsMap.entries (instanceStepHooks twice))
    = map fst (JsMap.entries (instanceStepHooks once)) /\
  JsMap.get hookName (instanceStepHooks twice) = Some hook'.
Proof.
  assert (Hk : hookName ∉ map fst (instanceStepHooks h)).
  { intros Hin. apply JsMapFacts.has_keys in Hin. congruence. }
  assert (Hhas : JsMap.has hookName (JsMap.set hookName hook (instanceStepHooks h)) = true).
  { apply JsMapFacts.has_set. by left. }
  split; [| split; [| split]].
  - unfold removeInstanceStepHook, registerInstanceStepHook. simpl.
    rewrite Hhas, JsMap_delete_set_fresh by done. by destruct h.
  - unfold removeInstanceStepHook. by rewrite Hfresh.
  - unfold registerInstanceStepHook, JsMap.entries. simpl.
    unfold JsMap.set at 1. rewrite Hhas. apply JsMapFacts.replace_keys.
  - unfold registerInstanceStepHook. simpl. apply JsMap_get_set.
Qed.

Lemma scoped_runs {X : Type} (scope : HookScope) (log : list (HookRun X)) :
  Forall (fun run => run_scope run = scope) log ->
  map (fun run => (run_scope run, run_name run)) log
  = map (fun n => (scope, n)) (map run_name log).
Proof.
  induction 1 as [| run rest Hrun Hrest IH]; simpl; [done |]. by rewrite Hrun, IH.
Qed.

(** X20. The hooks of the reasoning step are one collection: each hook
    registered for the step is run in the chain before the step and
    again in the chain after it, in the same order, class hooks first. *)
Theorem step_hooks_run_before_and_after (className : string) (h : StepHooks Args Out)
    (args args' : Args) (output : Out) :
  map (fun run => (run_scope run, run_name run)) (snd (applyPreStepHooks className h args))
  = map (fun run => (run_scope run, run_name run))
      (snd (applyPostReasoningHooks className h args' output)) /\
  map run_name (snd (applyPreStepHooks className h args))
  = map fst (class_step_hooks_for className h)
    ++ map fst (JsMap.entries (instanceStepHooks h)).
Proof.
  destruct (HookFacts.applyPreStepHooks_class_first className h args)
    as (c1 & i1 & -> & Hc1 & Hi1 & Hcn1 & Hin1).
  destruct (HookFacts.applyPostReasoningHooks_class_first className h args' output)
    as (c2 & i2 & -> & Hc2 & Hi2 & Hcn2 & Hin2).
  split.
  - rewrite !map_app, (scoped_runs ClassScope c1), (scoped_runs InstanceScope i1),
      (scoped_runs ClassScope c2), (scoped_runs InstanceScope i2) by done.
    by rewrite Hcn1, Hin1, Hcn2, Hin2.
  - by rewrite map_app, Hcn1, Hin1.
Qed.

End Chains.

Section ActingChain.
Context `{Runtime}.

Lemma run_post_acting_hooks_last_null {Args M' : Type} (scope : HookScope)
    (earlier : list (string * HookFunction Args (option M'))) (hookName : string)
    (hook : HookFunction Args (option M')) (args : Args) :
  (forall output, call_post hook args output = HookNull) ->
  forall output,
    fst (run_post_acting_hooks scope (earlier ++ [(hookName, hook)]) args output) = None.
Proof.
  intros Hnull. induction earlier as [| [n h0] rest IH]; intros output; simpl.
  - by rewrite Hnull.
  - match goal with
    | |- context [run_post_acting_hooks scope (rest ++ _) args ?next] =>
        specialize (IH next);
        destruct (run_post_acting_hooks scope (rest ++ [(hookName, hook)]) args next)
    end.
    done.
Qed.

(** X21. When the instance hook of the acting step that runs last
    answers [null] in the chain after the step, [actingWithHooks]
    returns [null] whatever [acting] returned, so a completion the tool
    signalled is not adopted; the same answer in the chain after the
    reasoning step leaves the message as it is. *)
Theorem post_acting_null_discards_the_reply (a : Agent) (toolCall : ToolUseBlock)
    (earlier : list (string * HookFunction ToolUseBlock (option Message)))
    (hookName : string) (hook : HookFunction ToolUseBlock (option Message)) (s : State)
    (Hlast : JsMap.entries (instanceStepHooks (actingHooks a)) = earlier ++ [(hookName, hook)])
    (Hnull : forall output, call_post hook toolCall output = HookNull) :
  fst (actingWithHooks a toolCall s) = Ok None /\
  forall (reasoningHook : HookFunction (list jsval) Message) (args : list jsval)
         (msg : Message),
    call_post reasoningHook args msg = HookNull ->
    fst (run_post_hooks InstanceScope [(hookName, reasoningHook)] args msg) = msg.
Proof.
  split.
  - unfold actingWithHooks.
    set (modifiedArgs := fst (applyPreStepHooks (className a) (actingHooks a) toolCall)).
    destruct (acting_run a modifiedArgs s) as (chunks & fail & s3 & s' & _ & Hact & _).
    unfold bind. rewrite Hact. simpl.
    unfold applyPostActingHooks.
    destruct (run_post_acting_hooks ClassScope _ toolCall _) as [mid classLog].
    rewrite Hlast.
    pose proof (run_post_acting_hooks_last_null InstanceScope earlier hookName hook
                  toolCall Hnull mid) as Hfinal.
    destruct (run_post_acting_hooks InstanceScope _ toolCall mid) as [final instanceLog].
    simpl in *. by rewrite Hfinal.
  - intros reasoningHook args msg Hr. simpl. by rewrite Hr.
Qed.

End ActingChain.

End HookMoreFacts.
(** * What every call of reply keeps *)

Module ReplyFacts.

Section Kept.
Context `{Runtime}.

Variable R : State -> State -> Prop.
Hypothesis R_refl : forall s, R s s.
Hypothesis R_trans : forall s1 s2 s3, R s1 s2 -> R s2 s3 -> R s1 s3.
Hypothesis R_uuid : forall n s, R s (set_next_uuid n s).
Hypothesis R_trace : forall t s, R s (set_trace t s).
Hypothesis R_memory : forall msgs s, R s (set_memory (memory s ++ msgs) s).
Hypothesis R_required : forall sm s, R s (set_requiredStructuredModel sm s).
Hypothesis R_reset :
  forall names s, R s (set_toolkit (snd (ToolkitOps.resetEquippedTools names (toolkit s))) s).
Hypothesis R_extended :
  forall n sm s, R s (set_toolkit (ToolkitOps.setExtendedModel n sm (toolkit s)) s).
Hypothesis R_calls : forall n s, R s (set_model_calls n s).

Lemma ret_keeps {A : Type} (x : A) : keeps R (ret x).
Proof. intros s. apply R_refl. Qed.

Lemma raise_keeps {A : Type} (e : JsError) : keeps R (@raise A e).
Proof. intros s. apply R_refl. Qed.

Lemma gets_keeps {A : Type} (f : State -> A) : keeps R (gets f).
Proof. intros s. apply R_refl. Qed.

Lemma bind_keeps {A B : Type} (m : M A) (k : A -> M B) :
  keeps R m -> (forall x, keeps R (k x)) -> keeps R (bind m k).
Proof.
  intros Hm Hk s. unfold bind. specialize (Hm s).
  destruct (m s) as [[x | e] s1]; simpl in *; [| done].
  eapply R_trans; [exact Hm | apply Hk].
Qed.

Lemma modify_keeps (f : State -> State) : (forall s, R s (f s)) -> keeps R (modify f).
Proof. intros Hf s. apply Hf. Qed.

Lemma emit_keeps (e : Event) : keeps R (emit e).
Proof. apply modify_keeps. intros s. apply R_trace. Qed.

Lemma print_keeps (msg : Message) (last : bool) : keeps R (print msg last).
Proof. apply emit_keeps. Qed.

Lemma memory_add_keeps (msgs : list Message) : keeps R (memory_add msgs).
Proof. apply modify_keeps. intros s. apply R_memory. Qed.

Lemma generateUuid_keeps : keeps R generateUuid.
Proof. intros s. apply R_uuid. Qed.

Ltac keep_using known :=
  repeat first
    [ known
    | apply ret_keeps
    | apply raise_keeps
    | apply gets_keeps
    | apply print_keeps
    | apply memory_add_keeps
    | apply generateUuid_keeps
    | apply emit_keeps
    | apply bind_keeps; [| intros ?]
    | match goal with
      | |- keeps R (match ?x with _ => _ end) => destruct x
      | |- keeps R (if ?b then _ else _) => destruct b
      end
    | assumption ].

Ltac keep := keep_using fail.

Lemma model_call_keeps (a : Agent) (formatted : Formatted) (schemas : option (list ToolSchema)) :
  keeps R (model_call a formatted schemas).
Proof.
  unfold model_call.
  keep_using ltac:(apply modify_keeps; intros ?; apply R_calls).
Qed.

Lemma reasoning_stream_keeps (chunks : list StreamChunk) :
  forall acc msg, keeps R (reasoning_stream chunks acc msg).
Proof.
  induction chunks as [| c rest IH]; intros acc msg; simpl; keep_using ltac:(apply IH).
Qed.

Lemma reasoning_keeps (a : Agent) : keeps R (reasoning a).
Proof.
  unfold reasoning, reasoning_response, generateShortUuid, getMemory.
  keep_using ltac:(first [apply model_call_keeps | apply reasoning_stream_keeps]).
Qed.

Lemma acting_chunks_keeps (a : Agent) (toolCall : ToolUseBlock) (chunks : list ToolResponse) :
  forall msg r, keeps R (acting_chunks a toolCall chunks msg r).
Proof.
  induction chunks as [| c rest IH]; intros msg r; simpl; keep_using ltac:(apply IH).
Qed.

Lemma resetEquippedTools_with_keeps (toolNames : jsval) (s : State) :
  R s (set_toolkit (snd (resetEquippedTools_with toolNames (toolkit s))) s).
Proof.
  assert (Hsame : R s (set_toolkit (toolkit s) s)).
  { replace (set_toolkit (toolkit s) s) with s by (by destruct s). apply R_refl. }
  destruct toolNames; simpl; try exact Hsame.
  destruct (mapM string_of_jsval items); [apply R_reset | exact Hsame].
Qed.

Lemma createResetToolsWrapper_keeps (args : list jsval) : keeps R (createResetToolsWrapper args).
Proof.
  intros s. unfold createResetToolsWrapper, bind, gets, modify, ret. simpl.
  destruct (fst (resetEquippedTools_with (nth 0 args JsUndefined) (toolkit s))); simpl;
    apply resetEquippedTools_with_keeps.
Qed.

Lemma drain_keeps (a : Agent) (g : AsyncGenerator) : keeps R (drain a g).
Proof.
  destruct g; simpl; [keep | unfold generateResponse; keep | apply createResetToolsWrapper_keeps].
Qed.

Lemma acting_keeps (a : Agent) (toolCall : ToolUseBlock) : keeps R (acting a toolCall).
Proof.
  unfold acting, callToolFunction.
  keep_using ltac:(first [apply drain_keeps | apply acting_chunks_keeps]).
Qed.

Lemma reasoningWithHooks_keeps (a : Agent) : keeps R (reasoningWithHooks a).
Proof. unfold reasoningWithHooks. keep_using ltac:(apply reasoning_keeps). Qed.

Lemma actingWithHooks_keeps (a : Agent) (toolCall : ToolUseBlock) :
  keeps R (actingWithHooks a toolCall).
Proof. unfold actingWithHooks. keep_using ltac:(apply acting_keeps). Qed.

Lemma sequence_keeps {A : Type} (ms : list (M A)) :
  Forall (keeps R) ms -> keeps R (sequence ms).
Proof. induction 1 as [| m rest Hm Hrest IH]; simpl; keep. Qed.

(** What every stretch of an acting step keeps, the acting steps of a
    round keep together, whatever the order in which the runtime runs
    them. *)
Lemma acting_round_keeps (a : Agent) (toolCalls : list ToolUseBlock) :
  keeps R (if parallelToolCalls a then Promise_all (map (actingWithHooks_task a) toolCalls)
           else await_each (map (actingWithHooks_task a) toolCalls)).
Proof.
  intros s.
  destruct (acting_round_obeys (fun _ => True) (fun _ => R) a toolCalls
              R_refl (fun _ _ => R_trans) (fun _ _ _ _ _ => Logic.I)
              (fun n s0 _ => R_uuid n s0) (fun _ s0 _ => R_trace _ s0)
              (fun _ _ s0 _ => R_trace _ s0) (fun msgs s0 _ => R_memory msgs s0)
              (fun _ _ _ s0 _ _ => drain_keeps a _ s0) s Logic.I)
    as (responses & s' & Hrun & _ & Hkept & _).
  by rewrite Hrun.
Qed.

Lemma summarizing_stream_keeps (chunks : list StreamChunk) :
  forall msg, keeps R (summarizing_stream chunks msg).
Proof.
  induction chunks as [| c rest IH]; intros msg; simpl; keep_using ltac:(apply IH).
Qed.

Lemma summarizing_keeps (a : Agent) : keeps R (summarizing a).
Proof.
  unfold summarizing, getMemory.
  keep_using ltac:(first [apply model_call_keeps | apply summarizing_stream_keeps]).
Qed.

Lemma react_loop_keeps (a : Agent) :
  forall (fuel : nat) (iteration : Z), keeps R (react_loop a fuel iteration).
Proof.
  induction fuel as [| fuel IH]; intros i; cbn [react_loop]; [apply ret_keeps |].
  keep_using ltac:(first [apply reasoningWithHooks_keeps | apply acting_round_keeps | apply IH]).
Qed.

Lemma reply_retrieve_keeps (a : Agent) (msg : list Message) : keeps R (reply_retrieve a msg).
Proof. unfold reply_retrieve. keep. Qed.

Lemma reply_require_keeps (a : Agent) (structuredModel : option StructuredModel) :
  keeps R (reply_require a structuredModel).
Proof.
  unfold reply_require.
  keep_using ltac:(first [ apply modify_keeps; intros ?; apply R_required
                         | apply modify_keeps; intros ?; apply R_extended ]).
Qed.

Lemma reply_record_keeps (a : Agent) (msg : list Message) (replyMsg : Message) :
  keeps R (reply_record a msg replyMsg).
Proof. unfold reply_record, getMemory. keep. Qed.

Lemma reply_keeps (a : Agent) (msg : list Message) (structuredModel : option StructuredModel) :
  keeps R (reply a msg structuredModel).
Proof.
  unfold reply.
  keep_using ltac:(first [ apply reply_retrieve_keeps | apply reply_require_keeps
                         | apply react_loop_keeps | apply summarizing_keeps
                         | apply reply_record_keeps ]).
Qed.

End Kept.

Section Facts.
Context `{Runtime}.

(** X22. Whatever the model answers, the tools yield and the hooks
    return, in whatever order the runtime runs the acting steps of a
    round, and whether it returns or throws, a call of [reply] leaves
    the conversation log as it was with messages added at its end, and
    leaves registered exactly the tool names that were registered
    before. The hooks are functions of the values they are given: a
    hook that changes the agent it is passed, as by clearMemory, is not
    covered. *)
Theorem reply_only_extends_the_log (a : Agent) (msg : list Message)
    (structuredModel : option StructuredModel) (s : State) :
  memory s `prefix_of` memory (snd (reply a msg structuredModel s)) /\
  forall n : string,
    is_Some (tools (toolkit (snd (reply a msg structuredModel s))) !! n)
    <-> is_Some (tools (toolkit s) !! n).
Proof.
  split.
  - apply (reply_keeps log_extended); unfold log_extended; intros; simpl;
      try done; try (by apply prefix_app_r); try (etrans; eassumption).
  - apply (reply_keeps same_registrations); unfold same_registrations; intros; simpl;
      try done.
    + etrans; eauto.
    + by rewrite ToolkitFacts.reset_keeps_registry.
    + unfold ToolkitOps.setExtendedModel. simpl. rewrite lookup_alter.
      destruct (decide (n = n0)) as [-> | Hne]; [| done].
      destruct (tools (toolkit s0) !! n0); simpl; split; intros [? ?]; eauto; done.
Qed.

(** *** Model calls *)

















End Facts.

End ReplyFacts.
(** * The constructor, the completion action and the meta tool *)

Module AgentMoreFacts.

Section Facts.
Context `{Runtime}.



(** Acting on a request for a tool that is not equipped. *)
Lemma acting_unequipped (a : Agent) (toolCall : ToolUseBlock) (s : State) :
  JsSet.has (tu_name toolCall) (equippedTools (toolkit s)) = false ->
  exists s',
    acting a toolCall s = (Ok None, s') /\
    memory s' = memory s ++
      [MessageFactory.createToolResultMessage (uuidv4 (next_uuid s))
         [createToolResultBlock (tu_id toolCall) (tu_name toolCall)
            (JsStr ("错误: " +:+ "工具 '" +:+ tu_name toolCall +:+ "' 未装备或不存在"))]] /\
    toolkit s' = toolkit s.
Proof.
  intros Hout.
  unfold acting, callToolFunction, bind, generateUuid, emit, modify, gets. simpl.
  unfold ToolkitOps.callToolFunction. rewrite Hout. simpl.
  unfold ret, bind, print, emit, modify, memory_add. simpl.
  rewrite orb_true_r. simpl. rewrite andb_false_r.
  eexists. split; [reflexivity |]. simpl. split; [| done].
  unfold chunk_text, block_text. simpl. done.
Qed.

Lemma setupToolkit_completion_equipped (agentic metaTool : bool) (ltm : option ILongTermMemory)
    (tk : Toolkit) :
  exists tool,
    tools (setupToolkit "generate_response" agentic metaTool ltm tk) !! "generate_response"
      = Some tool /\
    func tool = generateResponse_bound /\
    parameters tool = generate_response_schema /\
    JsSet.has "generate_response"
      (equippedTools (setupToolkit "generate_response" agentic metaTool ltm tk)) = true.
Proof.
  exists (mkToolFunctionMetadata "generate_response" generateResponse_bound
            "生成回复。注意：只有response参数对其他人可见，您应该在response参数中包含所有必要信息。"
            generate_response_schema None).
  unfold setupToolkit, ToolkitOps.registerToolWithMetadata, ToolkitOps.registerToolFunction.
  destruct ltm as [l |], agentic, metaTool; simpl;
    rewrite ?lookup_insert_ne by done; rewrite lookup_insert_eq;
    (split; [done |]); (split; [done |]); (split; [done |]);
    apply JsSetFacts.has_true; rewrite ?JsSetFacts.elem_of_add; tauto.
Qed.


Lemma names_are_strings (toolNames : list string) :
  mapM string_of_jsval (map JsStr toolNames) = Some toolNames.
Proof. induction toolNames as [| n rest IH]; [done |]. cbn. cbn in IH. by rewrite IH. Qed.

(** For an array of names the meta tool resets the equipped tools as
    the toolkit does for these names. *)
Lemma resetEquippedTools_with_names (toolNames : list string) (tk : Toolkit) :
  resetEquippedTools_with (JsArr (map JsStr toolNames)) tk
  = ToolkitOps.resetEquippedTools toolNames tk.
Proof. unfold resetEquippedTools_with. by rewrite names_are_strings. Qed.

(** X26. Acting on a request for the meta tool with names that are all
    registered equips exactly those names and returns no reply. If the
    completion action is not among them, acting on a completion request
    afterwards returns no reply either: the tool result it logs is the
    error that the action is not equipped. *)
Theorem reset_tool_can_unequip_the_completion_action (a : Agent) (s : State) (id : string)
    (toolNames : list string) (tool : ToolFunctionMetadata)
    (Hequipped : JsSet.has "reset_equipped_tools" (equippedTools (toolkit s)) = true)
    (Htool : tools (toolkit s) !! "reset_equipped_tools" = Some tool)
    (Hfunc : func tool = createResetToolsWrapper_bound)
    (Hparams : parameters tool = reset_equipped_tools_schema)
    (Hother : finishFunctionName a <> "reset_equipped_tools")
    (Hknown : forall n, n ∈ toolNames -> is_Some (tools (toolkit s) !! n))
    (Hleft_out : finishFunctionName a ∉ toolNames) :
  exists afterReset,
    acting a (mkToolUse id "reset_equipped_tools" [("toolNames", JsArr (map JsStr toolNames))]) s
      = (Ok None, afterReset) /\
    tools (toolkit afterReset) = tools (toolkit s) /\
    (forall n, n ∈ equippedTools (toolkit afterReset) <-> n ∈ toolNames) /\
    forall completion : ToolUseBlock,
      tu_name completion = finishFunctionName a ->
      exists s',
        acting a completion afterReset = (Ok None, s') /\
        memory s' = memory afterReset ++
          [MessageFactory.createToolResultMessage (uuidv4 (next_uuid afterReset))
             [createToolResultBlock (tu_id completion) (tu_name completion)
                (JsStr ("错误: " +:+ "工具 '" +:+ tu_name completion +:+ "' 未装备或不存在"))]].
Proof.
  set (request := mkToolUse id "reset_equipped_tools"
                    [("toolNames", JsArr (map JsStr toolNames))]).
  assert (Hcall : ToolkitOps.callToolFunction request (toolkit s)
                  = GenResetTools [JsArr (map JsStr toolNames)]).
  { unfold ToolkitOps.callToolFunction. simpl. rewrite Hequipped, Htool. simpl.
    unfold ToolkitOps.validateInput, ToolkitOps.callToolFunctionWithArgs.
    rewrite Hparams, Hfunc. reflexivity. }
  assert (Hneq : String.eqb "reset_equipped_tools" (finishFunctionName a) = false).
  { apply String.eqb_neq. congruence. }
  assert (Hmem : forall n, n ∈ fold_left (fun s name => JsSet.add name s) toolNames []
                           <-> n ∈ toolNames).
  { intros n. rewrite JsSetFacts.elem_of_fold_add. rewrite elem_of_nil. tauto. }
  assert (Hrun : exists afterReset,
            acting a request s = (Ok None, afterReset) /\
            toolkit afterReset
            = mkToolkit (tools (toolkit s))
                (fold_left (fun s name => JsSet.add name s) toolNames [])).
  { unfold acting, callToolFunction, bind, generateUuid, emit, modify, gets.
    cbn -[String.eqb ToolkitOps.callToolFunction].
    fold request. rewrite Hcall. cbn -[String.eqb].
    unfold createResetToolsWrapper, bind, gets, modify, ret.
    cbn -[String.eqb ToolkitOps.resetEquippedTools].
    rewrite names_are_strings.
    rewrite (ToolkitMoreFacts.resetEquippedTools_known toolNames (toolkit s) Hknown).
    cbn -[String.eqb]. rewrite Hneq. cbn -[String.eqb].
    unfold bind, print, emit, modify, ret, memory_add. cbn -[String.eqb].
    eexists. split; reflexivity. }
  destruct Hrun as (afterReset & Hrun & Htoolkit).
  exists afterReset. split; [exact Hrun |].
  rewrite Htoolkit. simpl. split; [done |]. split; [exact Hmem |].
  intros completion Hname.
  destruct (acting_unequipped a completion afterReset) as (s' & Hrun' & Hmemory & _).
  - rewrite Htoolkit. simpl.
    destruct (JsSet.has (tu_name completion) _) eqn:Hhas; [| done].
    apply JsSetFacts.has_true, Hmem in Hhas. by rewrite Hname in Hhas.
  - exists s'. split; [exact Hrun' | exact Hmemory].
Qed.

(** X25. Whatever toolkit the configuration supplies, the constructed
    agent's completion action is registered under generate_response as
    the agent's own handler with the one-parameter schema, and is
    equipped; a tool the toolkit held under that name is replaced. The
    meta tool is registered when it is enabled. With a long-term memory
    and no mode given, static and agent control are both on and the two
    memory tools are registered as the bound methods of the memory,
    with a schema that has no parameter and requires none, so that they
    are called without arguments; without a long-term memory both are
    off. Tools under other names are left as supplied. *)
Theorem constructor_registers_the_agents_tools (config : AgentConfig) :
  let a := fst (new_ReActAgent config) in
  let tk := toolkit (snd (new_ReActAgent config)) in
  let supplied := default ToolkitOps.new_Toolkit (cfg_toolkit config) in
  (exists tool,
     tools tk !! "generate_response" = Some tool /\
     func tool = generateResponse_bound /\
     parameters tool = generate_response_schema) /\
  "generate_response" ∈ ToolkitOps.getEquippedTools tk /\
  (enable_meta_tool config = Some true ->
   exists tool,
     tools tk !! "reset_equipped_tools" = Some tool /\
     func tool = createResetToolsWrapper_bound /\
     parameters tool = reset_equipped_tools_schema) /\
  (forall l, long_term_memory config = Some l -> long_term_memory_mode config = None ->
     staticControl a = true /\ agentControl a = true /\
     (exists tool,
        tools tk !! "record_to_memory" = Some tool /\
        func tool = Function_bind (recordToMemory l) /\
        properties (parameters tool) = Some JsObject.empty /\
        required (parameters tool) = Some []) /\
     (exists tool,
        tools tk !! "retrieve_from_memory" = Some tool /\
        func tool = Function_bind (retrieveFromMemory l) /\
        properties (parameters tool) = Some JsObject.empty /\
        required (parameters tool) = Some [])) /\
  (long_term_memory config = None -> staticControl a = false /\ agentControl a = false) /\
  forall n,
    n ∉ ["generate_response"; "record_to_memory"; "retrieve_from_memory";
         "reset_equipped_tools"] ->
    tools tk !! n = tools supplied !! n.
Proof.
  intros a tk supplied.
  split; [| split; [| split; [| split; [| split]]]].
  - destruct (setupToolkit_completion_equipped (agentControl a) (enableMetaTool a)
                (long_term_memory config) supplied) as (tool & Htool & Hfunc & Hparams & _).
    by exists tool.
  - destruct (setupToolkit_completion_equipped (agentControl a) (enableMetaTool a)
                (long_term_memory config) supplied) as (tool & _ & _ & _ & Hequipped).
    by apply JsSetFacts.has_true in Hequipped.
  - intros Hmeta. subst tk. unfold new_ReActAgent. simpl. rewrite Hmeta. simpl.
    unfold setupToolkit. simpl.
    eexists. split; [apply lookup_insert_eq |]. done.
  - intros l Hl Hmode. subst a tk. unfold new_ReActAgent. simpl. rewrite Hl, Hmode. simpl.
    split; [done |]. split; [done |].
    unfold setupToolkit. simpl.
    destruct (default false (enable_meta_tool config)); simpl;
      rewrite ?lookup_insert_ne by done.
    + split; eexists;
        (split; [rewrite ?lookup_insert_ne by done; apply lookup_insert_eq |]); simpl;
        by destruct (recordToMemory l), (retrieveFromMemory l).
    + split; eexists;
        (split; [rewrite ?lookup_insert_ne by done; apply lookup_insert_eq |]); simpl;
        by destruct (recordToMemory l), (retrieveFromMemory l).
  - intros Hnone. subst a. unfold new_ReActAgent. simpl. by rewrite Hnone.
  - intros n Hn. subst tk. unfold new_ReActAgent. simpl.
    assert (Hne : n <> "generate_response" /\ n <> "record_to_memory" /\
                  n <> "retrieve_from_memory" /\ n <> "reset_equipped_tools").
    { repeat split; intros ->; apply Hn; repeat (first [by left | right]);
        rewrite ?elem_of_cons; tauto. }
    destruct Hne as (H1 & H2 & H3 & H4).
    unfold setupToolkit, ToolkitOps.registerToolWithMetadata, ToolkitOps.registerToolFunction.
    destruct (long_term_memory config) as [l |],
             (long_term_memory_mode config) as [[] |],
             (enable_meta_tool config) as [[] |]; simpl;
      rewrite ?lookup_insert_ne by done; done.
Qed.

End Facts.
End AgentMoreFacts.

(** * The properties on concrete inputs *)

Module SampleFacts.
Import Samples.
#[local] Existing Instance runtime.



(** A completion request that leaves out its required argument. *)
Lemma missing_response_argument_fails_the_action :
  exists errorMessage s',
    acting plain_agent incomplete_call plain_state = (Ok None, s') /\
    memory s' = memory plain_state ++
      [MessageFactory.createToolResultMessage (uuidv4 (next_uuid plain_state))
         [createToolResultBlock "call-3" "generate_response"
            (JsStr ("错误: " +:+ errorMessage))]].
Proof.
  destruct (missing_required_argument_fails_only_the_action plain_agent plain_state
              incomplete_call generate_response_tool ["response"] "response")
    as (errorMessage & _ & s' & Ha & Hm).
  - vm_compute. reflexivity.
  - reflexivity.
  - apply elem_of_cons. by left.
  - reflexivity.
  - reflexivity.
  - exists errorMessage, s'. by split.
Qed.

Lemma C9_witness :
  equipped_registered (toolkit plain_state) /\
  forall c : ToolkitCall, equipped_registered (after_call c (toolkit plain_state)).
Proof.
  assert (Hinv : equipped_registered (toolkit plain_state)).
  { intros n Hn. vm_compute in Hn. apply list_elem_of_singleton in Hn. subst n.
    vm_compute. eauto. }
  split; [exact Hinv |].
  apply (ToolkitFacts.C9_equipped_subset_of_registered (toolkit plain_state) Hinv).
Defined.

Lemma C10_witness :
  maxIters (fst (new_ReActAgent zero_config)) = 10 /\
  exists replyMsg s',
    reply (fst (new_ReActAgent zero_config)) question (Some reject_everything)
      (snd (new_ReActAgent zero_config)) = (Ok replyMsg, s') /\
    count is_iteration (trace s') = 10%nat.
Proof.
  destruct (C10_falsy_max_iters_gives_ten_rounds zero_config) as (Hbound & _ & Hrun).
  - reflexivity.
  - split; [exact Hbound |].
    destruct (Hrun question reject_everything) as (replyMsg & s' & Hreply & Hi & _).
    + intros v. eexists. reflexivity.
    + intros n formatted schemas. reflexivity.
    + exists replyMsg, s'. split; [exact Hreply | exact Hi].
Defined.

(** C7 as the specification words it fails: a tool that yields "a" and
    then "b" leaves the output "b" in the log. *)
Lemma C7_counterexample_output_keeps_only_last_chunk :
  ~ output_accumulates progress_agent progress_call progress_state.
Proof.
  intros Hacc.
  destruct (Hacc progress_chunks None (acting_started progress_call progress_state))
    as (logged & out & Hlast & Hcontent & Hall).
  - vm_compute. reflexivity.
  - vm_compute in Hlast. inversion Hlast; subst logged. clear Hlast.
    vm_compute in Hcontent. inversion Hcontent; subst out. clear Hcontent.
    specialize (Hall (new_ToolResponse "a" (mkToolMetadata (Some true) None None []) false)).
    assert (Hin : new_ToolResponse "a" (mkToolMetadata (Some true) None None []) false
                  ∈ progress_chunks) by (apply elem_of_cons; by left).
    specialize (Hall Hin). vm_compute in Hall. discriminate Hall.
Qed.

(** C4 at a streamed answer. The backend sends the text in two deltas; the
    model gateway reports the accumulated text in each chunk; reasoning
    appends the blocks of every chunk, so its message repeats the
    accumulated text, while the complete response of the same text does
    not. *)
Theorem C4_streamed_reasoning_repeats_accumulated_text :
  OpenAIChatModel.handleStreamResponse backend_stream
    = [mkStreamChunk [Text "你"] false; mkStreamChunk [Text "你好"] true] /\
  OpenAIChatModel.handleNormalResponse (Some backend_message) = Ok [Text "你好"] /\
  (exists msg s',
     reasoning complete_agent complete_state = (Ok msg, s') /\
     content msg =
       Structured [createToolUseBlock "generate_response" [("response", JsStr "你好")] "id2"]) /\
  (exists msg s',
     reasoning streamed_agent streamed_state = (Ok msg, s') /\
     content msg =
       Structured
         [createToolUseBlock "generate_response"
            [("response", JsStr ("你" +:+ newline +:+ "你好"))] "id2"]).
Proof.
  split; [vm_compute; reflexivity |]. split; [vm_compute; reflexivity |].
  split; do 2 eexists; (split; [vm_compute; reflexivity | vm_compute; reflexivity]).
Qed.

(** C2 at a streamed answer without a tool request. The backend sends
    the text 你好 in two deltas and the model gateway delivers it in two
    chunks, each with the text so far; the model's text is 你好, but the
    response argument of the completion request that reasoning makes is
    the text of both chunks, one after the other. For the same answer as
    a complete response the argument is the model's text. *)
Theorem C2_streamed_plain_answer_requests_repeated_text :
  deltas_after "" (delivered backend_stream) = "你好" /\
  reasoning_outcome streamed_agent streamed_state
    = ModelStream [mkStreamChunk [Text "你"] false; mkStreamChunk [Text "你好"] true] None /\
  (exists msg s',
     reasoning streamed_agent streamed_state = (Ok msg, s') /\
     getToolUseBlocks msg =
       [mkToolUse "id2" "generate_response"
          [("response", JsStr ("你" +:+ newline +:+ "你好"))]]) /\
  (exists msg s',
     reasoning complete_agent complete_state = (Ok msg, s') /\
     getToolUseBlocks msg =
       [mkToolUse "id2" "generate_response" [("response", JsStr "你好")]]).
Proof.
  split; [vm_compute; reflexivity |]. split; [vm_compute; reflexivity |].
  split; do 2 eexists; (split; [vm_compute; reflexivity | vm_compute; reflexivity]).
Qed.

(** C6 at a tool whose schema requires the parameter toString. The
    request has no argument at all, but every object has a method of
    that name, so the check of the required parameters passes: the tool
    is invoked, with that method as its argument, its response reports
    success, and acting logs that response as the tool result. *)
Theorem C6_required_name_of_a_method_is_not_missed :
  required describe_schema = Some ["toString"] /\
  tu_input bare_describe_call = [] /\
  ToolkitOps.callToolFunction bare_describe_call (toolkit describe_state)
    = GenChunks [described] None /\
  success (tr_metadata described) = Some true /\
  exists s',
    acting describe_agent bare_describe_call describe_state = (Ok None, s') /\
    memory s' = memory describe_state ++
      [MessageFactory.createToolResultMessage (uuidv4 (next_uuid describe_state))
         [createToolResultBlock "call-7" "describe" (JsStr "described")]].
Proof.
  split; [reflexivity |]. split; [reflexivity |]. split; [vm_compute; reflexivity |].
  split; [reflexivity |]. eexists. split; vm_compute; reflexivity.
Qed.

(** C5 at two completion requests. The completion handler is called with
    the response argument alone, so the contract is checked on an empty
    object: a request whose title is a number passes a contract that wants
    a string title if there is one, and a request with a proper title
    fails a contract that requires a title, in every round. *)
Theorem C5_contract_checked_on_empty_object_not_on_argument :
  (exists e, parse title_optional (JsObj (tu_input numeric_title_call)) = Throw e) /\
  (exists replyMsg s',
     reply numeric_title_agent question (Some title_optional) numeric_title_state
       = (Ok replyMsg, s') /\
     content replyMsg = PlainText "done" /\
     metadata replyMsg = JsObj [] /\
     count is_iteration (trace s') = 1%nat) /\
  (exists data, parse title_required (JsObj (tu_input string_title_call)) = Ok data) /\
  (exists replyMsg s',
     reply string_title_agent question (Some title_required) string_title_state
       = (Ok replyMsg, s') /\
     count is_iteration (trace s') = 2%nat /\
     count is_summarizing_call (trace s') = 1%nat).
Proof.
  split; [eexists; vm_compute; reflexivity |].
  split; [do 2 eexists; split; [vm_compute; reflexivity | by vm_compute] |].
  split; [eexists; vm_compute; reflexivity |].
  do 2 eexists; split; [vm_compute; reflexivity | by vm_compute].
Qed.

(** C8 at two instance hooks on pre_print, registered as "2" and then
    "1": the chain of AgentBase runs "1" before "2", because its hooks are
    the keys of a plain object; the same registrations on the Map of a
    step run in the order they were made. *)
Theorem C8_numbered_hooks_run_in_key_order_not_registration_order :
  map run_name (snd (applyPreHooks "ReActAgent" numbered_base_hooks pre_print []))
    = ["1"; "2"] /\
  fst (applyPreHooks "ReActAgent" numbered_base_hooks pre_print []) = ["1"; "2"] /\
  map run_name (snd (applyPreStepHooks "ReActAgent" numbered_step_hooks [])) = ["2"; "1"] /\
  fst (applyPreStepHooks "ReActAgent" numbered_step_hooks []) = ["2"; "1"].
Proof. repeat split; vm_compute; reflexivity. Qed.

End SampleFacts.

(** * The further properties on concrete inputs *)

Module MoreSampleFacts.
Import Samples MoreSamples.
#[local] Existing Instance runtime.

Lemma X1_witness :
  exists m',
    addContentBlock (Text "more") greeting = Ok m' /\
    getContentBlocks None m' = [Text "hello"; Text "more"].
Proof.
  destruct (MessageFacts.addContentBlock_keeps_blocks_and_appends (Text "more") greeting)
    as (m' & Hadd & Hblocks & _).
  - intros v. discriminate.
  - exists m'. split; [exact Hadd | exact Hblocks].
Defined.

Lemma X2_witness : fromJSON (toJSON greeting) plain_state = (Ok greeting, plain_state).
Proof.
  apply MessageFacts.fromJSON_toJSON_round_trip.
  - discriminate.
  - reflexivity.
Defined.

Lemma X8_witness :
  ToolkitOps.callToolFunctionWithArgs generateResponse_bound
    [("title", JsStr "Report"); ("response", JsStr "done")] generate_response_schema
  = ToolkitOps.apply_func generateResponse_bound [JsStr "done"].
Proof.
  destruct (ToolkitMoreFacts.arguments_follow_the_schema generateResponse_bound
              [("title", JsStr "Report"); ("response", JsStr "done")] generate_response_schema)
    as (_ & Hcall & _).
  - intros r Hr. apply list_elem_of_singleton in Hr. subst r. reflexivity.
  - exact Hcall.
Defined.

Lemma X9_witness :
  ToolkitOps.callToolFunction first_call
    (snd (ToolkitOps.resetEquippedTools ["progress"] (toolkit progress_state)))
  = GenChunks [createErrorResponse "工具 'generate_response' 未装备或不存在"] None.
Proof.
  destruct (ToolkitMoreFacts.unequipped_tool_is_not_invoked (toolkit progress_state)
              ["progress"] first_call)
    as (_ & _ & _ & _ & Hcall).
  - intros n Hn. apply list_elem_of_singleton in Hn. subst n. vm_compute. eauto.
  - intros Hn. apply list_elem_of_singleton in Hn. discriminate Hn.
  - exact Hcall.
Defined.

Lemma X12_witness :
  ToolkitOps.removeToolFunction "progress"
    (ToolkitOps.registerToolWithMetadata progress_tool "progress" "reports progress"
       generate_response_schema ToolkitOps.new_Toolkit)
  = (true, ToolkitOps.new_Toolkit).
Proof.
  destruct (ToolkitMoreFacts.register_then_remove_restores progress_tool "progress"
              "reports progress" generate_response_schema ToolkitOps.new_Toolkit)
    as (Hremoved & _).
  - intros n Hn. vm_compute in Hn. by apply elem_of_nil in Hn.
  - reflexivity.
  - exact Hremoved.
Defined.

Lemma X13_witness :
  ToolkitOps.callToolFunction (mkToolUse "call-7" "weather" weather_input)
    (ToolkitOps.registerToolFunction (ExternalTool "getWeather" ["city"; "unit"] None weather_body)
       (Some "weather") ToolkitOps.new_Toolkit)
  = generator_of (weather_body [JsStr "Oslo"; JsStr "C"]).
Proof.
  apply (ToolkitMoreFacts.registered_function_takes_any_input "weather" "getWeather"
           ["city"; "unit"] None weather_body ToolkitOps.new_Toolkit "call-7" weather_input).
  - discriminate.
  - repeat constructor; discriminate.
  - apply NoDup_cons. split; [| apply NoDup_singleton].
    intros Hin. apply list_elem_of_singleton in Hin. discriminate Hin.
Defined.

Lemma X14_witness :
  exists chunk,
    OpenAIChatModel.handleStreamResponse backend_stream !! 1%nat = Some chunk /\
    chunk_content chunk = [Text "你好"] /\
    chunk_is_last chunk = true.
Proof.
  exists (mkStreamChunk [Text "你好"] true).
  destruct (StreamFacts.stream_chunks_carry_accumulated_text backend_stream 1
              (mkStreamChunk [Text "你好"] true))
    as (choice & _ & _ & _ & _).
  - reflexivity.
  - split; [reflexivity |]. split; reflexivity.
Defined.

Lemma X16_witness :
  exists out s',
    OpenAIChatFormatter.format merging [greeting; be_brief; tool_request] plain_state
      = (Ok out, s') /\
    map role out = [role_user; role_system; role_assistant].
Proof.
  destruct (FormatterFacts.tool_content_switches_off_system_handling merging
              [greeting; be_brief; tool_request] plain_state)
    as (out & s' & Hformat & Hshape).
  - reflexivity.
  - exists out, s'. split; [exact Hformat |].
    apply (f_equal (map (fun shape => snd (fst shape)))) in Hshape.
    rewrite !map_map in Hshape. exact Hshape.
Defined.

Lemma X17_witness :
  exists out s',
    OpenAIChatFormatter.format OpenAIChatFormatter.default_formatter [greeting; be_brief]
      plain_state = (Ok out, s') /\
    map content out = [PlainText "Be brief."; PlainText "hello"].
Proof.
  destruct (FormatterFacts.separate_puts_system_messages_first
              OpenAIChatFormatter.default_formatter [greeting; be_brief] plain_state)
    as (out & s' & Hformat & Hshape).
  - reflexivity.
  - reflexivity.
  - exists out, s'. split; [exact Hformat |].
    apply (f_equal (map (fun shape => snd (fst (fst shape))))) in Hshape.
    rewrite !map_map in Hshape. exact Hshape.
Defined.

Lemma X18_witness :
  exists out s',
    OpenAIChatFormatter.format merging [be_brief; greeting; be_kind] plain_state
      = (Ok out, s') /\
    map content out
    = [PlainText ("Be brief." +:+ newline +:+ newline +:+ "Be kind."); PlainText "hello"].
Proof.
  destruct (FormatterFacts.merge_and_first_keep_one_system_message merging
              [be_brief; greeting; be_kind] plain_state)
    as (out & s' & Hformat & Hshape).
  - discriminate.
  - reflexivity.
  - exists out, s'. split; [exact Hformat |].
    apply (f_equal (map (fun shape => snd (fst (fst shape))))) in Hshape.
    rewrite !map_map in Hshape. exact Hshape.
Defined.

Lemma X19_witness :
  exists registered,
    registerInstanceHook pre_reply "mine" (tagging "instance") fresh_base_hooks = Ok registered /\
    removeInstanceHook pre_reply "mine" registered = Ok fresh_base_hooks.
Proof.
  destruct (HookMoreFacts.instance_hook_registered_then_removed pre_reply "mine"
              (tagging "instance") fresh_base_hooks JsObject.empty)
    as (registered & Hregistered & _ & Hremoved & _).
  - vm_compute. repeat first [by left | right].
  - reflexivity.
  - reflexivity.
  - discriminate.
  - exists registered. split; [exact Hregistered | exact Hremoved].
Defined.

Lemma X21_witness : fst (actingWithHooks silenced_agent first_call plain_state) = Ok None.
Proof.
  destruct (HookMoreFacts.post_acting_null_discards_the_reply silenced_agent first_call []
              "silence" silencing plain_state)
    as (Hnone & _).
  - reflexivity.
  - intros output. reflexivity.
  - exact Hnone.
Defined.


Lemma X26_witness :
  exists afterReset,
    acting meta_agent
      (mkToolUse "call-8" "reset_equipped_tools" [("toolNames", JsArr [JsStr "progress"])])
      meta_state = (Ok None, afterReset) /\
    exists s', acting meta_agent first_call afterReset = (Ok None, s').
Proof.
  destruct (AgentMoreFacts.reset_tool_can_unequip_the_completion_action meta_agent meta_state
              "call-8" ["progress"] reset_equipped_tools_tool)
    as (afterReset & Hreset & _ & _ & Hlater).
  - reflexivity.
  - vm_compute. reflexivity.
  - reflexivity.
  - reflexivity.
  - discriminate.
  - intros n Hn. apply list_elem_of_singleton in Hn. subst n. vm_compute. eauto.
  - intros Hn. apply list_elem_of_singleton in Hn. discriminate Hn.
  - exists afterReset. split; [exact Hreset |].
    destruct (Hlater first_call eq_refl) as (s' & Hacting & _).
    exists s'. exact Hacting.
Defined.

Lemma X27_witness :
  removeInstanceStepHook "推理Hook" "2"
    (registerInstanceStepHook "2" (tagging "2") no_step_hooks)
  = Ok no_step_hooks.
Proof.
  destruct (HookMoreFacts.step_hook_removed_or_replaced_in_place "推理Hook" "2"
              (tagging "2") (tagging "1") no_step_hooks)
    as (Hremoved & _).
  - reflexivity.
  - exact Hremoved.
Defined.

(** A round that asks for the meta tool and for the completion action.
    When the runtime resumes the two acting steps in turn, the toolkit
    is asked for both before the meta tool runs, so the completion
    action is still equipped and its reply is there to be adopted; a
    runtime that ran the first step to its end before it resumed the
    second would leave the completion action unequipped. *)
Lemma reset_beside_completion_depends_on_the_order :
  fst (@Promise_all taking_turns _
         (map (@actingWithHooks_task taking_turns meta_agent) [reset_call; first_call])
         meta_state)
    = Ok [None;
          Some (new_Message "id2-0000" "assistant" (PlainText "first") role_assistant)] /\
  fst (@Promise_all runtime _
         (map (@actingWithHooks_task runtime meta_agent) [reset_call; first_call])
         meta_state)
    = Ok [None; None].
Proof. split; vm_compute; reflexivity. Qed.

End MoreSampleFacts.
